(** * christmas-tree: foliage and ornament animation

    A shallow embedding of the two components of the repository,
    [Foliage] (src/unnamed/part_000) and [Ornaments]
    (src/components/Ornaments.tsx), together with the parts of three.js
    they call.  JavaScript numbers are modelled by exact real numbers:
    rounding (including the float32 storage of the typed arrays), overflow,
    signed zeros and NaN are outside the model, except in [Binary64],
    which transcribes the per-instance update of the ornaments into
    IEEE 754 binary64 arithmetic.  [Math.random] is modelled by an
    explicit stream of draws that the generators consume in program
    order. *)

From Stdlib Require Import Reals Lra Lia List String RNsatz.
From Stdlib Require Floats.
From stdpp Require Import base list.

Local Open Scope R_scope.

(** Comparisons of real numbers, as decisions. *)
#[global] Instance R_eq_dec : EqDecision R := Req_dec_T.
#[global] Instance R_lt_dec : RelDecision Rlt := Rlt_dec.
#[global] Instance R_le_dec : RelDecision Rle := Rle_dec.

(** ** JavaScript [Math] *)

Module JsMath.

Definition sin : R -> R := Rtrigo_def.sin.
Definition cos : R -> R := Rtrigo_def.cos.
Definition sqrt : R -> R := R_sqrt.sqrt.
Definition abs : R -> R := Rabs.
Definition acos : R -> R := Ratan.acos.
Definition asin : R -> R := Ratan.asin.
Definition PI : R := Rtrigo1.PI.

(** [Math.atan2(y, x)], signed zeros aside: the reals have one zero,
    so that for [y = 0] and [x < 0] the model has pi where the code has
    - pi on a negative zero. *)
Definition atan2 (y x : R) : R :=
  if decide (0 < x) then atan (y / x)
  else if decide (x < 0) then
    (if decide (0 <= y) then atan (y / x) + PI else atan (y / x) - PI)
  else if decide (0 < y) then PI / 2
  else if decide (y < 0) then - (PI / 2)
  else 0.

(** [Math.pow(b, e)] for a base [b >= 0] and an exponent [e > 0]. *)
Definition pow (b e : R) : R :=
  if decide (0 < b) then Rpower b e else 0.

(** [Math.cbrt]. *)
Definition cbrt (v : R) : R :=
  if decide (0 < v) then Rpower v (1 / 3)
  else if decide (v < 0) then - Rpower (- v) (1 / 3)
  else 0.

(** [Math.floor], as an integer. *)
Definition floor (v : R) : Z := Int_part v.

Definition min (a b : R) : R := Rmin a b.
Definition max (a b : R) : R := Rmax a b.

End JsMath.

(** ** [Math.random]: a state monad over a stream of draws

    The state is the number of draws consumed so far; draw number [n] of
    the run is [draws n]. *)

Definition Rand (A : Type) : Type := (nat -> R) -> nat -> A * nat.

#[global] Instance rand_ret : MRet Rand := fun A (a : A) _ n => (a, n).

#[global] Instance rand_bind : MBind Rand :=
  fun A B (k : A -> Rand B) (m : Rand A) draws n =>
    let '(a, n') := m draws n in k a draws n'.

Definition Math_random : Rand R := fun draws n => (draws n, S n).

Definition run {A} (m : Rand A) (draws : nat -> R) : A := fst (m draws O).

(** Every draw of [Math.random] lies in [[0, 1)]. *)
Definition uniform_draws (draws : nat -> R) : Prop :=
  forall n : nat, 0 <= draws n < 1.

(** ** The parts of three.js used by the components

    three.js is a dependency of the repository; the methods below are
    the ones reached from [Foliage] and [Ornaments], each written after
    the library method of the same name. *)

Module Three.

Module MathUtils.

Definition lerp (x y t : R) : R := (1 - t) * x + t * y.

Definition clamp (value lo hi : R) : R :=
  JsMath.max lo (JsMath.min hi value).

End MathUtils.

Module Vector3.

Record t : Type := mk { x : R; y : R; z : R }.

Definition lengthSq (v : t) : R := x v * x v + y v * y v + z v * z v.

Definition length (v : t) : R := JsMath.sqrt (lengthSq v).

Definition subVectors (a b : t) : t :=
  mk (x a - x b) (y a - y b) (z a - z b).

Definition crossVectors (a b : t) : t :=
  mk (y a * z b - z a * y b)
     (z a * x b - x a * z b)
     (x a * y b - y a * x b).

Definition multiplyScalar (v : t) (s : R) : t :=
  mk (x v * s) (y v * s) (z v * s).

Definition divideScalar (v : t) (s : R) : t := multiplyScalar v (1 / s).

(** [this.divideScalar(this.length() || 1)] *)
Definition normalize (v : t) : t :=
  divideScalar v (if decide (length v = 0) then 1 else length v).

Definition setScalar (s : R) : t := mk s s s.

(** [this.x += (v.x - this.x) * alpha], likewise for [y] and [z]. *)
Definition lerp (this v : t) (alpha : R) : t :=
  mk (x this + (x v - x this) * alpha)
     (y this + (y v - y this) * alpha)
     (z this + (z v - z this) * alpha).

Definition distanceToSquared (this v : t) : R :=
  let dx := x this - x v in
  let dy := y this - y v in
  let dz := z this - z v in
  dx * dx + dy * dy + dz * dz.

Definition distanceTo (this v : t) : R :=
  JsMath.sqrt (distanceToSquared this v).

End Vector3.

Module Quaternion.

Record t : Type := mk { x : R; y : R; z : R; w : R }.

Definition identity : t := mk 0 0 0 1.

End Quaternion.

Module Euler.

(** Only the default order, XYZ, occurs. *)
Record t : Type := mk { x : R; y : R; z : R }.

Definition zero : t := mk 0 0 0.

End Euler.

Module Matrix4.

(** The sixteen [elements], column-major as in three.js. *)
Record t : Type := mk {
  te0 : R; te1 : R; te2 : R; te3 : R;
  te4 : R; te5 : R; te6 : R; te7 : R;
  te8 : R; te9 : R; te10 : R; te11 : R;
  te12 : R; te13 : R; te14 : R; te15 : R }.

Definition identity : t :=
  mk 1 0 0 0  0 1 0 0  0 0 1 0  0 0 0 1.

Definition compose (position : Vector3.t) (quaternion : Quaternion.t)
    (scale : Vector3.t) : t :=
  let x := Quaternion.x quaternion in
  let y := Quaternion.y quaternion in
  let z := Quaternion.z quaternion in
  let w := Quaternion.w quaternion in
  let x2 := x + x in let y2 := y + y in let z2 := z + z in
  let xx := x * x2 in let xy := x * y2 in let xz := x * z2 in
  let yy := y * y2 in let yz := y * z2 in let zz := z * z2 in
  let wx := w * x2 in let wy := w * y2 in let wz := w * z2 in
  let sx := Vector3.x scale in
  let sy := Vector3.y scale in
  let sz := Vector3.z scale in
  mk ((1 - (yy + zz)) * sx) ((xy + wz) * sx) ((xz - wy) * sx) 0
     ((xy - wz) * sy) ((1 - (xx + zz)) * sy) ((yz + wx) * sy) 0
     ((xz + wy) * sz) ((yz - wx) * sz) ((1 - (xx + yy)) * sz) 0
     (Vector3.x position) (Vector3.y position) (Vector3.z position) 1.

Definition makeRotationFromQuaternion (q : Quaternion.t) : t :=
  compose (Vector3.mk 0 0 0) q (Vector3.mk 1 1 1).

Definition determinant (m : t) : R :=
  let n11 := te0 m in let n12 := te4 m in
  let n13 := te8 m in let n14 := te12 m in
  let n21 := te1 m in let n22 := te5 m in
  let n23 := te9 m in let n24 := te13 m in
  let n31 := te2 m in let n32 := te6 m in
  let n33 := te10 m in let n34 := te14 m in
  let n41 := te3 m in let n42 := te7 m in
  let n43 := te11 m in let n44 := te15 m in
  n41 * (n14 * n23 * n32 - n13 * n24 * n32 - n14 * n22 * n33
         + n12 * n24 * n33 + n13 * n22 * n34 - n12 * n23 * n34)
  + n42 * (n11 * n23 * n34 - n11 * n24 * n33 + n14 * n21 * n33
           - n13 * n21 * n34 + n13 * n24 * n31 - n14 * n23 * n31)
  + n43 * (n11 * n24 * n32 - n11 * n22 * n34 - n14 * n21 * n32
           + n12 * n21 * n34 + n14 * n22 * n31 - n12 * n24 * n31)
  + n44 * (- n13 * n22 * n31 - n11 * n23 * n32 + n11 * n22 * n33
           + n13 * n21 * n32 - n12 * n21 * n33 + n12 * n23 * n31).

(** [this.lookAt(eye, target, up)] writes the upper 3x3 block of
    [this] and leaves the other elements as they are. *)
Definition lookAt (this : t) (eye target up : Vector3.t) : t :=
  let z0 := Vector3.subVectors eye target in
  let z1 := if decide (Vector3.lengthSq z0 = 0)
            then Vector3.mk (Vector3.x z0) (Vector3.y z0) 1 else z0 in
  let z2 := Vector3.normalize z1 in
  let x0 := Vector3.crossVectors up z2 in
  let '(z3, x1) :=
    if decide (Vector3.lengthSq x0 = 0) then
      let z' :=
        if decide (JsMath.abs (Vector3.z up) = 1)
        then Vector3.mk (Vector3.x z2 + 0.0001) (Vector3.y z2)
                        (Vector3.z z2)
        else Vector3.mk (Vector3.x z2) (Vector3.y z2)
                        (Vector3.z z2 + 0.0001) in
      let z'' := Vector3.normalize z' in
      (z'', Vector3.crossVectors up z'')
    else (z2, x0) in
  let x2 := Vector3.normalize x1 in
  let y0 := Vector3.crossVectors z3 x2 in
  mk (Vector3.x x2) (Vector3.y x2) (Vector3.z x2) (te3 this)
     (Vector3.x y0) (Vector3.y y0) (Vector3.z y0) (te7 this)
     (Vector3.x z3) (Vector3.y z3) (Vector3.z z3) (te11 this)
     (te12 this) (te13 this) (te14 this) (te15 this).

End Matrix4.

(** [Quaternion.setFromRotationMatrix], on the upper 3x3 block of [m]. *)
Definition Quaternion_setFromRotationMatrix (m : Matrix4.t)
    : Quaternion.t :=
  let m11 := Matrix4.te0 m in let m12 := Matrix4.te4 m in
  let m13 := Matrix4.te8 m in
  let m21 := Matrix4.te1 m in let m22 := Matrix4.te5 m in
  let m23 := Matrix4.te9 m in
  let m31 := Matrix4.te2 m in let m32 := Matrix4.te6 m in
  let m33 := Matrix4.te10 m in
  let trace := m11 + m22 + m33 in
  if decide (0 < trace) then
    let s := 0.5 / JsMath.sqrt (trace + 1) in
    Quaternion.mk ((m32 - m23) * s) ((m13 - m31) * s) ((m21 - m12) * s)
                  (0.25 / s)
  else if decide (m22 < m11 /\ m33 < m11) then
    let s := 2 * JsMath.sqrt (1 + m11 - m22 - m33) in
    Quaternion.mk (0.25 * s) ((m12 + m21) / s) ((m13 + m31) / s)
                  ((m32 - m23) / s)
  else if decide (m33 < m22) then
    let s := 2 * JsMath.sqrt (1 + m22 - m11 - m33) in
    Quaternion.mk ((m12 + m21) / s) (0.25 * s) ((m23 + m32) / s)
                  ((m13 - m31) / s)
  else
    let s := 2 * JsMath.sqrt (1 + m33 - m11 - m22) in
    Quaternion.mk ((m13 + m31) / s) ((m23 + m32) / s) (0.25 * s)
                  ((m21 - m12) / s).

(** [Quaternion.setFromEuler], order XYZ. *)
Definition Quaternion_setFromEuler (e : Euler.t) : Quaternion.t :=
  let c1 := JsMath.cos (Euler.x e / 2) in
  let c2 := JsMath.cos (Euler.y e / 2) in
  let c3 := JsMath.cos (Euler.z e / 2) in
  let s1 := JsMath.sin (Euler.x e / 2) in
  let s2 := JsMath.sin (Euler.y e / 2) in
  let s3 := JsMath.sin (Euler.z e / 2) in
  Quaternion.mk (s1 * c2 * c3 + c1 * s2 * s3)
                (c1 * s2 * c3 - s1 * c2 * s3)
                (c1 * c2 * s3 + s1 * s2 * c3)
                (c1 * c2 * c3 - s1 * s2 * s3).

(** [Euler.setFromRotationMatrix], order XYZ. *)
Definition Euler_setFromRotationMatrix (m : Matrix4.t) : Euler.t :=
  let m11 := Matrix4.te0 m in let m12 := Matrix4.te4 m in
  let m13 := Matrix4.te8 m in
  let m22 := Matrix4.te5 m in let m23 := Matrix4.te9 m in
  let m32 := Matrix4.te6 m in let m33 := Matrix4.te10 m in
  let ey := JsMath.asin (MathUtils.clamp m13 (-1) 1) in
  if decide (JsMath.abs m13 < 0.9999999) then
    Euler.mk (JsMath.atan2 (- m23) m33) ey (JsMath.atan2 (- m12) m11)
  else
    Euler.mk (JsMath.atan2 m32 m22) ey 0.

Definition Euler_setFromQuaternion (q : Quaternion.t) : Euler.t :=
  Euler_setFromRotationMatrix (Matrix4.makeRotationFromQuaternion q).

Definition Vector3_setFromMatrixPosition (m : Matrix4.t) : Vector3.t :=
  Vector3.mk (Matrix4.te12 m) (Matrix4.te13 m) (Matrix4.te14 m).

(** [Matrix4.decompose]: the position, quaternion and scale it writes.
    On a matrix with an axis column of length 0 the code divides by zero
    and writes NaN into the quaternion; the model, with 1 / 0 = 0, does
    not show that, and [Matrix4_decompose_defined] below is the
    condition under which the two agree. *)
Definition Matrix4_decompose (m : Matrix4.t)
    : Vector3.t * Quaternion.t * Vector3.t :=
  let sx0 := Vector3.length
               (Vector3.mk (Matrix4.te0 m) (Matrix4.te1 m) (Matrix4.te2 m)) in
  let sy := Vector3.length
              (Vector3.mk (Matrix4.te4 m) (Matrix4.te5 m) (Matrix4.te6 m)) in
  let sz := Vector3.length
              (Vector3.mk (Matrix4.te8 m) (Matrix4.te9 m) (Matrix4.te10 m)) in
  let det := Matrix4.determinant m in
  let sx := if decide (det < 0) then - sx0 else sx0 in
  let invSX := 1 / sx in
  let invSY := 1 / sy in
  let invSZ := 1 / sz in
  let m1 :=
    Matrix4.mk
      (Matrix4.te0 m * invSX) (Matrix4.te1 m * invSX)
      (Matrix4.te2 m * invSX) (Matrix4.te3 m)
      (Matrix4.te4 m * invSY) (Matrix4.te5 m * invSY)
      (Matrix4.te6 m * invSY) (Matrix4.te7 m)
      (Matrix4.te8 m * invSZ) (Matrix4.te9 m * invSZ)
      (Matrix4.te10 m * invSZ) (Matrix4.te11 m)
      (Matrix4.te12 m) (Matrix4.te13 m) (Matrix4.te14 m) (Matrix4.te15 m) in
  (Vector3_setFromMatrixPosition m,
   Quaternion_setFromRotationMatrix m1,
   Vector3.mk sx sy sz).

(** Definedness.  Over the reals the division and the square root are
    total functions (1 / 0 = 0, and the square root of a negative number
    is 0), where the code computes an infinity or NaN.  The two
    predicates below say that [Quaternion.setFromRotationMatrix] and
    [Matrix4.decompose] meet no such operation on [m]: in the branch
    taken the number under the square root, by which the branch then
    divides, is positive, and none of the three column lengths by which
    [decompose] divides is zero.  The other operations on the update
    path are defined on all reals: [Vector3.normalize] divides by
    [length() || 1], [Vector3.length] takes the root of a sum of squares,
    [Euler.setFromRotationMatrix] clamps the argument of [Math.asin], and
    [Math.atan2], [Math.sin] and [Math.cos] are defined everywhere. *)
Definition Quaternion_setFromRotationMatrix_defined (m : Matrix4.t)
    : Prop :=
  let m11 := Matrix4.te0 m in
  let m22 := Matrix4.te5 m in
  let m33 := Matrix4.te10 m in
  let trace := m11 + m22 + m33 in
  if decide (0 < trace) then 0 < trace + 1
  else if decide (m22 < m11 /\ m33 < m11) then 0 < 1 + m11 - m22 - m33
  else if decide (m33 < m22) then 0 < 1 + m22 - m11 - m33
  else 0 < 1 + m33 - m11 - m22.

(** The matrix [_m1] of [Matrix4.decompose]: [m] with its three axis
    columns divided by the scales. *)
Definition Matrix4_unscaled (m : Matrix4.t) : Matrix4.t :=
  let sx0 := Vector3.length
               (Vector3.mk (Matrix4.te0 m) (Matrix4.te1 m) (Matrix4.te2 m)) in
  let sy := Vector3.length
              (Vector3.mk (Matrix4.te4 m) (Matrix4.te5 m) (Matrix4.te6 m)) in
  let sz := Vector3.length
              (Vector3.mk (Matrix4.te8 m) (Matrix4.te9 m) (Matrix4.te10 m)) in
  let det := Matrix4.determinant m in
  let sx := if decide (det < 0) then - sx0 else sx0 in
  let invSX := 1 / sx in
  let invSY := 1 / sy in
  let invSZ := 1 / sz in
  Matrix4.mk
    (Matrix4.te0 m * invSX) (Matrix4.te1 m * invSX)
    (Matrix4.te2 m * invSX) (Matrix4.te3 m)
    (Matrix4.te4 m * invSY) (Matrix4.te5 m * invSY)
    (Matrix4.te6 m * invSY) (Matrix4.te7 m)
    (Matrix4.te8 m * invSZ) (Matrix4.te9 m * invSZ)
    (Matrix4.te10 m * invSZ) (Matrix4.te11 m)
    (Matrix4.te12 m) (Matrix4.te13 m) (Matrix4.te14 m) (Matrix4.te15 m).

Definition Matrix4_decompose_defined (m : Matrix4.t) : Prop :=
  let scale := (Matrix4_decompose m).2 in
  Vector3.x scale <> 0 /\ Vector3.y scale <> 0 /\ Vector3.z scale <> 0
  /\ Quaternion_setFromRotationMatrix_defined (Matrix4_unscaled m).

Module Object3D.

(** The fields of an [Object3D] that the update path touches.  The
    object has no parent, and [matrixAutoUpdate] and
    [matrixWorldAutoUpdate] keep their default, [true]. *)
Record t : Type := mk {
  position : Vector3.t;
  rotation : Euler.t;
  quaternion : Quaternion.t;
  scale : Vector3.t;
  up : Vector3.t;
  matrix : Matrix4.t;
  matrixWorld : Matrix4.t }.

(** [new THREE.Object3D()] *)
Definition new : t :=
  mk (Vector3.mk 0 0 0) Euler.zero Quaternion.identity
     (Vector3.mk 1 1 1) (Vector3.mk 0 1 0)
     Matrix4.identity Matrix4.identity.

Definition set_position (o : t) (p : Vector3.t) : t :=
  mk p (rotation o) (quaternion o) (scale o) (up o)
     (matrix o) (matrixWorld o).

Definition set_scale (o : t) (s : Vector3.t) : t :=
  mk (position o) (rotation o) (quaternion o) s (up o)
     (matrix o) (matrixWorld o).

Definition set_matrix (o : t) (m : Matrix4.t) : t :=
  mk (position o) (rotation o) (quaternion o) (scale o) (up o)
     m (matrixWorld o).

(** Writing the quaternion runs [onQuaternionChange], which
    recomputes the Euler angles from it. *)
Definition set_quaternion (o : t) (q : Quaternion.t) : t :=
  mk (position o) (Euler_setFromQuaternion q) q (scale o) (up o)
     (matrix o) (matrixWorld o).

(** Writing an Euler angle runs [onRotationChange], which recomputes
    the quaternion from the angles. *)
Definition set_rotation (o : t) (e : Euler.t) : t :=
  mk (position o) e (Quaternion_setFromEuler e) (scale o) (up o)
     (matrix o) (matrixWorld o).

Definition set_rotation_x (o : t) (v : R) : t :=
  set_rotation o (Euler.mk v (Euler.y (rotation o)) (Euler.z (rotation o))).

Definition set_rotation_y (o : t) (v : R) : t :=
  set_rotation o (Euler.mk (Euler.x (rotation o)) v (Euler.z (rotation o))).

Definition updateMatrix (o : t) : t :=
  set_matrix o (Matrix4.compose (position o) (quaternion o) (scale o)).

(** [updateWorldMatrix(true, false)] on an object without parent. *)
Definition updateWorldMatrix (o : t) : t :=
  let o' := updateMatrix o in
  mk (position o') (rotation o') (quaternion o') (scale o') (up o')
     (matrix o') (matrix o').

(** [this.matrix.decompose(this.position, this.quaternion, this.scale)] *)
Definition decompose_matrix (o : t) : t :=
  let '(p, q, s) := Matrix4_decompose (matrix o) in
  set_scale (set_quaternion (set_position o p) q) s.

(** [lookAt(x, y, z)] for an object that is neither camera nor light
    and has no parent. *)
Definition lookAt (o : t) (x y z : R) : t :=
  let target := Vector3.mk x y z in
  let o' := updateWorldMatrix o in
  let pos := Vector3_setFromMatrixPosition (matrixWorld o') in
  let m1 := Matrix4.lookAt Matrix4.identity target pos (up o') in
  set_quaternion o' (Quaternion_setFromRotationMatrix m1).

End Object3D.

Module InstancedMesh.

(** [instanceMatrix] holds one matrix per instance; [version] counts
    the times [instanceMatrix.needsUpdate] was set.  [instanceColor]
    is [null] until the first [setColorAt]. *)
Record t : Type := mk {
  instanceMatrix : list Matrix4.t;
  instanceMatrix_version : nat;
  instanceColor : option (list string) }.

(** [new InstancedMesh(geometry, material, count)]: every instance
    starts at the identity. *)
Definition new (count : nat) : t :=
  mk (replicate count Matrix4.identity) 0 None.

Definition getMatrixAt (mesh : t) (i : nat) : option Matrix4.t :=
  instanceMatrix mesh !! i.

Definition setMatrixAt (mesh : t) (i : nat) (m : Matrix4.t) : t :=
  mk (<[i := m]> (instanceMatrix mesh)) (instanceMatrix_version mesh)
     (instanceColor mesh).

Definition set_instanceMatrix_needsUpdate (mesh : t) : t :=
  mk (instanceMatrix mesh) (S (instanceMatrix_version mesh))
     (instanceColor mesh).

End InstancedMesh.

End Three.

Import Three.

(** ** The mode *)

(** Modelled from the spec: [TreeMode] is declared in [../types], which
    is not among the sources; the mode is a two-valued signal, scattered
    ([CHAOS]) or [FORMED]. *)
Inductive TreeMode : Type := CHAOS | FORMED.

Definition TreeMode_eqb (a b : TreeMode) : bool :=
  match a, b with
  | CHAOS, CHAOS | FORMED, FORMED => true
  | _, _ => false
  end.

(** ** Ornaments (src/components/Ornaments.tsx) *)

Inductive OrnamentType : Type := ball | gift | light.

#[global] Instance OrnamentType_eq_dec : EqDecision OrnamentType.
Proof. solve_decision. Defined.

Record InstanceData : Type := mkInstanceData {
  chaosPos : Vector3.t;
  targetPos : Vector3.t;
  type : OrnamentType;
  color : option string;
  scale : R;
  speed : R;
  rotationOffset : Euler.t }.

Module Ornaments.

Definition height : R := 11.
Definition maxRadius : R := 4.5.

Definition iceBlue : string := "#4B9CD3".
Definition cyanBlue : string := "#0ea5e9".
Definition crystalWhite : string := "#f0f9ff".
Definition silver : string := "#e2e8f0".
Definition palette : list string := [iceBlue; cyanBlue; crystalWhite; silver].

(** Lines 47-50: the category of a draw [rnd]. *)
Definition classify (rnd : R) : OrnamentType :=
  let type := ball in
  let type := if decide (0.8 < rnd) then gift else type in
  let type := if decide (0.9 < rnd) then light else type in
  type.

Record Data : Type := mkData {
  ballsData : list InstanceData;
  giftsData : list InstanceData;
  lightsData : list InstanceData }.

(** Lines 89-91: the three [push]es. *)
Definition push (acc : Data) (data : InstanceData) : Data :=
  match type data with
  | ball => mkData (ballsData acc ++ [data]) (giftsData acc) (lightsData acc)
  | gift => mkData (ballsData acc) (giftsData acc ++ [data]) (lightsData acc)
  | light => mkData (ballsData acc) (giftsData acc) (lightsData acc ++ [data])
  end.

(** Lines 47-87: one instance, drawing from [Math.random] in program
    order. *)
Definition makeInstance : Rand InstanceData :=
  rnd ← Math_random;
  let type := classify rnd in
  u ← Math_random;
  let yNorm := JsMath.pow u 2.5 in
  let y := yNorm * height + 0.5 in
  let rScale := 1 - yNorm in
  u ← Math_random;
  let theta := y * 10 + u * JsMath.PI * 2 in
  u ← Math_random;
  let r := maxRadius * rScale + u * 0.5 in
  let targetPos :=
    Vector3.mk (r * JsMath.cos theta) y (r * JsMath.sin theta) in
  u ← Math_random;
  let cR := 15 + u * 15 in
  u ← Math_random;
  let cTheta := u * JsMath.PI * 2 in
  u ← Math_random;
  let cPhi := JsMath.acos (2 * u - 1) in
  let chaosPos :=
    Vector3.mk (cR * JsMath.sin cPhi * JsMath.cos cTheta)
               (cR * JsMath.sin cPhi * JsMath.sin cTheta + 5)
               (cR * JsMath.cos cPhi) in
  scale ← (if decide (type = light) then mret 0.15
           else u ← Math_random; mret (0.2 + u * 0.25));
  color ← (if decide (type = light) then mret (Some "#e0f2fe"%string)
           else u ← Math_random;
                mret (palette !! Z.to_nat (JsMath.floor (u * INR (length palette)))));
  u ← Math_random;
  let speed := 0.5 + u * 1.5 in
  rx ← Math_random;
  ry ← Math_random;
  mret (mkInstanceData chaosPos targetPos type color scale speed
          (Euler.mk (rx * JsMath.PI) (ry * JsMath.PI) 0)).

(** Lines 46-92: the loop, with [n] iterations to go. *)
Fixpoint generate_loop (n : nat) (acc : Data) : Rand Data :=
  match n with
  | O => mret acc
  | S n' => data ← makeInstance; generate_loop n' (push acc data)
  end.

(** Lines 30-95: the memoised data for [count] instances. *)
Definition generate (count : nat) : Rand Data :=
  generate_loop count (mkData [] [] []).

(** Lines 121-146: the body of [data.forEach] for one instance whose
    current matrix is [m]; [dummy] is the scratch object shared by all
    instances, and the matrix written back is [Object3D.matrix] of the
    result. *)
Definition updateInstance (isFormed : bool) (time delta : R)
    (d : InstanceData) (m : Matrix4.t) (dummy : Object3D.t)
    : Object3D.t :=
  let dest := if isFormed then targetPos d else chaosPos d in
  let dummy := Object3D.set_matrix dummy m in
  let dummy := Object3D.decompose_matrix dummy in
  let step := delta * speed d in
  let dummy :=
    Object3D.set_position dummy
      (Vector3.lerp (Object3D.position dummy) dest step) in
  let dummy :=
    if isFormed
       && bool_decide
            (Vector3.distanceTo (Object3D.position dummy) (targetPos d)
             < 0.5)
    then
      let p := Object3D.position dummy in
      Object3D.set_position dummy
        (Vector3.mk (Vector3.x p)
           (Vector3.y p
            + JsMath.sin (time * 2 + Vector3.x (chaosPos d)) * 0.002)
           (Vector3.z p))
    else dummy in
  let dummy :=
    if decide (type d = gift) then
      let dummy :=
        Object3D.set_rotation_x dummy
          (Euler.x (Object3D.rotation dummy) + delta * 0.5) in
      Object3D.set_rotation_y dummy
        (Euler.y (Object3D.rotation dummy) + delta * 0.2)
    else
      Object3D.lookAt dummy 0 (Vector3.y (Object3D.position dummy)) 0 in
  let dummy := Object3D.set_scale dummy (Vector3.setScalar (scale d)) in
  let dummy :=
    if decide (type d = light) then
      let pulse :=
        1 + JsMath.sin (time * 5 + Vector3.y (chaosPos d)) * 0.3 in
      Object3D.set_scale dummy
        (Vector3.multiplyScalar (Object3D.scale dummy) pulse)
    else dummy in
  Object3D.updateMatrix dummy.

(** Lines 120-148: [data.forEach], from index [i] on.  The mesh is
    created with [data.length] instances, so every index read is in
    range.  A read past the end would yield undefined elements: the code
    goes on with them, leaves NaN in the scratch object, writes nothing
    (a write past the end of a typed array is ignored) and sets
    [needsUpdate]; the model does not represent NaN and passes the
    iteration over, so that it agrees with the code only on data that
    fits the mesh. *)
Fixpoint forEach_from (isFormed : bool) (time delta : R) (i : nat)
    (data : list InstanceData)
    (st : InstancedMesh.t * Object3D.t * bool)
    : InstancedMesh.t * Object3D.t * bool :=
  match data with
  | [] => st
  | d :: rest =>
      let '(mesh, dummy, needsUpdate) := st in
      let st' :=
        match InstancedMesh.getMatrixAt mesh i with
        | Some m =>
            let dummy' := updateInstance isFormed time delta d m dummy in
            (InstancedMesh.setMatrixAt mesh i (Object3D.matrix dummy'),
             dummy', true)
        | None => st
        end in
      forEach_from isFormed time delta (S i) rest st'
  end.

(** Lines 116-151: [updateMesh(ref, data)]; [ref] is [ref.current]. *)
Definition updateMesh (isFormed : bool) (time delta : R)
    (ref : option InstancedMesh.t) (data : list InstanceData)
    (dummy : Object3D.t) : option InstancedMesh.t * Object3D.t :=
  match ref with
  | None => (None, dummy)
  | Some mesh =>
      let '(mesh', dummy', needsUpdate) :=
        forEach_from isFormed time delta 0 data (mesh, dummy, false) in
      (Some (if needsUpdate
             then InstancedMesh.set_instanceMatrix_needsUpdate mesh'
             else mesh'),
       dummy')
  end.

(** The mutable state of the component: the three mesh references and
    the shared scratch object. *)
Record State : Type := mkState {
  ballsRef : option InstancedMesh.t;
  giftsRef : option InstancedMesh.t;
  lightsRef : option InstancedMesh.t;
  dummy : Object3D.t }.

(** Lines 112-156: the [useFrame] callback. *)
Definition useFrame (mode : TreeMode) (data : Data) (time delta : R)
    (st : State) : State :=
  let isFormed := TreeMode_eqb mode FORMED in
  let '(b, dm) :=
    updateMesh isFormed time delta (ballsRef st) (ballsData data)
      (dummy st) in
  let '(g, dm) :=
    updateMesh isFormed time delta (giftsRef st) (giftsData data) dm in
  let '(l, dm) :=
    updateMesh isFormed time delta (lightsRef st) (lightsData data) dm in
  mkState b g l dm.

End Ornaments.

(** ** Foliage (src/unnamed/part_000) *)

Module Foliage.

Definition goldenRatio : R := (1 + JsMath.sqrt 5) / 2.
Definition height : R := 12.
Definition maxRadius : R := 5.

Record Arrays : Type := mkArrays {
  chaosPositions : list R;
  targetPositions : list R;
  randoms : list R }.

(** Lines 88-102: the loop body for index [i]. *)
Definition fill (count i : nat) (a : Arrays) : Rand Arrays :=
  u ← Math_random;
  let r := 25 * JsMath.cbrt u in
  u ← Math_random;
  let theta := u * 2 * JsMath.PI in
  u ← Math_random;
  let phi := JsMath.acos (2 * u - 1) in
  let chaos := chaosPositions a in
  let chaos := <[(i * 3)%nat := r * JsMath.sin phi * JsMath.cos theta]> chaos in
  let chaos :=
    <[(i * 3 + 1)%nat := r * JsMath.sin phi * JsMath.sin theta + 5]> chaos in
  let chaos := <[(i * 3 + 2)%nat := r * JsMath.cos phi]> chaos in
  let yNorm := INR i / INR count in
  let y := yNorm * height in
  let currentRadius := maxRadius * (1 - yNorm) in
  let angle := 2 * JsMath.PI * goldenRatio * INR i in
  let target := targetPositions a in
  let target := <[(i * 3)%nat := JsMath.cos angle * currentRadius]> target in
  let target := <[(i * 3 + 1)%nat := y]> target in
  let target := <[(i * 3 + 2)%nat := JsMath.sin angle * currentRadius]> target in
  u ← Math_random;
  mret (mkArrays chaos target (<[i := u]> (randoms a))).

(** Lines 87-103: the loop from index [i], with [n] iterations to go. *)
Fixpoint generate_loop (count n i : nat) (a : Arrays) : Rand Arrays :=
  match n with
  | O => mret a
  | S n' => a' ← fill count i a; generate_loop count n' (S i) a'
  end.

(** Lines 79-105: the three typed arrays, zero-filled at allocation. *)
Definition generate (count : nat) : Rand Arrays :=
  generate_loop count count 0
    (mkArrays (replicate (count * 3) 0) (replicate (count * 3) 0)
              (replicate count 0)).

(** The [i]-th point of a flat array of triples. *)
Definition point (arr : list R) (i : nat) : option Vector3.t :=
  match arr !! (i * 3)%nat, arr !! (i * 3 + 1)%nat, arr !! (i * 3 + 2)%nat with
  | Some x, Some y, Some z => Some (Vector3.mk x y z)
  | _, _, _ => None
  end.

(** The mutable state of the component: [progressRef.current] and the
    two uniforms of the material. *)
Record State : Type := mkState {
  progressRef : R;
  uTime : R;
  uProgress : R }.

Definition initial : State := mkState 0 0 0.

(** Lines 112-120: the [useFrame] callback; [meshRef] tells whether
    [meshRef.current] is set. *)
Definition useFrame (mode : TreeMode) (meshRef : bool)
    (elapsedTime delta : R) (st : State) : State :=
  if meshRef then
    let target := if TreeMode_eqb mode FORMED then 1 else 0 in
    let progress := MathUtils.lerp (progressRef st) target (delta * 1.5) in
    mkState progress elapsedTime progress
  else st.

End Foliage.

(** ** The shaders of the foliage (src/unnamed/part_000, lines 11-73)

    GLSL floats are modelled by exact reals, like JavaScript numbers. *)

Module Glsl.

Definition clamp (x minVal maxVal : R) : R := Rmin (Rmax x minVal) maxVal.

Definition mix (x y a : R) : R := x * (1 - a) + y * a.

Definition mix3 (x y : Vector3.t) (a : R) : Vector3.t :=
  Vector3.mk (mix (Vector3.x x) (Vector3.x y) a)
             (mix (Vector3.y x) (Vector3.y y) a)
             (mix (Vector3.z x) (Vector3.z y) a).

(** [pow(x, y)], which GLSL defines for [x > 0] and for [x = 0] with
    [y > 0]; a negative base, left undefined by GLSL, gives 0 here. *)
Definition pow (x y : R) : R := if decide (0 < x) then Rpower x y else 0.

Record vec2 : Type := mkVec2 { x2 : R; y2 : R }.

Record vec4 : Type := mkVec4 { x4 : R; y4 : R; z4 : R; w4 : R }.

Definition distance2 (a b : vec2) : R :=
  JsMath.sqrt ((x2 a - x2 b) * (x2 a - x2 b) + (y2 a - y2 b) * (y2 a - y2 b)).

(** [m * v] for a [mat4] stored column by column. *)
Definition mulMat4 (m : Matrix4.t) (v : vec4) : vec4 :=
  mkVec4
    (Matrix4.te0 m * x4 v + Matrix4.te4 m * y4 v + Matrix4.te8 m * z4 v
     + Matrix4.te12 m * w4 v)
    (Matrix4.te1 m * x4 v + Matrix4.te5 m * y4 v + Matrix4.te9 m * z4 v
     + Matrix4.te13 m * w4 v)
    (Matrix4.te2 m * x4 v + Matrix4.te6 m * y4 v + Matrix4.te10 m * z4 v
     + Matrix4.te14 m * w4 v)
    (Matrix4.te3 m * x4 v + Matrix4.te7 m * y4 v + Matrix4.te11 m * z4 v
     + Matrix4.te15 m * w4 v).

End Glsl.

Module FoliageShader.

(** Lines 22-26. *)
Definition cubicInOut (t : R) : R :=
  if decide (t < 0.5) then 4 * t * t * t
  else 1 - Glsl.pow (-2 * t + 2) 3 / 2.

Definition iceDeep : Vector3.t := Vector3.mk 0.05 0.3 0.8.
Definition iceLight : Vector3.t := Vector3.mk 0.6 0.9 1.
Definition iceWhite : Vector3.t := Vector3.mk 0.95 0.98 1.

(** What the vertex stage computes for one point; [newPos] is the local
    variable of that name at the end of [main]. *)
Record VertexOut : Type := mkVertexOut {
  newPos : Vector3.t;
  gl_PointSize : R;
  gl_Position : Glsl.vec4;
  vColor : Vector3.t;
  vAlpha : R }.

(** Line 29. *)
Definition localProgress (uProgress aRandom : R) : R :=
  Glsl.clamp (uProgress * 1.2 - aRandom * 0.2) 0 1.

(** Lines 28-59: [main] of the vertex shader. *)
Definition vertexMain (uTime uProgress : R)
    (modelViewMatrix projectionMatrix : Matrix4.t)
    (aChaosPos aTargetPos : Vector3.t) (aRandom : R) : VertexOut :=
  let easedProgress := cubicInOut (localProgress uProgress aRandom) in
  let newPos := Glsl.mix3 aChaosPos aTargetPos easedProgress in
  let newPos :=
    if decide (0.9 < easedProgress) then
      let x' := Vector3.x newPos
                + JsMath.sin (uTime * 2 + Vector3.y newPos) * 0.05 in
      let z' := Vector3.z newPos
                + JsMath.cos (uTime * 1.5 + Vector3.y newPos) * 0.05 in
      Vector3.mk x' (Vector3.y newPos) z'
    else newPos in
  let mvPosition :=
    Glsl.mulMat4 modelViewMatrix
      (Glsl.mkVec4 (Vector3.x newPos) (Vector3.y newPos) (Vector3.z newPos) 1) in
  let pointSize := (4 * aRandom + 2) * (20 / - Glsl.z4 mvPosition) in
  let position := Glsl.mulMat4 projectionMatrix mvPosition in
  let sparkle := JsMath.sin (uTime * 5 + aRandom * 100) in
  let color := Glsl.mix3 iceDeep iceLight easedProgress in
  let color :=
    if decide (0.85 < sparkle) then Glsl.mix3 color iceWhite 0.7 else color in
  mkVertexOut newPos pointSize position color 1.

(** Lines 66-72: [main] of the fragment shader; [None] is [discard], and
    the result is the rgb and the alpha of [gl_FragColor]. *)
Definition fragmentMain (gl_PointCoord : Glsl.vec2) (vColor : Vector3.t)
    (vAlpha : R) : option (Vector3.t * R) :=
  let r := Glsl.distance2 gl_PointCoord (Glsl.mkVec2 0.5 0.5) in
  if decide (0.5 < r) then None
  else
    let glow := 1 - r * 2 in
    let glow := Glsl.pow glow 1.5 in
    Some (vColor, vAlpha * glow).

End FoliageShader.

(** ** Ornaments: mounting and the layout effect *)

(** [InstancedMesh.setColorAt]: the colour attribute is created, filled
    with white, on first use; a write past the end of the typed array is
    ignored. *)
Definition InstancedMesh_setColorAt (mesh : InstancedMesh.t) (i : nat)
    (c : string) : InstancedMesh.t :=
  let colors :=
    match InstancedMesh.instanceColor mesh with
    | Some cs => cs
    | None =>
        replicate (length (InstancedMesh.instanceMatrix mesh)) "#ffffff"%string
    end in
  InstancedMesh.mk (InstancedMesh.instanceMatrix mesh)
    (InstancedMesh.instanceMatrix_version mesh)
    (Some (<[i := c]> colors)).

(** The first statement of [setColorAt] on its own: it creates the
    colour attribute, filled with white, when there is none yet.  A call
    with an undefined colour gets this far and then throws, reading the
    components of the colour. *)
Definition InstancedMesh_createColor (mesh : InstancedMesh.t)
    : InstancedMesh.t :=
  match InstancedMesh.instanceColor mesh with
  | Some _ => mesh
  | None =>
      InstancedMesh.mk (InstancedMesh.instanceMatrix mesh)
        (InstancedMesh.instanceMatrix_version mesh)
        (Some (replicate (length (InstancedMesh.instanceMatrix mesh))
                 "#ffffff"%string))
  end.

Module OrnamentsMount.

(** Lines 161-189: the three meshes are created with as many instances
    as their data has entries (line 28 creates the scratch object). *)
Definition mount (data : Ornaments.Data) : Ornaments.State :=
  Ornaments.mkState
    (Some (InstancedMesh.new (length (Ornaments.ballsData data))))
    (Some (InstancedMesh.new (length (Ornaments.giftsData data))))
    (Some (InstancedMesh.new (length (Ornaments.lightsData data))))
    Object3D.new.

(** An effect either completes or throws a [TypeError]; what it wrote
    before throwing stays written. *)
Inductive Completion : Type := Completed | TypeError.

(** Lines 104-106: [data.forEach], from index [i] on; with an undefined
    colour [setColorAt] throws after it has created the colour
    attribute. *)
Fixpoint setColors_from (i : nat) (data : list InstanceData)
    (mesh : InstancedMesh.t) : InstancedMesh.t * Completion :=
  match data with
  | [] => (mesh, Completed)
  | d :: rest =>
      match color d with
      | Some c => setColors_from (S i) rest (InstancedMesh_setColorAt mesh i c)
      | None => (InstancedMesh_createColor mesh, TypeError)
      end
  end.

(** Lines 103-108: the body of the outer [forEach] for one mesh.  The
    flag [needsUpdate] of the colour attribute is not represented;
    setting it throws when the attribute is still [null]. *)
Definition colorMesh (ref : option InstancedMesh.t)
    (data : list InstanceData) : option InstancedMesh.t * Completion :=
  match ref with
  | None => (None, Completed)
  | Some mesh =>
      match setColors_from 0 data mesh with
      | (mesh', TypeError) => (Some mesh', TypeError)
      | (mesh', Completed) =>
          match InstancedMesh.instanceColor mesh' with
          | Some _ => (Some mesh', Completed)
          | None => (Some mesh', TypeError)
          end
      end
  end.

(** Lines 97-110: the layout effect; a throw ends it at once. *)
Definition useLayoutEffect (data : Ornaments.Data) (st : Ornaments.State)
    : Ornaments.State * Completion :=
  match colorMesh (Ornaments.ballsRef st) (Ornaments.ballsData data) with
  | (b, TypeError) =>
      (Ornaments.mkState b (Ornaments.giftsRef st) (Ornaments.lightsRef st)
         (Ornaments.dummy st), TypeError)
  | (b, Completed) =>
      match colorMesh (Ornaments.giftsRef st) (Ornaments.giftsData data) with
      | (g, TypeError) =>
          (Ornaments.mkState b g (Ornaments.lightsRef st) (Ornaments.dummy st),
           TypeError)
      | (g, Completed) =>
          match colorMesh (Ornaments.lightsRef st) (Ornaments.lightsData data)
          with
          | (l, c) => (Ornaments.mkState b g l (Ornaments.dummy st), c)
          end
      end
  end.

(** A run of the component after mounting: per frame the mode, the
    elapsed time and delta. *)
Record Render : Type := mkRender {
  mode : TreeMode;
  elapsedTime : R;
  delta : R }.

Definition render (data : Ornaments.Data) (st : Ornaments.State) (f : Render)
    : Ornaments.State :=
  Ornaments.useFrame (mode f) data (elapsedTime f) (delta f) st.

Definition renders (data : Ornaments.Data) (frames : list Render)
    (st : Ornaments.State) : Ornaments.State :=
  fold_left (render data) frames st.

End OrnamentsMount.

(** ** The per-instance update in IEEE 754 binary64

    JavaScript numbers are binary64 floating-point numbers.  This module
    writes lines 121-146 of Ornaments.tsx and the three.js methods they
    reach a second time, over the primitive floating-point numbers of
    the kernel instead of the reals, operation by operation in the order
    of the code, so that an overflow to an infinity and NaN show.
    [Math.sqrt] and [Math.abs] are the IEEE 754 operations.  [Math.sin],
    [Math.cos], [Math.asin] and [Math.atan2], which ECMAScript leaves to
    the implementation, are parameters.  The matrices are the binary64
    ones of the scratch object, before [setMatrixAt] stores them as
    float32. *)

Module Binary64.

Import PrimFloat.

#[local] Set Warnings "-inexact-float".

Local Open Scope float_scope.

(** The implementation-defined functions of [Math]. *)
Record Math : Type := mkMath {
  Math_sin : float -> float;
  Math_cos : float -> float;
  Math_asin : float -> float;
  Math_atan2 : float -> float -> float }.

(** [x || 1]: a number is falsy when it is 0, -0 or NaN. *)
Definition orOne (x : float) : float :=
  if is_zero x || is_nan x then 1 else x.

(** [Math.min] and [Math.max]: NaN when an argument is NaN, and -0 below
    +0. *)
Definition Math_min (a b : float) : float :=
  if is_nan a || is_nan b then nan
  else if a <? b then a
  else if b <? a then b
  else if get_sign a then a else b.

Definition Math_max (a b : float) : float :=
  if is_nan a || is_nan b then nan
  else if a <? b then b
  else if b <? a then a
  else if get_sign a then b else a.

Module MathUtils.

Definition clamp (value lo hi : float) : float :=
  Math_max lo (Math_min hi value).

End MathUtils.

Module Vector3.

Record t : Type := mk { x : float; y : float; z : float }.

Definition lengthSq (v : t) : float := x v * x v + y v * y v + z v * z v.

Definition length (v : t) : float := sqrt (lengthSq v).

Definition subVectors (a b : t) : t :=
  mk (x a - x b) (y a - y b) (z a - z b).

Definition crossVectors (a b : t) : t :=
  mk (y a * z b - z a * y b)
     (z a * x b - x a * z b)
     (x a * y b - y a * x b).

Definition multiplyScalar (v : t) (s : float) : t :=
  mk (x v * s) (y v * s) (z v * s).

Definition divideScalar (v : t) (s : float) : t := multiplyScalar v (1 / s).

Definition normalize (v : t) : t := divideScalar v (orOne (length v)).

Definition setScalar (s : float) : t := mk s s s.

Definition lerp (this v : t) (alpha : float) : t :=
  mk (x this + (x v - x this) * alpha)
     (y this + (y v - y this) * alpha)
     (z this + (z v - z this) * alpha).

Definition distanceToSquared (this v : t) : float :=
  let dx := x this - x v in
  let dy := y this - y v in
  let dz := z this - z v in
  dx * dx + dy * dy + dz * dz.

Definition distanceTo (this v : t) : float :=
  sqrt (distanceToSquared this v).

End Vector3.

Module Quaternion.

Record t : Type := mk { x : float; y : float; z : float; w : float }.

Definition identity : t := mk 0 0 0 1.

End Quaternion.

Module Euler.

Record t : Type := mk { x : float; y : float; z : float }.

Definition zero : t := mk 0 0 0.

End Euler.

Module Matrix4.

Record t : Type := mk {
  te0 : float; te1 : float; te2 : float; te3 : float;
  te4 : float; te5 : float; te6 : float; te7 : float;
  te8 : float; te9 : float; te10 : float; te11 : float;
  te12 : float; te13 : float; te14 : float; te15 : float }.

Definition identity : t :=
  mk 1 0 0 0  0 1 0 0  0 0 1 0  0 0 0 1.

Definition elements (m : t) : list float :=
  [te0 m; te1 m; te2 m; te3 m; te4 m; te5 m; te6 m; te7 m;
   te8 m; te9 m; te10 m; te11 m; te12 m; te13 m; te14 m; te15 m].

(** Every element is a finite number: neither an infinity nor NaN. *)
Definition finite (m : t) : bool := forallb is_finite (elements m).

Definition compose (position : Vector3.t) (quaternion : Quaternion.t)
    (scale : Vector3.t) : t :=
  let x := Quaternion.x quaternion in
  let y := Quaternion.y quaternion in
  let z := Quaternion.z quaternion in
  let w := Quaternion.w quaternion in
  let x2 := x + x in let y2 := y + y in let z2 := z + z in
  let xx := x * x2 in let xy := x * y2 in let xz := x * z2 in
  let yy := y * y2 in let yz := y * z2 in let zz := z * z2 in
  let wx := w * x2 in let wy := w * y2 in let wz := w * z2 in
  let sx := Vector3.x scale in
  let sy := Vector3.y scale in
  let sz := Vector3.z scale in
  mk ((1 - (yy + zz)) * sx) ((xy + wz) * sx) ((xz - wy) * sx) 0
     ((xy - wz) * sy) ((1 - (xx + zz)) * sy) ((yz + wx) * sy) 0
     ((xz + wy) * sz) ((yz - wx) * sz) ((1 - (xx + yy)) * sz) 0
     (Vector3.x position) (Vector3.y position) (Vector3.z position) 1.

Definition makeRotationFromQuaternion (q : Quaternion.t) : t :=
  compose (Vector3.mk 0 0 0) q (Vector3.mk 1 1 1).

Definition determinant (m : t) : float :=
  let n11 := te0 m in let n12 := te4 m in
  let n13 := te8 m in let n14 := te12 m in
  let n21 := te1 m in let n22 := te5 m in
  let n23 := te9 m in let n24 := te13 m in
  let n31 := te2 m in let n32 := te6 m in
  let n33 := te10 m in let n34 := te14 m in
  let n41 := te3 m in let n42 := te7 m in
  let n43 := te11 m in let n44 := te15 m in
  n41 * (n14 * n23 * n32 - n13 * n24 * n32 - n14 * n22 * n33
         + n12 * n24 * n33 + n13 * n22 * n34 - n12 * n23 * n34)
  + n42 * (n11 * n23 * n34 - n11 * n24 * n33 + n14 * n21 * n33
           - n13 * n21 * n34 + n13 * n24 * n31 - n14 * n23 * n31)
  + n43 * (n11 * n24 * n32 - n11 * n22 * n34 - n14 * n21 * n32
           + n12 * n21 * n34 + n14 * n22 * n31 - n12 * n24 * n31)
  + n44 * (- n13 * n22 * n31 - n11 * n23 * n32 + n11 * n22 * n33
           + n13 * n21 * n32 - n12 * n21 * n33 + n12 * n23 * n31).

Definition lookAt (this : t) (eye target up : Vector3.t) : t :=
  let z0 := Vector3.subVectors eye target in
  let z1 := if Vector3.lengthSq z0 =? 0
            then Vector3.mk (Vector3.x z0) (Vector3.y z0) 1 else z0 in
  let z2 := Vector3.normalize z1 in
  let x0 := Vector3.crossVectors up z2 in
  let '(z3, x1) :=
    if Vector3.lengthSq x0 =? 0 then
      let z' :=
        if abs (Vector3.z up) =? 1
        then Vector3.mk (Vector3.x z2 + 0.0001) (Vector3.y z2)
                        (Vector3.z z2)
        else Vector3.mk (Vector3.x z2) (Vector3.y z2)
                        (Vector3.z z2 + 0.0001) in
      let z'' := Vector3.normalize z' in
      (z'', Vector3.crossVectors up z'')
    else (z2, x0) in
  let x2 := Vector3.normalize x1 in
  let y0 := Vector3.crossVectors z3 x2 in
  mk (Vector3.x x2) (Vector3.y x2) (Vector3.z x2) (te3 this)
     (Vector3.x y0) (Vector3.y y0) (Vector3.z y0) (te7 this)
     (Vector3.x z3) (Vector3.y z3) (Vector3.z z3) (te11 this)
     (te12 this) (te13 this) (te14 this) (te15 this).

End Matrix4.

Definition Quaternion_setFromRotationMatrix (m : Matrix4.t)
    : Quaternion.t :=
  let m11 := Matrix4.te0 m in let m12 := Matrix4.te4 m in
  let m13 := Matrix4.te8 m in
  let m21 := Matrix4.te1 m in let m22 := Matrix4.te5 m in
  let m23 := Matrix4.te9 m in
  let m31 := Matrix4.te2 m in let m32 := Matrix4.te6 m in
  let m33 := Matrix4.te10 m in
  let trace := m11 + m22 + m33 in
  if 0 <? trace then
    let s := 0.5 / sqrt (trace + 1) in
    Quaternion.mk ((m32 - m23) * s) ((m13 - m31) * s) ((m21 - m12) * s)
                  (0.25 / s)
  else if (m22 <? m11) && (m33 <? m11) then
    let s := 2 * sqrt (1 + m11 - m22 - m33) in
    Quaternion.mk (0.25 * s) ((m12 + m21) / s) ((m13 + m31) / s)
                  ((m32 - m23) / s)
  else if m33 <? m22 then
    let s := 2 * sqrt (1 + m22 - m11 - m33) in
    Quaternion.mk ((m12 + m21) / s) (0.25 * s) ((m23 + m32) / s)
                  ((m13 - m31) / s)
  else
    let s := 2 * sqrt (1 + m33 - m11 - m22) in
    Quaternion.mk ((m13 + m31) / s) ((m23 + m32) / s) (0.25 * s)
                  ((m21 - m12) / s).

Definition Vector3_setFromMatrixPosition (m : Matrix4.t) : Vector3.t :=
  Vector3.mk (Matrix4.te12 m) (Matrix4.te13 m) (Matrix4.te14 m).

(** The fields of [InstanceData] that the update reads. *)
Module InstanceData.

Record t : Type := mk {
  chaosPos : Vector3.t;
  targetPos : Vector3.t;
  type : OrnamentType;
  scale : float;
  speed : float }.

End InstanceData.

Section WithMath.

Variable M : Math.

Definition Quaternion_setFromEuler (e : Euler.t) : Quaternion.t :=
  let c1 := Math_cos M (Euler.x e / 2) in
  let c2 := Math_cos M (Euler.y e / 2) in
  let c3 := Math_cos M (Euler.z e / 2) in
  let s1 := Math_sin M (Euler.x e / 2) in
  let s2 := Math_sin M (Euler.y e / 2) in
  let s3 := Math_sin M (Euler.z e / 2) in
  Quaternion.mk (s1 * c2 * c3 + c1 * s2 * s3)
                (c1 * s2 * c3 - s1 * c2 * s3)
                (c1 * c2 * s3 + s1 * s2 * c3)
                (c1 * c2 * c3 - s1 * s2 * s3).

Definition Euler_setFromRotationMatrix (m : Matrix4.t) : Euler.t :=
  let m11 := Matrix4.te0 m in let m12 := Matrix4.te4 m in
  let m13 := Matrix4.te8 m in
  let m22 := Matrix4.te5 m in let m23 := Matrix4.te9 m in
  let m32 := Matrix4.te6 m in let m33 := Matrix4.te10 m in
  let ey := Math_asin M (MathUtils.clamp m13 (-1) 1) in
  if abs m13 <? 0.9999999 then
    Euler.mk (Math_atan2 M (- m23) m33) ey (Math_atan2 M (- m12) m11)
  else
    Euler.mk (Math_atan2 M m32 m22) ey 0.

Definition Euler_setFromQuaternion (q : Quaternion.t) : Euler.t :=
  Euler_setFromRotationMatrix (Matrix4.makeRotationFromQuaternion q).

Definition Matrix4_decompose (m : Matrix4.t)
    : Vector3.t * Quaternion.t * Vector3.t :=
  let sx0 := Vector3.length
               (Vector3.mk (Matrix4.te0 m) (Matrix4.te1 m) (Matrix4.te2 m)) in
  let sy := Vector3.length
              (Vector3.mk (Matrix4.te4 m) (Matrix4.te5 m) (Matrix4.te6 m)) in
  let sz := Vector3.length
              (Vector3.mk (Matrix4.te8 m) (Matrix4.te9 m) (Matrix4.te10 m)) in
  let det := Matrix4.determinant m in
  let sx := if det <? 0 then - sx0 else sx0 in
  let invSX := 1 / sx in
  let invSY := 1 / sy in
  let invSZ := 1 / sz in
  let m1 :=
    Matrix4.mk
      (Matrix4.te0 m * invSX) (Matrix4.te1 m * invSX)
      (Matrix4.te2 m * invSX) (Matrix4.te3 m)
      (Matrix4.te4 m * invSY) (Matrix4.te5 m * invSY)
      (Matrix4.te6 m * invSY) (Matrix4.te7 m)
      (Matrix4.te8 m * invSZ) (Matrix4.te9 m * invSZ)
      (Matrix4.te10 m * invSZ) (Matrix4.te11 m)
      (Matrix4.te12 m) (Matrix4.te13 m) (Matrix4.te14 m) (Matrix4.te15 m) in
  (Vector3_setFromMatrixPosition m,
   Quaternion_setFromRotationMatrix m1,
   Vector3.mk sx sy sz).

Record Object3D : Type := mkObject3D {
  position : Vector3.t;
  rotation : Euler.t;
  quaternion : Quaternion.t;
  scale : Vector3.t;
  up : Vector3.t;
  matrix : Matrix4.t;
  matrixWorld : Matrix4.t }.

Definition Object3D_new : Object3D :=
  mkObject3D (Vector3.mk 0 0 0) Euler.zero Quaternion.identity
    (Vector3.mk 1 1 1) (Vector3.mk 0 1 0)
    Matrix4.identity Matrix4.identity.

Definition set_position (o : Object3D) (p : Vector3.t) : Object3D :=
  mkObject3D p (rotation o) (quaternion o) (scale o) (up o)
    (matrix o) (matrixWorld o).

Definition set_scale (o : Object3D) (s : Vector3.t) : Object3D :=
  mkObject3D (position o) (rotation o) (quaternion o) s (up o)
    (matrix o) (matrixWorld o).

Definition set_matrix (o : Object3D) (m : Matrix4.t) : Object3D :=
  mkObject3D (position o) (rotation o) (quaternion o) (scale o) (up o)
    m (matrixWorld o).

Definition set_quaternion (o : Object3D) (q : Quaternion.t) : Object3D :=
  mkObject3D (position o) (Euler_setFromQuaternion q) q (scale o) (up o)
    (matrix o) (matrixWorld o).

Definition set_rotation (o : Object3D) (e : Euler.t) : Object3D :=
  mkObject3D (position o) e (Quaternion_setFromEuler e) (scale o) (up o)
    (matrix o) (matrixWorld o).

Definition set_rotation_x (o : Object3D) (v : float) : Object3D :=
  set_rotation o (Euler.mk v (Euler.y (rotation o)) (Euler.z (rotation o))).

Definition set_rotation_y (o : Object3D) (v : float) : Object3D :=
  set_rotation o (Euler.mk (Euler.x (rotation o)) v (Euler.z (rotation o))).

Definition updateMatrix (o : Object3D) : Object3D :=
  set_matrix o (Matrix4.compose (position o) (quaternion o) (scale o)).

Definition updateWorldMatrix (o : Object3D) : Object3D :=
  let o' := updateMatrix o in
  mkObject3D (position o') (rotation o') (quaternion o') (scale o') (up o')
    (matrix o') (matrix o').

Definition decompose_matrix (o : Object3D) : Object3D :=
  let '(p, q, s) := Matrix4_decompose (matrix o) in
  set_scale (set_quaternion (set_position o p) q) s.

Definition lookAt (o : Object3D) (x y z : float) : Object3D :=
  let target := Vector3.mk x y z in
  let o' := updateWorldMatrix o in
  let pos := Vector3_setFromMatrixPosition (matrixWorld o') in
  let m1 := Matrix4.lookAt Matrix4.identity target pos (up o') in
  set_quaternion o' (Quaternion_setFromRotationMatrix m1).

(** Lines 121-146, as [Ornaments.updateInstance]. *)
Definition updateInstance (isFormed : bool) (time delta : float)
    (d : InstanceData.t) (m : Matrix4.t) (dummy : Object3D) : Object3D :=
  let dest :=
    if isFormed then InstanceData.targetPos d else InstanceData.chaosPos d in
  let dummy := set_matrix dummy m in
  let dummy := decompose_matrix dummy in
  let step := delta * InstanceData.speed d in
  let dummy :=
    set_position dummy (Vector3.lerp (position dummy) dest step) in
  let dummy :=
    if isFormed
       && (Vector3.distanceTo (position dummy) (InstanceData.targetPos d)
           <? 0.5)
    then
      let p := position dummy in
      set_position dummy
        (Vector3.mk (Vector3.x p)
           (Vector3.y p
            + Math_sin M (time * 2 + Vector3.x (InstanceData.chaosPos d))
              * 0.002)
           (Vector3.z p))
    else dummy in
  let dummy :=
    if decide (InstanceData.type d = gift) then
      let dummy :=
        set_rotation_x dummy (Euler.x (rotation dummy) + delta * 0.5) in
      set_rotation_y dummy (Euler.y (rotation dummy) + delta * 0.2)
    else
      lookAt dummy 0 (Vector3.y (position dummy)) 0 in
  let dummy := set_scale dummy (Vector3.setScalar (InstanceData.scale d)) in
  let dummy :=
    if decide (InstanceData.type d = light) then
      let pulse :=
        1 + Math_sin M (time * 5 + Vector3.y (InstanceData.chaosPos d))
            * 0.3 in
      set_scale dummy (Vector3.multiplyScalar (scale dummy) pulse)
    else dummy in
  updateMatrix dummy.

End WithMath.

(** A ball whose formed target is (4.5, 0.5, 0), as [Sample.aBall]. *)
Definition aBall : InstanceData.t :=
  InstanceData.mk (Vector3.mk 0 20 0) (Vector3.mk 4.5 0.5 0) ball 0.2 0.5.

(** The matrix written for that ball by the first frame after mounting,
    in formed mode at elapsed time 0, when the frame took 1e308
    seconds. *)
Definition afterHugeFrame (M : Math) : Matrix4.t :=
  matrix (updateInstance M true 0 1e308 aBall Matrix4.identity Object3D_new).

End Binary64.

(** * Vocabulary of the properties *)

(** ** The per-instance update, piece by piece *)

(** The destination selected by the mode (line 121). *)
Definition dest (isFormed : bool) (d : InstanceData) : Vector3.t :=
  if isFormed then targetPos d else chaosPos d.

(** The position after the interpolation step (line 126). *)
Definition lerped (isFormed : bool) (delta : R) (d : InstanceData)
    (p : Vector3.t) : Vector3.t :=
  Vector3.lerp p (dest isFormed d) (delta * speed d).

(** The condition of line 128, on the interpolated position. *)
Definition bobs (isFormed : bool) (d : InstanceData) (p : Vector3.t) : bool :=
  isFormed && bool_decide (Vector3.distanceTo p (targetPos d) < 0.5).

(** The idle offset of line 129. *)
Definition bob (time : R) (d : InstanceData) : R :=
  JsMath.sin (time * 2 + Vector3.x (chaosPos d)) * 0.002.

(** The position written back, from the position read. *)
Definition newPosition (isFormed : bool) (time delta : R) (d : InstanceData)
    (p : Vector3.t) : Vector3.t :=
  let q := lerped isFormed delta d p in
  if bobs isFormed d q
  then Vector3.mk (Vector3.x q) (Vector3.y q + bob time d) (Vector3.z q)
  else q.

(** The scale written back (lines 139-143). *)
Definition newScale (time : R) (d : InstanceData) : R :=
  if decide (type d = light)
  then scale d * (1 + JsMath.sin (time * 5 + Vector3.y (chaosPos d)) * 0.3)
  else scale d.

(** The Euler angles read back from the matrix of an instance. *)
Definition readRotation (m : Matrix4.t) : Euler.t :=
  Euler_setFromQuaternion (Matrix4_decompose m).1.2.

(** The two increments of lines 133-134. *)
Definition spun (delta : R) (e : Euler.t) : Euler.t :=
  Euler.mk (Euler.x e + delta * 0.5) (Euler.y e + delta * 0.2) (Euler.z e).

(** The orientation computed by [lookAt(0, p.y, 0)] for an object at
    position [p] with up vector [upv] (line 136). *)
Definition facing (upv p : Vector3.t) : Quaternion.t :=
  Quaternion_setFromRotationMatrix
    (Matrix4.lookAt Matrix4.identity (Vector3.mk 0 (Vector3.y p) 0) p upv).

(** A matrix with its position raised by [h] (element 13). *)
Definition lifted (M : Matrix4.t) (h : R) : Matrix4.t :=
  Matrix4.mk (Matrix4.te0 M) (Matrix4.te1 M) (Matrix4.te2 M) (Matrix4.te3 M)
    (Matrix4.te4 M) (Matrix4.te5 M) (Matrix4.te6 M) (Matrix4.te7 M)
    (Matrix4.te8 M) (Matrix4.te9 M) (Matrix4.te10 M) (Matrix4.te11 M)
    (Matrix4.te12 M) (Matrix4.te13 M + h) (Matrix4.te14 M) (Matrix4.te15 M).

(** The elements 8, 9 and 10 of a matrix: the direction of the object's
    local z axis in world space, which is the direction an object turned
    by [lookAt] faces, times the scale. *)
Definition forward (M : Matrix4.t) : Vector3.t :=
  Vector3.mk (Matrix4.te8 M) (Matrix4.te9 M) (Matrix4.te10 M).

(** ** Rotations *)

(** The rotation about the vertical axis whose forward (local z)
    direction is [(a, 0, b)]. *)
Definition yaw (a b : R) : Matrix4.t :=
  Matrix4.mk b 0 (- a) 0  0 1 0 0  a 0 b 0  0 0 0 1.

(** A quaternion of norm 1. *)
Definition unitq (q : Quaternion.t) : Prop :=
  Quaternion.x q * Quaternion.x q + Quaternion.y q * Quaternion.y q
  + Quaternion.z q * Quaternion.z q + Quaternion.w q * Quaternion.w q = 1.

Definition q_neg (q : Quaternion.t) : Quaternion.t :=
  Quaternion.mk (- Quaternion.x q) (- Quaternion.y q) (- Quaternion.z q)
                (- Quaternion.w q).

(** The rotation matrix of Euler angles, order XYZ. *)
Definition eulerMatrix (e : Euler.t) : Matrix4.t :=
  let a := cos (Euler.x e) in let b := sin (Euler.x e) in
  let c := cos (Euler.y e) in let d := sin (Euler.y e) in
  let e' := cos (Euler.z e) in let f := sin (Euler.z e) in
  Matrix4.mk (c * e') (a * f + b * e' * d) (b * f - a * e' * d) 0
             (- c * f) (a * e' - b * f * d) (b * e' + a * f * d) 0
             d (- b * c) (a * c) 0
             0 0 0 1.

(** Euler angles in the ranges of [Math.atan2] and [Math.asin], with
    z = 0 in the gimbal branch of [Euler.setFromRotationMatrix]. *)
Definition canonical (e : Euler.t) : Prop :=
  - PI < Euler.x e <= PI
  /\ - (PI / 2) <= Euler.y e <= PI / 2
  /\ - PI < Euler.z e <= PI
  /\ (Rabs (sin (Euler.y e)) < 0.9999999 \/ Euler.z e = 0).

(** ** The generators *)

(** The foliage chaos point computed from three draws (lines 88-93). *)
Definition chaosPoint (u1 u2 u3 : R) : Vector3.t :=
  let r := 25 * JsMath.cbrt u1 in
  let theta := u2 * 2 * JsMath.PI in
  let phi := JsMath.acos (2 * u3 - 1) in
  Vector3.mk (r * JsMath.sin phi * JsMath.cos theta)
             (r * JsMath.sin phi * JsMath.sin theta + 5)
             (r * JsMath.cos phi).

(** The foliage target point of index [i] (lines 95-101). *)
Definition targetPoint (count i : nat) : Vector3.t :=
  let yNorm := INR i / INR count in
  let currentRadius := Foliage.maxRadius * (1 - yNorm) in
  let angle := 2 * JsMath.PI * Foliage.goldenRatio * INR i in
  Vector3.mk (JsMath.cos angle * currentRadius) (yNorm * Foliage.height)
             (JsMath.sin angle * currentRadius).

(** The ranges of C8 for one ornament instance, and its category. *)
Definition in_range (ty : OrnamentType) (d : InstanceData) : Prop :=
  type d = ty
  /\ 15 <= Vector3.distanceTo (chaosPos d) (Vector3.mk 0 5 0) <= 30
  /\ 0.5 <= Vector3.y (targetPos d) <= Ornaments.height + 0.5
  /\ 0 < scale d.

Definition sorted (acc : Ornaments.Data) : Prop :=
  Forall (in_range ball) (Ornaments.ballsData acc)
  /\ Forall (in_range gift) (Ornaments.giftsData acc)
  /\ Forall (in_range light) (Ornaments.lightsData acc).

Definition total (acc : Ornaments.Data) : nat :=
  (length (Ornaments.ballsData acc) + length (Ornaments.giftsData acc)
   + length (Ornaments.lightsData acc))%nat.

(** [N] draws spread evenly over [0, 1): 0, 1/N, ..., (N-1)/N. *)
Definition evenDraws (N : nat) : list R :=
  (fun k : nat => INR k / INR N) <$> seq 0 N.

(** The number of draws of a list that fall in category [ty]. *)
Definition tally (ty : OrnamentType) (us : list R) : nat :=
  length (filter (fun u => Ornaments.classify u = ty) us).

(** The draws that decide the categories: the first draw of each of the
    [n] instances generated from draw number [k] on, an instance
    starting where the one before it stopped drawing. *)
Fixpoint categoryDraws (draws : nat -> R) (n k : nat) : list R :=
  match n with
  | O => []
  | S n' =>
      draws k :: categoryDraws draws n' (Ornaments.makeInstance draws k).2
  end.

(** A script of draws in which instance after instance takes its
    category draw from [us]: each of them is followed by the other draws
    of its instance, nine for a light and eleven otherwise, all 1/2. *)
Fixpoint script (us : list R) : list R :=
  match us with
  | [] => []
  | u :: rest =>
      u :: replicate (if decide (Ornaments.classify u = light)
                      then 9%nat else 11%nat) (1 / 2)
        ++ script rest
  end.

(** The stream of draws that plays a script and goes on with 1/2. *)
Definition replay (l : list R) : nat -> R :=
  fun n => default (1 / 2) (l !! n).

(** ** Concrete instances, frames and runs *)

Module Sample.

(** A ball and a gift whose formed target is (4.5, 0.5, 0). *)
Definition aBall : InstanceData :=
  mkInstanceData (Vector3.mk 0 20 0) (Vector3.mk 4.5 0.5 0) ball
    (Some Ornaments.iceBlue) 0.2 0.5 (Euler.mk 0 0 0).

Definition aGift : InstanceData :=
  mkInstanceData (Vector3.mk 0 20 0) (Vector3.mk 4.5 0.5 0) gift
    (Some Ornaments.silver) 0.2 0.5 (Euler.mk 0 0 0).

(** The matrix of an unrotated instance that sits on that target. *)
Definition onTarget : Matrix4.t :=
  Matrix4.mk 1 0 0 0  0 1 0 0  0 0 1 0  4.5 0.5 0 1.

(** The matrix of an unrotated instance that sits 0.4995 above that
    target. *)
Definition nearTarget : Matrix4.t :=
  Matrix4.mk 1 0 0 0  0 1 0 0  0 0 1 0  4.5 0.9995 0 1.

(** The ball after one and after two updates in formed mode with
    delta = 0 at elapsed time 1/2. *)
Definition once : Object3D.t :=
  Ornaments.updateInstance true (1 / 2) 0 aBall onTarget Object3D.new.

Definition twice : Object3D.t :=
  Ornaments.updateInstance true (1 / 2) 0 aBall (Object3D.matrix once) once.

(** An instance after one update in scattered mode with delta = 0. *)
Definition scattered (d : InstanceData) : Object3D.t :=
  Ornaments.updateInstance false 0 0 d onTarget Object3D.new.

(** The foliage after one frame in formed mode with delta = 2 seconds,
    from rest. *)
Definition overshot : Foliage.State :=
  Foliage.useFrame FORMED true 2 2 Foliage.initial.

(** A mesh of one ball that stands on its formed target. *)
Definition mesh : InstancedMesh.t :=
  InstancedMesh.mk [onTarget] 0 None.

End Sample.

Module Run.

(** One tick of the rendering host, as the foliage sees it. *)
Record Frame : Type := mkFrame {
  mode : TreeMode;
  meshRef : bool;
  elapsedTime : R;
  delta : R }.

Definition tick (st : Foliage.State) (f : Frame) : Foliage.State :=
  Foliage.useFrame (mode f) (meshRef f) (elapsedTime f) (delta f) st.

Definition ticks (frames : list Frame) : Foliage.State :=
  fold_left tick frames Foliage.initial.

(** A frame whose interpolation factor does not exceed 1. *)
Definition short (f : Frame) : Prop := 0 <= delta f * 1.5 <= 1.

Definition in_unit (st : Foliage.State) : Prop :=
  0 <= Foliage.progressRef st <= 1.

End Run.

(** ** Runs of the foliage *)

(** The time covered by a run of frames. *)
Definition totalDelta (frames : list Run.Frame) : R :=
  foldr (fun f acc => Run.delta f + acc) 0 frames.

(** The distance of a point from the vertical axis. *)
Definition radial (p : Vector3.t) : R :=
  JsMath.sqrt (Vector3.x p * Vector3.x p + Vector3.z p * Vector3.z p).

(** ** Ranges of the remaining fields of an ornament *)

(** The ranges of scale, colour, speed and rotation offset (lines
    74-86). *)
Definition dressed (d : InstanceData) : Prop :=
  (type d = light ->
     scale d = 0.15 /\ color d = Some "#e0f2fe"%string)
  /\ (type d <> light ->
      0.2 <= scale d < 0.45
      /\ exists c : string, c ∈ Ornaments.palette /\ color d = Some c)
  /\ 0.5 <= speed d < 2
  /\ 0 <= Euler.x (rotationOffset d) < PI
  /\ 0 <= Euler.y (rotationOffset d) < PI
  /\ Euler.z (rotationOffset d) = 0.

(** The target lies between the cone of radius 4.5 at the base height
    0.5 and apex height 11.5, and that cone widened by 0.5. *)
Definition on_cone_band (d : InstanceData) : Prop :=
  let cone := 4.5 * (1 - (Vector3.y (targetPos d) - 0.5) / 11) in
  0 < cone /\ cone <= radial (targetPos d) < cone + 0.5.

(** All the instances of the three lists. *)
Definition allData (data : Ornaments.Data) : list InstanceData :=
  Ornaments.ballsData data ++ Ornaments.giftsData data
  ++ Ornaments.lightsData data.

(** ** The three meshes of the ornaments, by category *)

Definition refOf (ty : OrnamentType) (st : Ornaments.State)
    : option InstancedMesh.t :=
  match ty with
  | ball => Ornaments.ballsRef st
  | gift => Ornaments.giftsRef st
  | light => Ornaments.lightsRef st
  end.

Definition dataOf (ty : OrnamentType) (data : Ornaments.Data)
    : list InstanceData :=
  match ty with
  | ball => Ornaments.ballsData data
  | gift => Ornaments.giftsData data
  | light => Ornaments.lightsData data
  end.

(** The matrix one frame writes for an instance, computed with a fresh
    scratch object. *)
Definition written (isFormed : bool) (time delta : R) (d : InstanceData)
    (m : Matrix4.t) : Matrix4.t :=
  Object3D.matrix
    (Ornaments.updateInstance isFormed time delta d m Object3D.new).

(** The fraction of the way to its destination that an instance of the
    given speed still has to go after a run of frames. *)
Definition remaining (speed : R) (frames : list OrnamentsMount.Render) : R :=
  foldr (fun f acc => (1 - OrnamentsMount.delta f * speed) * acc) 1 frames.

(** The matrix of a gift at rest on the sample target, as a frame would
    have written it with all three angles at zero. *)
Definition restingGift : Matrix4.t :=
  Matrix4.compose (Vector3.mk 4.5 0.5 0) (Quaternion_setFromEuler Euler.zero)
    (Vector3.setScalar 0.2).

(** The colours of the instances of a mesh: white until the colour
    attribute exists. *)
Definition coloursOf (mesh : InstancedMesh.t) : list string :=
  match InstancedMesh.instanceColor mesh with
  | Some cs => cs
  | None =>
      replicate (length (InstancedMesh.instanceMatrix mesh)) "#ffffff"%string
  end.

(** Every instance has a colour. *)
Definition coloured (l : list InstanceData) : Prop :=
  Forall (fun d => is_Some (color d)) l.

(** The categories whose mesh the layout effect handles before that of
    [ty] (lines 98-102). *)
Definition earlier (ty : OrnamentType) : list OrnamentType :=
  match ty with
  | ball => []
  | gift => [ball]
  | light => [ball; gift]
  end.

(** The layout effect gets as far as the mesh of [ty] and has colours to
    set there: no category before it is empty, and neither is its own. *)
Definition painted (ty : OrnamentType) (data : Ornaments.Data) : Prop :=
  Forall (fun t => dataOf t data <> []) (earlier ty)
  /\ dataOf ty data <> [].

(** A light whose formed target is (4.5, 0.5, 0). *)
Definition aLight : InstanceData :=
  mkInstanceData (Vector3.mk 0 20 0) (Vector3.mk 4.5 0.5 0) light
    (Some "#e0f2fe"%string) 0.15 0.5 (Euler.mk 0 0 0).

(** ** Definedness and bounds along a run *)

(** One update meets no operation that yields NaN on finite operands:
    the matrix it reads can be decomposed (line 123), and for a ball or
    a light the quaternion can be extracted from the rotation matrix
    that [lookAt] builds at the new position (line 136). *)
Definition updateInstance_defined (isFormed : bool) (time delta : R)
    (d : InstanceData) (m : Matrix4.t) (dummy : Object3D.t) : Prop :=
  Matrix4_decompose_defined m
  /\ (type d <> gift ->
      let p := newPosition isFormed time delta d
                 (Vector3_setFromMatrixPosition m) in
      Quaternion_setFromRotationMatrix_defined
        (Matrix4.lookAt Matrix4.identity (Vector3.mk 0 (Vector3.y p) 0) p
           (Object3D.up dummy))).

(** The sixteen elements of a matrix. *)
Definition entries (M : Matrix4.t) : list R :=
  [Matrix4.te0 M; Matrix4.te1 M; Matrix4.te2 M; Matrix4.te3 M;
   Matrix4.te4 M; Matrix4.te5 M; Matrix4.te6 M; Matrix4.te7 M;
   Matrix4.te8 M; Matrix4.te9 M; Matrix4.te10 M; Matrix4.te11 M;
   Matrix4.te12 M; Matrix4.te13 M; Matrix4.te14 M; Matrix4.te15 M].

(** Every coordinate of a point is at most [c] in absolute value. *)
Definition within (c : R) (p : Vector3.t) : Prop :=
  Rabs (Vector3.x p) <= c /\ Rabs (Vector3.y p) <= c
  /\ Rabs (Vector3.z p) <= c.

(** What holds of every instance matrix from mounting on, for frames of
    at most half a second: it is composed of a position within 35 of
    the origin in every coordinate, a unit quaternion and a uniform
    scale between 0.1 and 1. *)
Definition settled (m : Matrix4.t) : Prop :=
  exists (p : Vector3.t) (q : Quaternion.t) (s : R),
    m = Matrix4.compose p q (Vector3.setScalar s)
    /\ within 35 p /\ unitq q /\ 0.1 <= s <= 1.

(** What the update needs of an instance to keep a matrix settled; it
    holds of every generated instance. *)
Definition tame (d : InstanceData) : Prop :=
  within 35 (chaosPos d) /\ within 34 (targetPos d)
  /\ 0.5 <= speed d <= 2
  /\ (forall time : R, 0.1 <= newScale time d <= 1).

(** A frame of at most half a second. *)
Definition brief (f : OrnamentsMount.Render) : Prop :=
  0 <= OrnamentsMount.delta f <= 1 / 2.

(** * Lemmas on the embedding *)

(** ** The per-instance update: what it reads and what it writes *)

Section UpdateInstance.

Import Ornaments.

Variables (isFormed : bool) (time delta : R) (d : InstanceData).

Lemma updateInstance_position (m : Matrix4.t) (dm : Object3D.t) :
  Object3D.position (updateInstance isFormed time delta d m dm)
  = newPosition isFormed time delta d (Vector3_setFromMatrixPosition m).
Proof.
  unfold updateInstance, newPosition, bobs, lerped, dest.
  unfold Object3D.decompose_matrix.
  destruct (Matrix4_decompose (Object3D.matrix (Object3D.set_matrix dm m)))
    as [[p q] s] eqn:E.
  assert (Hp : p = Vector3_setFromMatrixPosition m).
  { unfold Matrix4_decompose in E. simpl in E. congruence. }
  subst p. simpl.
  destruct (isFormed && _); destruct (decide (type d = gift));
    destruct (decide (type d = light)); reflexivity.
Qed.

Lemma updateInstance_up (m : Matrix4.t) (dm : Object3D.t) :
  Object3D.up (updateInstance isFormed time delta d m dm) = Object3D.up dm.
Proof.
  unfold updateInstance, Object3D.decompose_matrix.
  destruct (Matrix4_decompose _) as [[p q] s].
  destruct (isFormed && _); destruct (decide (type d = gift));
    destruct (decide (type d = light)); reflexivity.
Qed.

Lemma updateInstance_rotation_gift (m : Matrix4.t) (dm : Object3D.t) :
  type d = gift ->
  Object3D.rotation (updateInstance isFormed time delta d m dm)
  = spun delta (readRotation m).
Proof.
  intros Hg. unfold updateInstance, readRotation, Object3D.decompose_matrix.
  change (Object3D.matrix (Object3D.set_matrix dm m)) with m.
  destruct (Matrix4_decompose m) as [[p q] s].
  destruct (decide (type d = gift)) as [_|]; [|contradiction].
  destruct (decide (type d = light)) as [Hl|_]; [congruence|].
  destruct (isFormed && _); reflexivity.
Qed.

Lemma updateInstance_matrix_gift (m : Matrix4.t) (dm : Object3D.t) :
  type d = gift ->
  Object3D.matrix (updateInstance isFormed time delta d m dm)
  = Matrix4.compose
      (newPosition isFormed time delta d (Vector3_setFromMatrixPosition m))
      (Quaternion_setFromEuler (spun delta (readRotation m)))
      (Vector3.setScalar (scale d)).
Proof.
  intros Hg.
  rewrite <- (updateInstance_position m dm).
  unfold updateInstance, readRotation, Object3D.decompose_matrix.
  change (Object3D.matrix (Object3D.set_matrix dm m)) with m.
  destruct (Matrix4_decompose m) as [[p q] s].
  destruct (decide (type d = gift)) as [_|]; [|contradiction].
  destruct (decide (type d = light)) as [Hl|_]; [congruence|].
  destruct (isFormed && _); reflexivity.
Qed.

Lemma updateInstance_matrix_other (m : Matrix4.t) (dm : Object3D.t) :
  type d <> gift ->
  Object3D.matrix (updateInstance isFormed time delta d m dm)
  = let p := newPosition isFormed time delta d (Vector3_setFromMatrixPosition m) in
    Matrix4.compose p (facing (Object3D.up dm) p)
      (Vector3.setScalar (newScale time d)).
Proof.
  intros Hg. cbv zeta.
  rewrite <- (updateInstance_position m dm).
  unfold updateInstance, newScale, facing, Object3D.decompose_matrix.
  change (Object3D.matrix (Object3D.set_matrix dm m)) with m.
  destruct (Matrix4_decompose m) as [[p q] s].
  destruct (decide (type d = gift)) as [|_]; [contradiction|].
  destruct (decide (type d = light)); destruct (isFormed && _);
    reflexivity.
Qed.

Lemma compose_position (p : Vector3.t) (q : Quaternion.t) (s : Vector3.t) :
  Vector3_setFromMatrixPosition (Matrix4.compose p q s) = p.
Proof. destruct p; reflexivity. Qed.

(** The translation of the matrix written back is the new position. *)
Lemma updateInstance_matrix_position (m : Matrix4.t) (dm : Object3D.t) :
  Vector3_setFromMatrixPosition
    (Object3D.matrix (updateInstance isFormed time delta d m dm))
  = newPosition isFormed time delta d (Vector3_setFromMatrixPosition m).
Proof.
  destruct (decide (type d = gift)) as [Hg|Hg].
  - rewrite updateInstance_matrix_gift by assumption.
    apply compose_position.
  - rewrite updateInstance_matrix_other by assumption.
    apply compose_position.
Qed.

(** The matrix written back does not depend on what the shared scratch
    object held before, its up vector apart. *)
Lemma updateInstance_matrix_scratch (m : Matrix4.t) (dm dm' : Object3D.t) :
  Object3D.up dm = Object3D.up dm' ->
  Object3D.matrix (updateInstance isFormed time delta d m dm)
  = Object3D.matrix (updateInstance isFormed time delta d m dm').
Proof.
  intros Hup. destruct (decide (type d = gift)) as [Hg|Hg].
  - rewrite !updateInstance_matrix_gift by assumption. reflexivity.
  - rewrite !updateInstance_matrix_other by assumption.
    rewrite Hup. reflexivity.
Qed.

End UpdateInstance.

(** ** Arithmetic helpers *)

Lemma lerp_zero (p q : Vector3.t) : Vector3.lerp p q 0 = p.
Proof. destruct p; unfold Vector3.lerp; simpl; f_equal; ring. Qed.

Lemma sqrt_lt_half (s : R) : 0 <= s < 0.25 -> JsMath.sqrt s < 0.5.
Proof.
  intros Hs. unfold JsMath.sqrt.
  replace 0.5 with (R_sqrt.sqrt (0.5 * 0.5)) by (apply sqrt_square; lra).
  apply sqrt_lt_1_alt. lra.
Qed.

Lemma sin_one_pos : 0 < Rtrigo_def.sin 1.
Proof. apply sin_gt_0; [lra|]. pose proof PI2_1. lra. Qed.

Lemma sin_abs_le (a : R) : -1 <= JsMath.sin a <= 1.
Proof. apply SIN_bound. Qed.

(** ** Orientation computed by [lookAt] towards the axis *)

Section Facing.

Lemma normalize_nonzero (v : Vector3.t) :
  Vector3.lengthSq v <> 0 ->
  Vector3.normalize v
  = Vector3.multiplyScalar v (1 / R_sqrt.sqrt (Vector3.lengthSq v)).
Proof.
  intros Hv. unfold Vector3.normalize, Vector3.divideScalar, Vector3.length.
  destruct (decide (JsMath.sqrt (Vector3.lengthSq v) = 0)) as [H0|H0].
  - exfalso. apply Hv. unfold JsMath.sqrt in H0.
    apply sqrt_eq_0 in H0; [assumption|].
    unfold Vector3.lengthSq. nra.
  - reflexivity.
Qed.

Lemma normalize_unit (v : Vector3.t) :
  Vector3.lengthSq v = 1 -> Vector3.normalize v = v.
Proof.
  intros Hv. rewrite normalize_nonzero by lra.
  rewrite Hv, sqrt_1. destruct v; unfold Vector3.multiplyScalar; simpl.
  f_equal; field.
Qed.

Variable p : Vector3.t.
Hypothesis off_axis :
  Vector3.x p * Vector3.x p + Vector3.z p * Vector3.z p <> 0.

Let rho : R :=
  R_sqrt.sqrt (Vector3.x p * Vector3.x p + Vector3.z p * Vector3.z p).

Lemma rho_pos : 0 < rho.
Proof.
  unfold rho. apply sqrt_lt_R0.
  assert (0 <= Vector3.x p * Vector3.x p + Vector3.z p * Vector3.z p) by nra.
  lra.
Qed.

Lemma rho_sqr :
  rho * rho = Vector3.x p * Vector3.x p + Vector3.z p * Vector3.z p.
Proof. unfold rho. apply sqrt_sqrt. nra. Qed.

(** Looking from a point off the axis at the axis point of the same
    height gives the yaw towards the axis. *)
Lemma lookAt_axis :
  Matrix4.lookAt Matrix4.identity (Vector3.mk 0 (Vector3.y p) 0) p
    (Vector3.mk 0 1 0)
  = yaw (- Vector3.x p / rho) (- Vector3.z p / rho).
Proof.
  pose proof rho_pos as Hr. pose proof rho_sqr as Hq.
  assert (Hinv : / rho * / rho
                 * (Vector3.x p * Vector3.x p + Vector3.z p * Vector3.z p)
                 = 1) by (rewrite <- Hq; field; lra).
  unfold Matrix4.lookAt.
  set (z0 := Vector3.subVectors _ p).
  assert (Hz0 : Vector3.lengthSq z0
                = Vector3.x p * Vector3.x p + Vector3.z p * Vector3.z p).
  { unfold z0, Vector3.lengthSq; simpl. ring. }
  destruct (decide (Vector3.lengthSq z0 = 0)) as [H0|_]; [congruence|].
  rewrite (normalize_nonzero z0) by congruence.
  rewrite Hz0. fold rho.
  set (z2 := Vector3.multiplyScalar z0 (1 / rho)).
  assert (Hz2 : z2 = Vector3.mk (- Vector3.x p / rho) 0 (- Vector3.z p / rho)).
  { unfold z2, z0, Vector3.multiplyScalar; simpl. f_equal; field; lra. }
  rewrite Hz2.
  set (x0 := Vector3.crossVectors _ _).
  assert (Hx0 : x0 = Vector3.mk (- Vector3.z p / rho) 0 (- - Vector3.x p / rho)).
  { unfold x0, Vector3.crossVectors; simpl. f_equal; field; lra. }
  assert (Hx1 : Vector3.lengthSq x0 = 1).
  { rewrite Hx0. unfold Vector3.lengthSq; simpl. rewrite <- Hinv.
    unfold Rdiv. ring. }
  destruct (decide (Vector3.lengthSq x0 = 0)) as [H0|_]; [lra|].
  rewrite (normalize_unit x0 Hx1). rewrite Hx0.
  unfold yaw, Vector3.crossVectors; simpl.
  f_equal; try (field; lra).
  rewrite <- Hinv. unfold Rdiv. ring.
Qed.

End Facing.

(** A yaw survives the detour through the quaternion. *)
Lemma yaw_quaternion_matrix (a b s : R) (p : Vector3.t) :
  a * a + b * b = 1 ->
  Matrix4.compose p (Quaternion_setFromRotationMatrix (yaw a b))
    (Vector3.setScalar s)
  = Matrix4.mk (b * s) 0 (- a * s) 0  0 s 0 0  (a * s) 0 (b * s) 0
      (Vector3.x p) (Vector3.y p) (Vector3.z p) 1.
Proof.
  intros Hab. unfold Quaternion_setFromRotationMatrix, yaw. simpl.
  replace 0.5 with (/ 2) by lra. replace 0.25 with (/ 4) by lra.
  destruct (decide (0 < b + 1 + b)) as [Ht|Ht].
  - set (r := JsMath.sqrt (b + 1 + b + 1)).
    assert (Hr : 0 < r) by (apply sqrt_lt_R0; lra).
    assert (Hrr : r * r = b + 1 + b + 1) by (apply sqrt_sqrt; lra).
    assert (Hi : / r * / r * (2 + 2 * b) = 1).
    { replace (2 + 2 * b) with (r * r) by lra. field. lra. }
    assert (Ha : a * a * (/ r * / r) * 2 = 1 - b).
    { replace (a * a) with ((1 - b) * (1 + b)) by nra.
      transitivity ((1 - b) * (/ r * / r * (2 + 2 * b))); [ring|].
      rewrite Hi. ring. }
    unfold Matrix4.compose; simpl.
    f_equal; try (field; lra).
    + replace (1 - _) with (1 - a * a * (/ r * / r) * 2) by (field; lra).
      rewrite Ha. ring.
    + replace (1 - _) with (1 - a * a * (/ r * / r) * 2) by (field; lra).
      rewrite Ha. ring.
  - destruct (decide (1 < b /\ b < b)) as [[_ H]|_]; [lra|].
    assert (Hb : b <= 1) by nra.
    destruct (decide (b < 1)) as [Hb1|Hb1]; [|nra].
    set (r := JsMath.sqrt (1 + 1 - b - b)).
    assert (Hr : 0 < r) by (apply sqrt_lt_R0; lra).
    assert (Hrr : r * r = 1 + 1 - b - b) by (apply sqrt_sqrt; lra).
    unfold Matrix4.compose; simpl.
    f_equal; try (field; lra).
    + replace (1 - _) with (1 - r * r / 2) by (field; lra).
      rewrite Hrr. field.
    + replace (1 - _) with (1 - r * r / 2) by (field; lra).
      rewrite Hrr. field.
Qed.

(** The matrix written for a ball or a light standing off the axis: the
    yaw whose forward direction is the unit vector from the instance to
    the axis, scaled by the instance scale. *)
Lemma updateInstance_matrix_facing (isFormed : bool) (time delta : R)
    (d : InstanceData) (m : Matrix4.t) (dm : Object3D.t) :
  type d <> gift ->
  Object3D.up dm = Vector3.mk 0 1 0 ->
  let p := newPosition isFormed time delta d (Vector3_setFromMatrixPosition m) in
  let rho := R_sqrt.sqrt (Vector3.x p * Vector3.x p + Vector3.z p * Vector3.z p) in
  let a := - Vector3.x p / rho in
  let b := - Vector3.z p / rho in
  let s := newScale time d in
  Vector3.x p * Vector3.x p + Vector3.z p * Vector3.z p <> 0 ->
  Object3D.matrix (Ornaments.updateInstance isFormed time delta d m dm)
  = Matrix4.mk (b * s) 0 (- a * s) 0  0 s 0 0  (a * s) 0 (b * s) 0
      (Vector3.x p) (Vector3.y p) (Vector3.z p) 1.
Proof.
  intros Hg Hup p rho a b s Hoff.
  rewrite updateInstance_matrix_other by assumption. cbv zeta. fold p.
  unfold facing. rewrite Hup, (lookAt_axis p Hoff). fold rho a b s.
  apply yaw_quaternion_matrix.
  pose proof (rho_pos p Hoff) as Hr. pose proof (rho_sqr p Hoff) as Hq.
  fold rho in Hr, Hq. unfold a, b.
  transitivity (/ rho * / rho
                * (Vector3.x p * Vector3.x p + Vector3.z p * Vector3.z p)).
  - unfold Rdiv. ring.
  - rewrite <- Hq. field. lra.
Qed.

Lemma newScale_pos (time : R) (d : InstanceData) :
  0 < scale d -> 0 < newScale time d.
Proof.
  intros Hs. unfold newScale. destruct (decide (type d = light)); [|lra].
  pose proof (sin_abs_le (time * 5 + Vector3.y (chaosPos d))). nra.
Qed.

(** ** The loop over the instances of one mesh *)

Section ForEach.

Import Ornaments.

Variables (isFormed : bool) (time delta : R).

Lemma forEach_from_up (data : list InstanceData) :
  forall (i : nat) (mesh : InstancedMesh.t) (dm : Object3D.t) (nu : bool),
    Object3D.up (forEach_from isFormed time delta i data (mesh, dm, nu)).1.2
    = Object3D.up dm.
Proof.
  induction data as [|d rest IH]; intros i mesh dm nu; [reflexivity|].
  simpl. destruct (InstancedMesh.getMatrixAt mesh i) as [m|].
  - rewrite IH. apply updateInstance_up.
  - apply IH.
Qed.

Lemma forEach_from_length (data : list InstanceData) :
  forall (i : nat) (mesh : InstancedMesh.t) (dm : Object3D.t) (nu : bool),
    length (InstancedMesh.instanceMatrix
              (forEach_from isFormed time delta i data (mesh, dm, nu)).1.1)
    = length (InstancedMesh.instanceMatrix mesh).
Proof.
  induction data as [|d rest IH]; intros i mesh dm nu; [reflexivity|].
  simpl. destruct (InstancedMesh.getMatrixAt mesh i) as [m|].
  - rewrite IH. simpl. apply length_insert.
  - apply IH.
Qed.

(** Instances before the current index are left as they are. *)
Lemma forEach_from_before (data : list InstanceData) :
  forall (i j : nat) (mesh : InstancedMesh.t) (dm : Object3D.t) (nu : bool),
    (j < i)%nat ->
    InstancedMesh.instanceMatrix
      (forEach_from isFormed time delta i data (mesh, dm, nu)).1.1 !! j
    = InstancedMesh.instanceMatrix mesh !! j.
Proof.
  induction data as [|d rest IH]; intros i j mesh dm nu Hj; [reflexivity|].
  simpl. destruct (InstancedMesh.getMatrixAt mesh i) as [m|].
  - rewrite IH by lia. simpl. apply list_lookup_insert_ne. lia.
  - apply IH. lia.
Qed.

(** Instance [i + k] is written the matrix computed from its own data
    and its own previous matrix. *)
Lemma forEach_from_lookup (data : list InstanceData) :
  forall (i k : nat) (mesh : InstancedMesh.t) (dm : Object3D.t) (nu : bool)
         (d : InstanceData) (m : Matrix4.t),
    data !! k = Some d ->
    InstancedMesh.instanceMatrix mesh !! (i + k)%nat = Some m ->
    exists dm' : Object3D.t,
      Object3D.up dm' = Object3D.up dm /\
      InstancedMesh.instanceMatrix
        (forEach_from isFormed time delta i data (mesh, dm, nu)).1.1
        !! (i + k)%nat
      = Some (Object3D.matrix (updateInstance isFormed time delta d m dm')).
Proof.
  induction data as [|d0 rest IH]; intros i k mesh dm nu d m Hd Hm;
    [discriminate|].
  destruct k as [|k].
  - injection Hd as ->. rewrite Nat.add_0_r in *.
    change (forEach_from isFormed time delta i (d :: rest) (mesh, dm, nu))
      with (forEach_from isFormed time delta (S i) rest
              match InstancedMesh.getMatrixAt mesh i with
              | Some m =>
                  (InstancedMesh.setMatrixAt mesh i
                     (Object3D.matrix
                        (updateInstance isFormed time delta d m dm)),
                   updateInstance isFormed time delta d m dm, true)
              | None => (mesh, dm, nu)
              end).
    unfold InstancedMesh.getMatrixAt. rewrite Hm.
    exists dm. split; [reflexivity|].
    rewrite forEach_from_before by lia.
    unfold InstancedMesh.setMatrixAt.
    cbn [fst InstancedMesh.instanceMatrix].
    apply list_lookup_insert_eq. eapply lookup_lt_Some, Hm.
  - simpl in Hd. replace (i + S k)%nat with (S i + k)%nat in * by lia.
    change (forEach_from isFormed time delta i (d0 :: rest) (mesh, dm, nu))
      with (forEach_from isFormed time delta (S i) rest
              match InstancedMesh.getMatrixAt mesh i with
              | Some m =>
                  (InstancedMesh.setMatrixAt mesh i
                     (Object3D.matrix
                        (updateInstance isFormed time delta d0 m dm)),
                   updateInstance isFormed time delta d0 m dm, true)
              | None => (mesh, dm, nu)
              end).
    destruct (InstancedMesh.getMatrixAt mesh i) as [m0|].
    + destruct (IH (S i) k
                  (InstancedMesh.setMatrixAt mesh i
                     (Object3D.matrix
                        (updateInstance isFormed time delta d0 m0 dm)))
                  (updateInstance isFormed time delta d0 m0 dm) true d m Hd)
        as [dm' [Hup H]].
      { unfold InstancedMesh.setMatrixAt.
        cbn [InstancedMesh.instanceMatrix].
        rewrite list_lookup_insert_ne by lia. exact Hm. }
      exists dm'. split; [|exact H].
      rewrite Hup. apply updateInstance_up.
    + apply (IH (S i) k mesh dm nu d m Hd Hm).
Qed.

Lemma updateMesh_lookup (mesh : InstancedMesh.t)
    (data : list InstanceData) (dm : Object3D.t) (k : nat)
    (d : InstanceData) (m : Matrix4.t) :
  data !! k = Some d ->
  InstancedMesh.instanceMatrix mesh !! k = Some m ->
  exists (mesh' : InstancedMesh.t) (dm' : Object3D.t),
    (updateMesh isFormed time delta (Some mesh) data dm).1 = Some mesh' /\
    Object3D.up dm' = Object3D.up dm /\
    InstancedMesh.instanceMatrix mesh' !! k
    = Some (Object3D.matrix (updateInstance isFormed time delta d m dm')).
Proof.
  intros Hd Hm.
  destruct (forEach_from_lookup data 0 k mesh dm false d m Hd Hm)
    as [dm' [Hup H]].
  unfold updateMesh.
  destruct (forEach_from isFormed time delta 0 data (mesh, dm, false))
    as [[mesh' dm''] nu] eqn:E.
  simpl in H. eexists. exists dm'. split; [reflexivity|].
  split; [assumption|]. destruct nu; exact H.
Qed.

End ForEach.

(** ** Rotations: quaternions, Euler angles and back *)

(** [Quaternion.setFromEuler] yields a quaternion of norm 1. *)
Lemma setFromEuler_unit (e : Euler.t) : unitq (Quaternion_setFromEuler e).
Proof.
  unfold unitq, Quaternion_setFromEuler, JsMath.sin, JsMath.cos; simpl.
  pose proof (sin2_cos2 (Euler.x e / 2)) as H1.
  pose proof (sin2_cos2 (Euler.y e / 2)) as H2.
  pose proof (sin2_cos2 (Euler.z e / 2)) as H3.
  unfold Rsqr in *.
  set (s1 := sin (Euler.x e / 2)) in *. set (c1 := cos (Euler.x e / 2)) in *.
  set (s2 := sin (Euler.y e / 2)) in *. set (c2 := cos (Euler.y e / 2)) in *.
  set (s3 := sin (Euler.z e / 2)) in *. set (c3 := cos (Euler.z e / 2)) in *.
  clearbody s1 c1 s2 c2 s3 c3.
  nsatz.
Qed.

Lemma half_angle (t : R) :
  cos t = cos (t / 2) * cos (t / 2) - sin (t / 2) * sin (t / 2)
  /\ sin t = 2 * sin (t / 2) * cos (t / 2).
Proof.
  split; [rewrite <- cos_2a|rewrite <- sin_2a]; f_equal; field.
Qed.

(** The matrix of the quaternion of Euler angles is the matrix of the
    angles. *)
Lemma makeRotationFromQuaternion_setFromEuler (e : Euler.t) :
  Matrix4.makeRotationFromQuaternion (Quaternion_setFromEuler e)
  = eulerMatrix e.
Proof.
  unfold Matrix4.makeRotationFromQuaternion, Matrix4.compose, eulerMatrix,
    Quaternion_setFromEuler, JsMath.sin, JsMath.cos; simpl.
  destruct (half_angle (Euler.x e)) as [-> ->].
  destruct (half_angle (Euler.y e)) as [-> ->].
  destruct (half_angle (Euler.z e)) as [-> ->].
  pose proof (sin2_cos2 (Euler.x e / 2)) as H1.
  pose proof (sin2_cos2 (Euler.y e / 2)) as H2.
  pose proof (sin2_cos2 (Euler.z e / 2)) as H3.
  unfold Rsqr in *.
  set (s1 := sin (Euler.x e / 2)) in *. set (c1 := cos (Euler.x e / 2)) in *.
  set (s2 := sin (Euler.y e / 2)) in *. set (c2 := cos (Euler.y e / 2)) in *.
  set (s3 := sin (Euler.z e / 2)) in *. set (c3 := cos (Euler.z e / 2)) in *.
  clearbody s1 c1 s2 c2 s3 c3.
  f_equal.
  all: try ring.
  all: nsatz.
Qed.

Lemma compose_q_neg (p : Vector3.t) (q : Quaternion.t) (s : Vector3.t) :
  Matrix4.compose p (q_neg q) s = Matrix4.compose p q s.
Proof. unfold Matrix4.compose, q_neg; simpl. f_equal; ring. Qed.

Lemma sqrt_4sq (v : R) : R_sqrt.sqrt (4 * (v * v)) = 2 * Rabs v.
Proof.
  replace (4 * (v * v)) with (Rsqr (2 * v)) by (unfold Rsqr; ring).
  rewrite sqrt_Rsqr_abs, Rabs_mult, (Rabs_right 2) by lra. reflexivity.
Qed.

(** Reading the quaternion back from its own rotation matrix gives the
    quaternion or its opposite, which stands for the same rotation. *)
Lemma setFromRotationMatrix_of_quaternion (q : Quaternion.t) :
  unitq q ->
  let q' := Quaternion_setFromRotationMatrix
              (Matrix4.makeRotationFromQuaternion q) in
  q' = q \/ q' = q_neg q.
Proof.
  destruct q as [x y z w]. unfold unitq; simpl. intros Hu.
  unfold Quaternion_setFromRotationMatrix, Matrix4.makeRotationFromQuaternion,
    Matrix4.compose, JsMath.sqrt, q_neg; simpl.
  replace 0.5 with (/ 2) by lra. replace 0.25 with (/ 4) by lra.
  match goal with |- context [decide (0 < ?t)] =>
    replace t with (4 * (w * w) - 1) by nra end.
  destruct (decide (0 < 4 * (w * w) - 1)) as [Ht|Ht].
  - match goal with |- context [R_sqrt.sqrt ?t] =>
      replace t with (4 * (w * w)) by nra end.
    rewrite sqrt_4sq.
    destruct (Rle_lt_dec 0 w) as [Hw|Hw].
    + rewrite Rabs_right by lra. assert (w <> 0) by nra.
      left. f_equal; field; lra.
    + rewrite Rabs_left by lra.
      right. f_equal; field; lra.
  - assert (Hw : 4 * (w * w) <= 1) by lra.
    destruct (decide (_ /\ _)) as [[H1 H2]|H12].
    + match goal with |- context [R_sqrt.sqrt ?t] =>
        replace t with (4 * (x * x)) by nra end.
      rewrite sqrt_4sq.
      assert (Hx : x <> 0) by (intros ->; nra).
      destruct (Rle_lt_dec 0 x) as [Hx0|Hx0].
      * rewrite Rabs_right by lra. left. f_equal; field; lra.
      * rewrite Rabs_left by lra. right. f_equal; field; lra.
    + destruct (decide (_ < _)) as [H3|H3].
      * match goal with |- context [R_sqrt.sqrt ?t] =>
          replace t with (4 * (y * y)) by nra end.
        rewrite sqrt_4sq.
        assert (Hy : y <> 0) by (intros ->; nra).
        destruct (Rle_lt_dec 0 y) as [Hy0|Hy0].
        -- rewrite Rabs_right by lra. left. f_equal; field; lra.
        -- rewrite Rabs_left by lra. right. f_equal; field; lra.
      * match goal with |- context [R_sqrt.sqrt ?t] =>
          replace t with (4 * (z * z)) by nra end.
        rewrite sqrt_4sq.
        assert (Hz : z <> 0).
        { intros ->. apply H12. nra. }
        destruct (Rle_lt_dec 0 z) as [Hz0|Hz0].
        -- rewrite Rabs_right by lra. left. f_equal; field; lra.
        -- rewrite Rabs_left by lra. right. f_equal; field; lra.
Qed.

(** [decompose] undoes [compose] for a unit quaternion and a positive
    uniform scale, up to the sign of the quaternion. *)
Lemma decompose_compose (p : Vector3.t) (q : Quaternion.t) (s : R) :
  unitq q -> 0 < s ->
  Matrix4_decompose (Matrix4.compose p q (Vector3.setScalar s))
  = (p,
     Quaternion_setFromRotationMatrix (Matrix4.makeRotationFromQuaternion q),
     Vector3.setScalar s).
Proof.
  destruct q as [x y z w], p as [px py pz]. unfold unitq; simpl. intros Hu Hs.
  unfold Matrix4_decompose.
  assert (Hdet : ~ Matrix4.determinant
                     (Matrix4.compose (Vector3.mk px py pz)
                        (Quaternion.mk x y z w) (Vector3.setScalar s)) < 0).
  { unfold Matrix4.determinant, Matrix4.compose; simpl.
    match goal with |- ~ ?d < 0 =>
      replace d with (s * s * s) ; [nra|] end.
    nsatz. }
  destruct (decide (_ < 0)) as [Hd|_]; [contradiction|].
  unfold Vector3.length, Vector3.lengthSq, JsMath.sqrt, Matrix4.compose,
    Vector3.setScalar; simpl.
  assert (L0 : R_sqrt.sqrt
                 ((1 - (y * (y + y) + z * (z + z))) * s
                  * ((1 - (y * (y + y) + z * (z + z))) * s)
                  + (x * (y + y) + w * (z + z)) * s
                    * ((x * (y + y) + w * (z + z)) * s)
                  + (x * (z + z) - w * (y + y)) * s
                    * ((x * (z + z) - w * (y + y)) * s)) = s).
  { match goal with |- R_sqrt.sqrt ?t = _ =>
      replace t with (s * s) by nsatz end.
    apply sqrt_square; lra. }
  assert (L1 : R_sqrt.sqrt
                 ((x * (y + y) - w * (z + z)) * s
                  * ((x * (y + y) - w * (z + z)) * s)
                  + (1 - (x * (x + x) + z * (z + z))) * s
                    * ((1 - (x * (x + x) + z * (z + z))) * s)
                  + (y * (z + z) + w * (x + x)) * s
                    * ((y * (z + z) + w * (x + x)) * s)) = s).
  { match goal with |- R_sqrt.sqrt ?t = _ =>
      replace t with (s * s) by nsatz end.
    apply sqrt_square; lra. }
  assert (L2 : R_sqrt.sqrt
                 ((x * (z + z) + w * (y + y)) * s
                  * ((x * (z + z) + w * (y + y)) * s)
                  + (y * (z + z) - w * (x + x)) * s
                    * ((y * (z + z) - w * (x + x)) * s)
                  + (1 - (x * (x + x) + y * (y + y))) * s
                    * ((1 - (x * (x + x) + y * (y + y))) * s)) = s).
  { match goal with |- R_sqrt.sqrt ?t = _ =>
      replace t with (s * s) by nsatz end.
    apply sqrt_square; lra. }
  rewrite L0, L1, L2.
  f_equal. f_equal.
  unfold Quaternion_setFromRotationMatrix, Matrix4.makeRotationFromQuaternion,
    Matrix4.compose; simpl.
  assert (Hi : s * (1 / s) = 1) by (field; lra).
  repeat match goal with
  | |- context [?a * s * (1 / s)] =>
      replace (a * s * (1 / s)) with a by (rewrite Rmult_assoc, Hi; ring)
  end.
  repeat match goal with
  | |- context [?a * 1] => replace (a * 1) with a by ring
  end.
  reflexivity.
Qed.

Lemma atan2_range (y x : R) : - PI < JsMath.atan2 y x <= PI.
Proof.
  unfold JsMath.atan2, JsMath.PI. pose proof PI_RGT_0 as Hpi.
  pose proof (atan_bound (y / x)) as Hb.
  destruct (decide (0 < x)) as [Hx|Hx]; [lra|].
  destruct (decide (x < 0)) as [Hx'|Hx'].
  - assert (Hi : / x < 0) by (apply Rinv_lt_0_compat; assumption).
    destruct (decide (0 <= y)) as [Hy|Hy].
    + assert (atan (y / x) <= 0).
      { rewrite <- atan_0. destruct (Req_dec y 0) as [->|Hy0].
        - unfold Rdiv. rewrite Rmult_0_l. lra.
        - apply Rlt_le, atan_increasing. unfold Rdiv. nra. }
      lra.
    + assert (0 < atan (y / x)).
      { rewrite <- atan_0. apply atan_increasing. unfold Rdiv. nra. }
      lra.
  - destruct (decide (0 < y)); [lra|]. destruct (decide (y < 0)); lra.
Qed.

Lemma cos_pos_range (t : R) : - PI < t <= PI -> 0 < cos t -> - (PI / 2) < t < PI / 2.
Proof.
  intros Ht Hc. pose proof PI_RGT_0. split.
  - destruct (Rlt_le_dec (- (PI / 2)) t) as [|Hle]; [assumption|].
    exfalso. pose proof (cos_le_0 (- t) ltac:(lra) ltac:(lra)) as H1.
    rewrite cos_neg in H1. lra.
  - destruct (Rlt_le_dec t (PI / 2)) as [|Hle]; [assumption|].
    exfalso. pose proof (cos_le_0 t ltac:(lra) ltac:(lra)). lra.
Qed.

(** [Math.atan2] recovers the angle of a point given in polar form. *)
Lemma atan2_polar (r t : R) :
  0 < r -> - PI < t <= PI -> JsMath.atan2 (r * sin t) (r * cos t) = t.
Proof.
  intros Hr Ht. pose proof PI_RGT_0 as Hpi.
  unfold JsMath.atan2, JsMath.PI.
  assert (Hq : cos t <> 0 -> r * sin t / (r * cos t) = tan t).
  { intros Hc. unfold tan. field. split; lra. }
  destruct (decide (0 < r * cos t)) as [Hx|Hx].
  - assert (Hc : 0 < cos t) by nra.
    rewrite Hq by lra. apply atan_tan, cos_pos_range; assumption.
  - destruct (decide (r * cos t < 0)) as [Hx'|Hx'].
    + assert (Hc : cos t < 0) by nra. rewrite Hq by lra.
      destruct (decide (0 <= r * sin t)) as [Hy|Hy].
      * assert (Hs : 0 <= sin t) by nra.
        assert (Hrange : PI / 2 < t).
        { destruct (Rlt_le_dec (PI / 2) t) as [|Hle]; [assumption|].
          exfalso. destruct (Rle_lt_dec (- (PI / 2)) t) as [Hge|Hlt].
          - pose proof (cos_ge_0 t Hge Hle). lra.
          - pose proof (sin_gt_0 (- t) ltac:(lra) ltac:(lra)) as H1.
            rewrite sin_neg in H1. lra. }
        replace (tan t) with (tan (t - PI)).
        { rewrite atan_tan by lra. ring. }
        unfold tan. replace t with (t - PI + PI) at 3 4 by ring.
        rewrite neg_sin, neg_cos. field.
        replace t with (t - PI + PI) in Hc by ring. rewrite neg_cos in Hc. lra.
      * assert (Hs : sin t < 0) by nra.
        assert (Hrange : t < - (PI / 2)).
        { destruct (Rlt_le_dec t (- (PI / 2))) as [|Hle]; [assumption|].
          exfalso. destruct (Rle_lt_dec t (PI / 2)) as [Hge|Hlt].
          - pose proof (cos_ge_0 t Hle Hge). lra.
          - pose proof (sin_ge_0 t ltac:(lra) ltac:(lra)). lra. }
        replace (tan t) with (tan (t + PI)).
        { rewrite atan_tan by lra. ring. }
        unfold tan. rewrite neg_sin, neg_cos. field. lra.
    + assert (Hc : cos t = 0) by nra.
      assert (Hcases : t = PI / 2 \/ t = - (PI / 2)).
      { destruct (Rtotal_order t (PI / 2)) as [Hlt|[Heq|Hgt]].
        - destruct (Rtotal_order t (- (PI / 2))) as [Hlt'|[Heq'|Hgt']].
          + exfalso. pose proof (cos_lt_0 (- t) ltac:(lra) ltac:(lra)) as H1.
            rewrite cos_neg in H1. lra.
          + right. assumption.
          + exfalso. pose proof (cos_gt_0 t Hgt' Hlt). lra.
        - left. assumption.
        - exfalso. pose proof (cos_lt_0 t Hgt ltac:(lra)). lra. }
      destruct Hcases as [-> | ->].
      * rewrite sin_PI2.
        destruct (decide (0 < _)); [reflexivity|lra].
      * rewrite sin_neg, sin_PI2.
        destruct (decide (0 < _)); [lra|].
        destruct (decide (_ < 0)); [reflexivity|lra].
Qed.

Lemma clamp_unit (v : R) : -1 <= MathUtils.clamp v (-1) 1 <= 1.
Proof.
  unfold MathUtils.clamp, JsMath.max, JsMath.min, Rmax, Rmin.
  destruct (Rle_dec 1 v); destruct (Rle_dec (-1) _); lra.
Qed.

Lemma clamp_id (v : R) : -1 <= v <= 1 -> MathUtils.clamp v (-1) 1 = v.
Proof.
  intros Hv. unfold MathUtils.clamp, JsMath.max, JsMath.min, Rmax, Rmin.
  destruct (Rle_dec 1 v); destruct (Rle_dec (-1) _); lra.
Qed.

Lemma clamp_large (v : R) :
  ~ Rabs v < 0.9999999 -> ~ Rabs (MathUtils.clamp v (-1) 1) < 0.9999999.
Proof.
  unfold MathUtils.clamp, JsMath.max, JsMath.min, Rmax, Rmin.
  intros Hv. destruct (Rle_dec 1 v); destruct (Rle_dec (-1) _);
    intros H; apply Hv; unfold Rabs in *;
    repeat match goal with
    | H : context [Rcase_abs ?a] |- _ => destruct (Rcase_abs a)
    | |- context [Rcase_abs ?a] => destruct (Rcase_abs a)
    end; lra.
Qed.

(** Whatever the matrix, the angles extracted from it are canonical. *)
Lemma setFromRotationMatrix_canonical (m : Matrix4.t) :
  canonical (Euler_setFromRotationMatrix m).
Proof.
  unfold canonical, Euler_setFromRotationMatrix, JsMath.asin, JsMath.abs.
  pose proof PI_RGT_0 as Hpi.
  destruct (decide (Rabs (Matrix4.te8 m) < 0.9999999)) as [Hg|Hg]; simpl.
  - split; [apply atan2_range|]. split; [apply asin_bound|].
    split; [apply atan2_range|]. left.
    assert (-1 <= Matrix4.te8 m <= 1).
    { unfold Rabs in Hg. destruct (Rcase_abs _); lra. }
    rewrite clamp_id, sin_asin by assumption. exact Hg.
  - split; [apply atan2_range|]. split; [apply asin_bound|].
    split; [lra|]. right. reflexivity.
Qed.

(** Canonical angles are recovered from their own rotation matrix. *)
Lemma setFromRotationMatrix_eulerMatrix (e : Euler.t) :
  canonical e -> Euler_setFromRotationMatrix (eulerMatrix e) = e.
Proof.
  destruct e as [x y z]. unfold canonical; simpl.
  intros [Hx [Hy [Hz Hg]]]. pose proof PI_RGT_0 as Hpi.
  unfold Euler_setFromRotationMatrix, eulerMatrix, JsMath.asin, JsMath.abs;
    simpl.
  pose proof (SIN_bound y) as Hsb.
  rewrite clamp_id, asin_sin by lra.
  destruct (decide (Rabs (sin y) < 0.9999999)) as [Hs|Hs].
  - assert (Hc : 0 < cos y).
    { apply cos_gt_0.
      - destruct (Req_dec y (- (PI / 2))) as [->|Hne]; [|lra].
        rewrite sin_neg, sin_PI2, Rabs_Ropp, Rabs_R1 in Hs. lra.
      - destruct (Req_dec y (PI / 2)) as [->|Hne]; [|lra].
        rewrite sin_PI2, Rabs_R1 in Hs. lra. }
    f_equal.
    + replace (- (- sin x * cos y)) with (cos y * sin x) by ring.
      rewrite (Rmult_comm (cos x)). apply atan2_polar; assumption.
    + replace (- (- cos y * sin z)) with (cos y * sin z) by ring.
      apply atan2_polar; assumption.
  - destruct Hg as [Hg| ->]; [contradiction|].
    rewrite sin_0, cos_0. f_equal.
    replace (sin x * 1 + cos x * 0 * sin y) with (1 * sin x) by ring.
    replace (cos x * 1 - sin x * 0 * sin y) with (1 * cos x) by ring.
    apply atan2_polar; [lra|assumption].
Qed.


(** The Euler angles read back from a matrix lie in the ranges of
    [Math.atan2] and [Math.asin], with z = 0 in the gimbal branch. *)
Lemma readRotation_canonical (m : Matrix4.t) : canonical (readRotation m).
Proof. apply setFromRotationMatrix_canonical. Qed.

(** Such angles are read back unchanged from the matrix composed from
    them with a positive uniform scale. *)
Lemma readRotation_compose (p : Vector3.t) (e : Euler.t) (s : R) :
  canonical e -> 0 < s ->
  readRotation (Matrix4.compose p (Quaternion_setFromEuler e)
                  (Vector3.setScalar s)) = e.
Proof.
  intros He Hs. unfold readRotation.
  rewrite decompose_compose by (try apply setFromEuler_unit; assumption).
  simpl. unfold Euler_setFromQuaternion.
  destruct (setFromRotationMatrix_of_quaternion (Quaternion_setFromEuler e)
              (setFromEuler_unit e)) as [-> | ->].
  - rewrite makeRotationFromQuaternion_setFromEuler.
    apply setFromRotationMatrix_eulerMatrix, He.
  - unfold Matrix4.makeRotationFromQuaternion. rewrite compose_q_neg.
    fold (Matrix4.makeRotationFromQuaternion (Quaternion_setFromEuler e)).
    rewrite makeRotationFromQuaternion_setFromEuler.
    apply setFromRotationMatrix_eulerMatrix, He.
Qed.

Lemma spun_zero (e : Euler.t) : spun 0 e = e.
Proof. destruct e; unfold spun; simpl. f_equal; ring. Qed.

(** ** Definedness of the decomposition *)

(** The rotation matrix of a unit quaternion is one from which
    [setFromRotationMatrix] extracts the quaternion without taking the
    root of, or dividing by, a number that is not positive. *)
Lemma setFromRotationMatrix_defined_of_quaternion (q : Quaternion.t) :
  unitq q ->
  Quaternion_setFromRotationMatrix_defined
    (Matrix4.makeRotationFromQuaternion q).
Proof.
  destruct q as [x y z w]. unfold unitq; simpl. intros Hu.
  unfold Quaternion_setFromRotationMatrix_defined,
    Matrix4.makeRotationFromQuaternion, Matrix4.compose; simpl.
  destruct (decide (0 < _)) as [Ht|Ht]; [lra|].
  destruct (decide (_ /\ _)) as [[H1 H2]|H12]; [nra|].
  destruct (decide (_ < _)) as [H3|H3]; [nra|].
  assert (Hz : z <> 0) by (intros ->; apply H12; nra).
  nra.
Qed.

(** [_m1] in terms of the scale that [decompose] reports. *)
Lemma unscaled_by_scale (m : Matrix4.t) :
  Matrix4_unscaled m
  = let s := (Matrix4_decompose m).2 in
    Matrix4.mk
      (Matrix4.te0 m * (1 / Vector3.x s)) (Matrix4.te1 m * (1 / Vector3.x s))
      (Matrix4.te2 m * (1 / Vector3.x s)) (Matrix4.te3 m)
      (Matrix4.te4 m * (1 / Vector3.y s)) (Matrix4.te5 m * (1 / Vector3.y s))
      (Matrix4.te6 m * (1 / Vector3.y s)) (Matrix4.te7 m)
      (Matrix4.te8 m * (1 / Vector3.z s)) (Matrix4.te9 m * (1 / Vector3.z s))
      (Matrix4.te10 m * (1 / Vector3.z s)) (Matrix4.te11 m)
      (Matrix4.te12 m) (Matrix4.te13 m) (Matrix4.te14 m) (Matrix4.te15 m).
Proof. reflexivity. Qed.

(** Dividing the columns of a composed matrix by its scale gives back
    the rotation matrix of its quaternion. *)
Lemma unscaled_compose (p : Vector3.t) (q : Quaternion.t) (s : R) :
  unitq q -> 0 < s ->
  Matrix4_unscaled (Matrix4.compose p q (Vector3.setScalar s))
  = Matrix4.compose p q (Vector3.mk 1 1 1).
Proof.
  intros Hu Hs. rewrite unscaled_by_scale.
  rewrite (decompose_compose p q s Hu Hs). cbn [snd].
  unfold Matrix4.compose, Vector3.setScalar; simpl.
  f_equal; field; lra.
Qed.

Lemma decompose_defined_compose (p : Vector3.t) (q : Quaternion.t) (s : R) :
  unitq q -> 0 < s ->
  Matrix4_decompose_defined (Matrix4.compose p q (Vector3.setScalar s)).
Proof.
  intros Hu Hs. unfold Matrix4_decompose_defined.
  rewrite (decompose_compose p q s Hu Hs). cbn [snd].
  rewrite (unscaled_compose p q s Hu Hs).
  unfold Vector3.setScalar; simpl.
  repeat split; try lra.
  pose proof (setFromRotationMatrix_defined_of_quaternion q Hu) as H.
  unfold Quaternion_setFromRotationMatrix_defined in *.
  unfold Matrix4.makeRotationFromQuaternion in H. simpl in *. exact H.
Qed.

(** ** The foliage generator *)

Section FoliageGenerator.

Variable count : nat.
Variable draws : nat -> R.

Lemma point_insert (arr : list R) (i : nat) (a b c : R) :
  (i * 3 + 3 <= length arr)%nat ->
  Foliage.point
    (<[(i * 3 + 2)%nat := c]> (<[(i * 3 + 1)%nat := b]> (<[(i * 3)%nat := a]> arr)))
    i
  = Some (Vector3.mk a b c).
Proof.
  intros Hl. unfold Foliage.point.
  rewrite list_lookup_insert_ne by lia.
  rewrite list_lookup_insert_ne by lia.
  rewrite list_lookup_insert_eq by lia.
  rewrite list_lookup_insert_ne by lia.
  rewrite list_lookup_insert_eq by (rewrite length_insert; lia).
  rewrite list_lookup_insert_eq by (rewrite !length_insert; lia).
  reflexivity.
Qed.

Lemma point_insert_ne (arr : list R) (i j : nat) (a b c : R) :
  i <> j ->
  Foliage.point
    (<[(i * 3 + 2)%nat := c]> (<[(i * 3 + 1)%nat := b]> (<[(i * 3)%nat := a]> arr)))
    j
  = Foliage.point arr j.
Proof.
  intros Hne. unfold Foliage.point.
  rewrite !list_lookup_insert_ne by lia. reflexivity.
Qed.

(** What one iteration does to the arrays and to the stream. *)
Lemma fill_eq (i : nat) (a : Foliage.Arrays) (k : nat) :
  Foliage.fill count i a draws k
  = (let c := chaosPoint (draws k) (draws (S k)) (draws (S (S k))) in
     let t := targetPoint count i in
     Foliage.mkArrays
       (<[(i * 3 + 2)%nat := Vector3.z c]>
          (<[(i * 3 + 1)%nat := Vector3.y c]>
             (<[(i * 3)%nat := Vector3.x c]> (Foliage.chaosPositions a))))
       (<[(i * 3 + 2)%nat := Vector3.z t]>
          (<[(i * 3 + 1)%nat := Vector3.y t]>
             (<[(i * 3)%nat := Vector3.x t]> (Foliage.targetPositions a))))
       (<[i := draws (S (S (S k)))]> (Foliage.randoms a)),
     S (S (S (S k)))).
Proof. reflexivity. Qed.

(** Points below the current index are left as they are. *)
Lemma generate_loop_before (n : nat) :
  forall (i k : nat) (a : Foliage.Arrays) (j : nat),
    (j < i)%nat ->
    let a' := (Foliage.generate_loop count n i a draws k).1 in
    Foliage.point (Foliage.chaosPositions a') j
    = Foliage.point (Foliage.chaosPositions a) j
    /\ Foliage.point (Foliage.targetPositions a') j
       = Foliage.point (Foliage.targetPositions a) j
    /\ Foliage.randoms a' !! j = Foliage.randoms a !! j.
Proof.
  induction n as [|n IH]; intros i k a j Hj.
  - simpl. split; [|split]; reflexivity.
  - simpl Foliage.generate_loop. unfold mbind, rand_bind.
    rewrite fill_eq. cbv zeta.
    set (a1 := Foliage.mkArrays _ _ _).
    destruct (IH (S i) (S (S (S (S k)))) a1 j ltac:(lia)) as [Bc [Bt Br]].
    rewrite Bc, Bt, Br. unfold a1; simpl.
    rewrite !point_insert_ne by lia.
    rewrite list_lookup_insert_ne by lia.
    split; [|split]; reflexivity.
Qed.

(** The state of the three arrays after the loop has run from index
    [i] for [n] iterations, starting with [k] draws consumed. *)
Lemma generate_loop_spec (n : nat) :
  forall (i k : nat) (a : Foliage.Arrays),
    ((i + n) * 3 <= length (Foliage.chaosPositions a))%nat ->
    ((i + n) * 3 <= length (Foliage.targetPositions a))%nat ->
    (i + n <= length (Foliage.randoms a))%nat ->
    let a' := (Foliage.generate_loop count n i a draws k).1 in
    length (Foliage.chaosPositions a') = length (Foliage.chaosPositions a)
    /\ length (Foliage.targetPositions a') = length (Foliage.targetPositions a)
    /\ length (Foliage.randoms a') = length (Foliage.randoms a)
    /\ forall j : nat,
         (i <= j < i + n)%nat ->
         let k' := (k + 4 * (j - i))%nat in
         Foliage.point (Foliage.chaosPositions a') j
         = Some (chaosPoint (draws k') (draws (S k')) (draws (S (S k'))))
         /\ Foliage.point (Foliage.targetPositions a') j
            = Some (targetPoint count j)
         /\ Foliage.randoms a' !! j = Some (draws (S (S (S k')))).
Proof.
  induction n as [|n IH]; intros i k a Hc Ht Hr.
  - simpl. split; [reflexivity|]. split; [reflexivity|].
    split; [reflexivity|]. intros j Hj. lia.
  - simpl Foliage.generate_loop. unfold mbind, rand_bind.
    rewrite fill_eq. cbv zeta.
    set (a1 := Foliage.mkArrays _ _ _).
    assert (Hc1 : length (Foliage.chaosPositions a1)
                  = length (Foliage.chaosPositions a))
      by (unfold a1; simpl; rewrite !length_insert; reflexivity).
    assert (Ht1 : length (Foliage.targetPositions a1)
                  = length (Foliage.targetPositions a))
      by (unfold a1; simpl; rewrite !length_insert; reflexivity).
    assert (Hr1 : length (Foliage.randoms a1) = length (Foliage.randoms a))
      by (unfold a1; simpl; rewrite !length_insert; reflexivity).
    destruct (IH (S i) (S (S (S (S k)))) a1) as [Lc [Lt [Lr Hj]]];
      try lia.
    split; [congruence|]. split; [congruence|]. split; [congruence|].
    intros j Hij.
    destruct (decide (j = i)) as [->|Hne].
    + replace (k + 4 * (i - i))%nat with k by lia.
      pose proof (generate_loop_before n (S i) (S (S (S (S k)))) a1 i
                    ltac:(lia)) as [Bc [Bt Br]].
      rewrite Bc, Bt, Br. unfold a1; simpl.
      rewrite !point_insert by lia.
      rewrite list_lookup_insert_eq by lia.
      split; [|split]; reflexivity.
    + destruct (Hj j ltac:(lia)) as [Pc [Pt Pr]].
      replace (S (S (S (S k))) + 4 * (j - S i))%nat
        with (k + 4 * (j - i))%nat in * by lia.
      split; [|split]; assumption.
Qed.

End FoliageGenerator.

(** ** Ranges of the sampled quantities *)

Lemma Rpower_unit (u e : R) : 0 < u < 1 -> 0 < e -> 0 < Rpower u e < 1.
Proof.
  intros Hu He. unfold Rpower. split; [apply exp_pos|].
  rewrite <- exp_0. apply exp_increasing.
  assert (ln u < 0) by (rewrite <- ln_1; apply ln_increasing; lra).
  nra.
Qed.

Lemma cbrt_unit (u : R) : 0 <= u < 1 -> 0 <= JsMath.cbrt u < 1.
Proof.
  intros Hu. unfold JsMath.cbrt.
  destruct (decide (0 < u)) as [Hp|Hp].
  - pose proof (Rpower_unit u (1 / 3) ltac:(lra) ltac:(lra)). lra.
  - destruct (decide (u < 0)); lra.
Qed.

Lemma pow_unit (u e : R) : 0 <= u < 1 -> 0 < e -> 0 <= JsMath.pow u e < 1.
Proof.
  intros Hu He. unfold JsMath.pow.
  destruct (decide (0 < u)) as [Hp|Hp]; [|lra].
  pose proof (Rpower_unit u e ltac:(lra) He). lra.
Qed.

(** A point given in spherical coordinates about (0, 5, 0) lies at
    distance [r] from that centre. *)
Lemma spherical_distance (r phi theta : R) :
  0 <= r ->
  Vector3.distanceTo
    (Vector3.mk (r * JsMath.sin phi * JsMath.cos theta)
                (r * JsMath.sin phi * JsMath.sin theta + 5)
                (r * JsMath.cos phi))
    (Vector3.mk 0 5 0)
  = r.
Proof.
  intros Hr. unfold Vector3.distanceTo, Vector3.distanceToSquared, JsMath.sqrt,
    JsMath.sin, JsMath.cos; simpl.
  pose proof (sin2_cos2 phi) as Hphi. pose proof (sin2_cos2 theta) as Hth.
  unfold Rsqr in Hphi, Hth.
  set (sp := Rtrigo_def.sin phi) in *. set (cp := Rtrigo_def.cos phi) in *.
  set (st := Rtrigo_def.sin theta) in *. set (ct := Rtrigo_def.cos theta) in *.
  replace (_ + _) with (r * r).
  - apply sqrt_square, Hr.
  - transitivity (r * r * (sp * sp * (st * st + ct * ct) + cp * cp)).
    + rewrite Hth. replace (sp * sp * 1 + cp * cp) with (sp * sp + cp * cp) by ring.
      rewrite Hphi. ring.
    + ring.
Qed.

(** ** The ornament generator *)

Section OrnamentGenerator.

Import Ornaments.

Variable draws : nat -> R.

(** The fields of an instance that depend on the first seven draws
    only. *)
Lemma makeInstance_fields (k : nat) :
  let d := (makeInstance draws k).1 in
  let yNorm := JsMath.pow (draws (S k)) 2.5 in
  let y := yNorm * height + 0.5 in
  let theta := y * 10 + draws (S (S k)) * JsMath.PI * 2 in
  let r := maxRadius * (1 - yNorm) + draws (S (S (S k))) * 0.5 in
  let cR := 15 + draws (S (S (S (S k)))) * 15 in
  let cTheta := draws (S (S (S (S (S k))))) * JsMath.PI * 2 in
  let cPhi := JsMath.acos (2 * draws (S (S (S (S (S (S k)))))) - 1) in
  type d = classify (draws k)
  /\ targetPos d
     = Vector3.mk (r * JsMath.cos theta) y (r * JsMath.sin theta)
  /\ chaosPos d
     = Vector3.mk (cR * JsMath.sin cPhi * JsMath.cos cTheta)
                  (cR * JsMath.sin cPhi * JsMath.sin cTheta + 5)
                  (cR * JsMath.cos cPhi)
  /\ (scale d = 0.15
      \/ exists j : nat, scale d = 0.2 + draws j * 0.25).
Proof.
  unfold makeInstance, mbind, rand_bind, mret, rand_ret, Math_random.
  cbv zeta.
  destruct (decide (classify (draws k) = light)); simpl;
    (split; [reflexivity|]); (split; [reflexivity|]);
    (split; [reflexivity|]); [left; reflexivity|right; eexists; reflexivity].
Qed.

Hypothesis uniform : uniform_draws draws.

Lemma makeInstance_in_range (k : nat) :
  let d := (makeInstance draws k).1 in in_range (type d) d.
Proof.
  intros d. destruct (makeInstance_fields k) as [_ [Ht [Hc Hs]]].
  fold d in Ht, Hc, Hs. unfold in_range.
  split; [reflexivity|]. split; [|split].
  - rewrite Hc, spherical_distance.
    + pose proof (uniform (S (S (S (S k))))). lra.
    + pose proof (uniform (S (S (S (S k))))). lra.
  - rewrite Ht. simpl.
    pose proof (pow_unit (draws (S k)) 2.5 (uniform (S k)) ltac:(lra)).
    unfold height. lra.
  - destruct Hs as [Hs|[j Hs]]; rewrite Hs; [lra|].
    pose proof (uniform j). lra.
Qed.

Lemma push_sorted (acc : Data) (d : InstanceData) :
  sorted acc -> in_range (type d) d ->
  sorted (push acc d) /\ total (push acc d) = S (total acc).
Proof.
  intros [Hb [Hg Hl]] Hd. unfold push, sorted, total.
  destruct (type d) eqn:E; simpl; rewrite ?length_app; simpl;
    (split; [|lia]); repeat split; try assumption;
    apply Forall_app; (split; [assumption|]);
    (apply Forall_cons; split; [assumption|constructor]).
Qed.

Lemma generate_loop_sorted (n : nat) :
  forall (acc : Data) (k : nat),
    sorted acc ->
    let acc' := (generate_loop n acc draws k).1 in
    sorted acc' /\ total acc' = (n + total acc)%nat.
Proof.
  induction n as [|n IH]; intros acc k Hacc.
  - simpl. split; [assumption|reflexivity].
  - simpl generate_loop. unfold mbind, rand_bind.
    pose proof (makeInstance_in_range k) as Hd. cbv zeta in Hd.
    destruct (makeInstance draws k) as [d k'].
    destruct (push_sorted acc d Hacc Hd) as [Hs Ht].
    destruct (IH (push acc d) k' Hs) as [Hs' Ht'].
    split; [exact Hs'|]. cbv zeta in Ht'. rewrite Ht', Ht. lia.
Qed.

End OrnamentGenerator.

(** * Properties of the specification *)

(** ** C1: two updates with delta = 0 *)

Lemma sample_once_position :
  Vector3_setFromMatrixPosition (Object3D.matrix Sample.once)
  = Vector3.mk 4.5 (0.5 + Rtrigo_def.sin 1 * 0.002) 0.
Proof.
  unfold Sample.once. rewrite updateInstance_matrix_position.
  unfold newPosition, lerped. rewrite Rmult_0_l, lerp_zero.
  assert (Hb : bobs true Sample.aBall (Vector3_setFromMatrixPosition Sample.onTarget) = true).
  { unfold bobs. apply andb_true_intro; split; [reflexivity|].
    apply bool_decide_eq_true_2. apply sqrt_lt_half.
    unfold Vector3.distanceToSquared; simpl. lra. }
  rewrite Hb. unfold bob. simpl. f_equal. f_equal. f_equal.
  unfold JsMath.sin. f_equal. lra.
Qed.

Lemma sample_twice_position :
  Vector3_setFromMatrixPosition (Object3D.matrix Sample.twice)
  = Vector3.mk 4.5 (0.5 + Rtrigo_def.sin 1 * 0.002 + Rtrigo_def.sin 1 * 0.002) 0.
Proof.
  unfold Sample.twice. rewrite updateInstance_matrix_position, sample_once_position.
  unfold newPosition, lerped. rewrite Rmult_0_l, lerp_zero.
  assert (Hb : bobs true Sample.aBall
                 (Vector3.mk 4.5 (0.5 + Rtrigo_def.sin 1 * 0.002) 0) = true).
  { unfold bobs. apply andb_true_intro; split; [reflexivity|].
    apply bool_decide_eq_true_2. apply sqrt_lt_half.
    unfold Vector3.distanceToSquared; simpl.
    pose proof (sin_abs_le 1) as Hs. unfold JsMath.sin in Hs. nra. }
  rewrite Hb. unfold bob. simpl. f_equal. f_equal. f_equal.
  unfold JsMath.sin. f_equal. lra.
Qed.

(** C1, refuted as stated: a ball resting on its formed target, updated
    twice in formed mode with delta = 0 at elapsed time 1/2, is written a
    different matrix by the second update: the idle offset of line 129 is
    added to its height once more. *)
Lemma C1_second_update_moves_resting_ball :
  Object3D.matrix Sample.twice <> Object3D.matrix Sample.once.
Proof.
  intros H. apply (f_equal Vector3_setFromMatrixPosition) in H.
  rewrite sample_once_position, sample_twice_position in H.
  injection H as H. pose proof sin_one_pos. lra.
Qed.

(** [lookAt(0, y, 0)] from a position at height [y] does not depend on
    that height. *)
Lemma facing_level (upv p : Vector3.t) (h : R) :
  facing upv (Vector3.mk (Vector3.x p) (Vector3.y p + h) (Vector3.z p))
  = facing upv p.
Proof.
  unfold facing, Matrix4.lookAt, Vector3.subVectors.
  cbn [Vector3.x Vector3.y Vector3.z].
  replace (Vector3.y p + h - (Vector3.y p + h)) with 0 by ring.
  replace (Vector3.y p - Vector3.y p) with 0 by ring.
  reflexivity.
Qed.

Lemma lifted_zero (M : Matrix4.t) : lifted M 0 = M.
Proof. destruct M. unfold lifted; simpl. f_equal. ring. Qed.

Lemma lifted_same (M : Matrix4.t) (h : R) : lifted M h = M <-> h = 0.
Proof.
  split.
  - intros H. apply (f_equal Matrix4.te13) in H. simpl in H. lra.
  - intros ->. apply lifted_zero.
Qed.

(** With delta = 0 the position written is the position read, raised by
    the idle offset when the condition of line 128 holds there. *)
Lemma newPosition_still (isFormed : bool) (time : R) (d : InstanceData)
    (p : Vector3.t) :
  newPosition isFormed time 0 d p
  = Vector3.mk (Vector3.x p)
      (Vector3.y p + (if bobs isFormed d p then bob time d else 0))
      (Vector3.z p).
Proof.
  unfold newPosition, lerped. rewrite Rmult_0_l, lerp_zero.
  destruct (bobs isFormed d p); destruct p; simpl; f_equal; ring.
Qed.

(** C1, amended: with delta = 0, same mode and same elapsed time, the
    second update writes the matrix the first one wrote, raised by the
    idle offset of line 129 if the position the first one wrote meets
    the condition of line 128, and by nothing otherwise: rotation, scale
    and horizontal position are never changed by the second update, and
    it changes nothing at all exactly when, at the position written by
    the first update, the offset is not applied or is zero.  For a gift
    this needs a positive scale, as every generated scale is, and a
    first matrix that [decompose] can take apart without dividing by
    zero (the first update then writes such a matrix again); whatever
    the shared scratch object held in between does not matter. *)
Theorem C1_second_update_repeats_unless_it_bobs (isFormed : bool)
    (time : R) (d : InstanceData) (m : Matrix4.t) (dm dm' : Object3D.t) :
  (type d = gift -> 0 < scale d /\ Matrix4_decompose_defined m) ->
  Object3D.up dm' = Object3D.up dm ->
  let once := Object3D.matrix (Ornaments.updateInstance isFormed time 0 d m dm) in
  let twice :=
    Object3D.matrix (Ornaments.updateInstance isFormed time 0 d once dm') in
  let again := bobs isFormed d (Vector3_setFromMatrixPosition once) in
  twice = lifted once (if again then bob time d else 0)
  /\ (twice = once <-> (again = true -> bob time d = 0))
  /\ (type d = gift -> Matrix4_decompose_defined once).
Proof.
  intros Hs Hup once twice again.
  set (p0 := newPosition isFormed time 0 d (Vector3_setFromMatrixPosition m)).
  set (h := if bobs isFormed d p0 then bob time d else 0).
  assert (Hagain : forall (q : Quaternion.t) (s : Vector3.t),
            Matrix4.compose (newPosition isFormed time 0 d p0) q s
            = lifted (Matrix4.compose p0 q s) h).
  { intros q s. rewrite newPosition_still. reflexivity. }
  assert (Hp : Vector3_setFromMatrixPosition once = p0)
    by apply updateInstance_matrix_position.
  assert (Htwice : twice = lifted once h).
  { destruct (decide (type d = gift)) as [Hg|Hg].
    - destruct (Hs Hg) as [Hpos _].
      assert (Honce : once
                      = Matrix4.compose p0
                          (Quaternion_setFromEuler (readRotation m))
                          (Vector3.setScalar (scale d))).
      { unfold once. rewrite updateInstance_matrix_gift by assumption.
        rewrite spun_zero. reflexivity. }
      unfold twice. rewrite updateInstance_matrix_gift by assumption.
      rewrite Hp, spun_zero, Honce.
      rewrite (readRotation_compose p0 (readRotation m) (scale d)
                 (readRotation_canonical m) Hpos).
      apply Hagain.
    - assert (Honce : once
                      = Matrix4.compose p0 (facing (Object3D.up dm) p0)
                          (Vector3.setScalar (newScale time d))).
      { unfold once. rewrite updateInstance_matrix_other by assumption.
        reflexivity. }
      unfold twice. rewrite updateInstance_matrix_other by assumption.
      cbv zeta. rewrite Hp, Hup, Honce.
      rewrite newPosition_still at 2. rewrite facing_level.
      apply Hagain. }
  split; [unfold again; rewrite Hp; exact Htwice|]. split.
  - rewrite Htwice, lifted_same. unfold again. rewrite Hp. unfold h.
    destruct (bobs isFormed d p0); split; intros H; auto; discriminate.
  - intros Hg. destruct (Hs Hg) as [Hpos _].
    unfold once. rewrite updateInstance_matrix_gift by assumption.
    apply decompose_defined_compose; [apply setFromEuler_unit|exact Hpos].
Qed.

Lemma bob_quarter : bob (PI / 4) Sample.aBall = 0.002.
Proof.
  unfold bob, JsMath.sin. simpl.
  replace (PI / 4 * 2 + 0) with (PI / 2) by field.
  rewrite sin_PI2. lra.
Qed.

Lemma bobs_near :
  bobs true Sample.aBall (Vector3.mk 4.5 0.9995 0) = true.
Proof.
  unfold bobs. apply andb_true_intro; split; [reflexivity|].
  apply bool_decide_eq_true_2. apply sqrt_lt_half.
  unfold Vector3.distanceToSquared; simpl. lra.
Qed.

Lemma bobs_lifted_out :
  bobs true Sample.aBall (Vector3.mk 4.5 (0.9995 + 0.002) 0) = false.
Proof.
  unfold bobs. simpl andb. apply bool_decide_eq_false_2.
  unfold Vector3.distanceTo, Vector3.distanceToSquared, JsMath.sqrt; simpl.
  match goal with |- ~ R_sqrt.sqrt ?t < _ =>
    replace t with (0.5015 * 0.5015) by lra end.
  rewrite sqrt_square by lra. lra.
Qed.

Lemma C1_second_update_repeats_unless_it_bobs_witness :
  let once :=
    Object3D.matrix
      (Ornaments.updateInstance true (PI / 4) 0 Sample.aBall Sample.nearTarget
         Object3D.new) in
  Vector3_setFromMatrixPosition once = Vector3.mk 4.5 (0.9995 + 0.002) 0
  /\ Object3D.matrix
       (Ornaments.updateInstance true (PI / 4) 0 Sample.aBall once
          Object3D.new) = once.
Proof.
  intros once.
  assert (Hp : Vector3_setFromMatrixPosition once
               = Vector3.mk 4.5 (0.9995 + 0.002) 0).
  { unfold once. rewrite updateInstance_matrix_position, newPosition_still.
    change (Vector3_setFromMatrixPosition Sample.nearTarget)
      with (Vector3.mk 4.5 0.9995 0).
    rewrite bobs_near, bob_quarter. reflexivity. }
  split; [exact Hp|].
  pose proof (C1_second_update_repeats_unless_it_bobs true (PI / 4)
                Sample.aBall Sample.nearTarget Object3D.new Object3D.new) as H.
  destruct H as [_ [H _]].
  - intros Hg. discriminate Hg.
  - reflexivity.
  - apply H. fold once. rewrite Hp, bobs_lifted_out. discriminate.
Defined.

(** ** C2: rotation by category *)

(** C2, refuted as stated: a ball standing at (4.5, 0.5, 0) is turned so
    that its forward direction is no positive multiple of the outward
    radial direction (4.5, 0, 0). *)
Lemma C2_ball_does_not_face_outward :
  let o := Sample.scattered Sample.aBall in
  let p := Object3D.position o in
  ~ exists k : R,
      0 < k /\
      forward (Object3D.matrix o)
      = Vector3.mk (k * Vector3.x p) 0 (k * Vector3.z p).
Proof.
  intros o p [k [Hk Hf]].
  assert (Hp : p = Vector3.mk 4.5 0.5 0).
  { unfold p, o, Sample.scattered. rewrite updateInstance_position.
    unfold newPosition, lerped, bobs. simpl.
    rewrite Rmult_0_l, lerp_zero. reflexivity. }
  assert (Hnp : newPosition false 0 0 Sample.aBall
                  (Vector3_setFromMatrixPosition Sample.onTarget) = Vector3.mk 4.5 0.5 0).
  { unfold newPosition, lerped, bobs. simpl.
    rewrite Rmult_0_l, lerp_zero. reflexivity. }
  pose proof (updateInstance_matrix_facing false 0 0 Sample.aBall Sample.onTarget
                Object3D.new ltac:(discriminate) eq_refl) as HM.
  cbv zeta in HM. rewrite Hnp in HM.
  specialize (HM ltac:(simpl; lra)).
  rewrite Hp in Hf. unfold o, Sample.scattered in Hf. rewrite HM in Hf.
  unfold forward in Hf. simpl in Hf.
  injection Hf as H8 _.
  assert (Hr : 0 < R_sqrt.sqrt (4.5 * 4.5 + 0 * 0)) by (apply sqrt_lt_R0; lra).
  unfold newScale in H8. simpl in H8.
  assert (Hneg : - 4.5 / R_sqrt.sqrt (4.5 * 4.5 + 0 * 0) < 0).
  { unfold Rdiv. apply Rmult_neg_pos; [lra|]. apply Rinv_0_lt_compat, Hr. }
  nra.
Qed.

(** C2, amended: a gift's Euler angles are those read back from its
    matrix with x advanced by 0.5 delta and y by 0.2 delta, and its
    quaternion follows them; a ball or a light that stands off the
    vertical axis is turned about the vertical so that its forward
    direction is a positive multiple of the vector from its own position
    to the point of the axis at its own height: it faces the axis. *)
Theorem C2_rotation_by_category (isFormed : bool) (time delta : R)
    (d : InstanceData) (m : Matrix4.t) (dm : Object3D.t) :
  let o := Ornaments.updateInstance isFormed time delta d m dm in
  (type d = gift ->
     let r := readRotation m in
     Object3D.rotation o
     = Euler.mk (Euler.x r + delta * 0.5) (Euler.y r + delta * 0.2) (Euler.z r)
     /\ Object3D.quaternion o = Quaternion_setFromEuler (Object3D.rotation o))
  /\ (type d <> gift ->
      Object3D.up dm = Vector3.mk 0 1 0 ->
      0 < scale d ->
      let p := Vector3_setFromMatrixPosition (Object3D.matrix o) in
      Vector3.x p * Vector3.x p + Vector3.z p * Vector3.z p <> 0 ->
      exists k : R,
        0 < k /\
        forward (Object3D.matrix o)
        = Vector3.mk (k * (0 - Vector3.x p)) 0 (k * (0 - Vector3.z p))).
Proof.
  intros o. split.
  - intros Hg r. split.
    + unfold o. rewrite updateInstance_rotation_gift by assumption.
      reflexivity.
    + unfold o, Ornaments.updateInstance, Object3D.decompose_matrix.
      destruct (Matrix4_decompose _) as [[p q] s].
      destruct (decide (type d = gift)) as [_|]; [|contradiction].
      destruct (decide (type d = light)) as [Hl|_]; [congruence|].
      destruct (isFormed && _); reflexivity.
  - intros Hg Hup Hs p Hoff.
    assert (Hp : p = newPosition isFormed time delta d
                       (Vector3_setFromMatrixPosition m)).
    { unfold p, o. apply updateInstance_matrix_position. }
    rewrite Hp in Hoff.
    pose proof (updateInstance_matrix_facing isFormed time delta d m dm
                  Hg Hup Hoff) as HM.
    pose proof (rho_pos _ Hoff) as Hr.
    pose proof (newScale_pos time d Hs) as Hn.
    rewrite <- Hp in HM, Hr. fold o in HM. clearbody p o.
    set (rho := R_sqrt.sqrt _) in *.
    exists (newScale time d / rho).
    split.
    + unfold Rdiv. apply Rmult_lt_0_compat; [assumption|].
      apply Rinv_0_lt_compat, Hr.
    + rewrite HM. unfold forward; simpl. f_equal; field; lra.
Qed.

Lemma C2_rotation_by_category_witness :
  (let o := Sample.scattered Sample.aGift in
   Object3D.quaternion o = Quaternion_setFromEuler (Object3D.rotation o))
  /\ (let o := Sample.scattered Sample.aBall in
      let p := Vector3_setFromMatrixPosition (Object3D.matrix o) in
      exists k : R,
        0 < k /\
        forward (Object3D.matrix o)
        = Vector3.mk (k * (0 - Vector3.x p)) 0 (k * (0 - Vector3.z p))).
Proof.
  split.
  - apply (C2_rotation_by_category false 0 0 Sample.aGift Sample.onTarget Object3D.new).
    reflexivity.
  - apply (C2_rotation_by_category false 0 0 Sample.aBall Sample.onTarget Object3D.new).
    + discriminate.
    + reflexivity.
    + simpl. lra.
    + unfold Sample.scattered. rewrite updateInstance_matrix_position.
      unfold newPosition, lerped. rewrite Rmult_0_l, lerp_zero.
      unfold bobs. simpl. lra.
Defined.

(** ** C3: the residual towards the target *)

Lemma lerp_distanceToSquared (p q : Vector3.t) (a : R) :
  Vector3.distanceToSquared (Vector3.lerp p q a) q
  = (1 - a) * (1 - a) * Vector3.distanceToSquared p q.
Proof. unfold Vector3.distanceToSquared, Vector3.lerp; simpl. ring. Qed.

Lemma distanceToSquared_nonneg (p q : Vector3.t) :
  0 <= Vector3.distanceToSquared p q.
Proof.
  unfold Vector3.distanceToSquared; cbv zeta.
  pose proof (Rle_0_sqr (Vector3.x p - Vector3.x q)).
  pose proof (Rle_0_sqr (Vector3.y p - Vector3.y q)).
  pose proof (Rle_0_sqr (Vector3.z p - Vector3.z q)).
  unfold Rsqr in *. lra.
Qed.

Lemma lerp_distanceTo (p q : Vector3.t) (a : R) :
  a <= 1 ->
  Vector3.distanceTo (Vector3.lerp p q a) q = (1 - a) * Vector3.distanceTo p q.
Proof.
  intros Ha. unfold Vector3.distanceTo, JsMath.sqrt.
  rewrite lerp_distanceToSquared.
  rewrite sqrt_mult; [|nra|apply distanceToSquared_nonneg].
  rewrite sqrt_square by lra. reflexivity.
Qed.

Lemma distanceTo_pos (p q : Vector3.t) :
  p <> q -> 0 < Vector3.distanceTo p q.
Proof.
  intros Hne. unfold Vector3.distanceTo, JsMath.sqrt. apply sqrt_lt_R0.
  destruct (Rle_lt_or_eq_dec _ _ (distanceToSquared_nonneg p q)) as [H|H];
    [assumption|].
  exfalso. apply Hne. destruct p as [a b c], q as [a' b' c'].
  unfold Vector3.distanceToSquared in H; simpl in H.
  pose proof (Rle_0_sqr (a - a')) as Ha.
  pose proof (Rle_0_sqr (b - b')) as Hb.
  pose proof (Rle_0_sqr (c - c')) as Hc.
  assert (a - a' = 0) by (apply Rsqr_0_uniq; unfold Rsqr in *; lra).
  assert (b - b' = 0) by (apply Rsqr_0_uniq; unfold Rsqr in *; lra).
  assert (c - c' = 0) by (apply Rsqr_0_uniq; unfold Rsqr in *; lra).
  f_equal; lra.
Qed.

(** C3, refuted as stated: a frame with the positive delta 2 takes the
    foliage progress from 0 to 3, past the target 1, and the residual
    grows from 1 to 2. *)
Lemma C3_long_frame_overshoots :
  Foliage.progressRef Sample.overshot = 3
  /\ Rabs (1 - Foliage.progressRef Foliage.initial)
     < Rabs (1 - Foliage.progressRef Sample.overshot).
Proof.
  assert (H : Foliage.progressRef Sample.overshot = 3).
  { unfold Sample.overshot, Foliage.useFrame, MathUtils.lerp; simpl. lra. }
  split; [exact H|]. rewrite H. simpl.
  rewrite (Rabs_left (1 - 3)) by lra. rewrite Rabs_right by lra. lra.
Qed.

(** C3, amended: when the interpolation factor of the frame lies strictly
    between 0 and 1 (delta < 2/3 s for the foliage, delta * speed < 1 for
    an ornament), a smoothed value that has not reached its target moves
    strictly closer to it without passing it: the new residual is the old
    one times (1 - factor).  For an ornament this holds on the frames on
    which the idle offset of line 129 is not applied. *)
Theorem C3_residual_shrinks_for_small_steps :
  (forall (mode : TreeMode) (elapsedTime delta : R) (st : Foliage.State),
      0 < delta * 1.5 < 1 ->
      let target := if TreeMode_eqb mode FORMED then 1 else 0 in
      let st' := Foliage.useFrame mode true elapsedTime delta st in
      Foliage.progressRef st <> target ->
      target - Foliage.progressRef st'
      = (1 - delta * 1.5) * (target - Foliage.progressRef st)
      /\ Rabs (target - Foliage.progressRef st')
         < Rabs (target - Foliage.progressRef st)
      /\ Foliage.progressRef st' <> target)
  /\ (forall (isFormed : bool) (time delta : R) (d : InstanceData)
             (m : Matrix4.t) (dm : Object3D.t),
         0 < delta * speed d < 1 ->
         let target := if isFormed then targetPos d else chaosPos d in
         let p := Vector3_setFromMatrixPosition m in
         let p' :=
           Vector3_setFromMatrixPosition
             (Object3D.matrix
                (Ornaments.updateInstance isFormed time delta d m dm)) in
         bobs isFormed d (lerped isFormed delta d p) = false ->
         p <> target ->
         Vector3.subVectors target p'
         = Vector3.multiplyScalar (Vector3.subVectors target p)
             (1 - delta * speed d)
         /\ Vector3.distanceTo p' target < Vector3.distanceTo p target
         /\ p' <> target).
Proof.
  split.
  - intros mode elapsedTime delta st Hd target st' Hne.
    assert (Heq : target - Foliage.progressRef st'
                  = (1 - delta * 1.5) * (target - Foliage.progressRef st)).
    { unfold st', Foliage.useFrame, MathUtils.lerp; simpl. fold target. ring. }
    split; [exact Heq|]. split.
    + rewrite Heq, Rabs_mult, (Rabs_right (1 - delta * 1.5)) by lra.
      assert (0 < Rabs (target - Foliage.progressRef st)).
      { apply Rabs_pos_lt. lra. }
      nra.
    + intros Hc. rewrite Hc in Heq.
      assert (target - Foliage.progressRef st <> 0) by lra. nra.
  - intros isFormed time delta d m dm Hd target p p' Hb Hne.
    assert (Hp' : p' = Vector3.lerp p target (delta * speed d)).
    { unfold p'. rewrite updateInstance_matrix_position.
      unfold newPosition. fold p. rewrite Hb. reflexivity. }
    pose proof (distanceTo_pos p target Hne) as Hpos.
    assert (Hdist : Vector3.distanceTo p' target
                    = (1 - delta * speed d) * Vector3.distanceTo p target).
    { rewrite Hp'. apply lerp_distanceTo. lra. }
    split; [|split].
    + rewrite Hp'. unfold Vector3.subVectors, Vector3.multiplyScalar,
        Vector3.lerp; simpl. f_equal; ring.
    + rewrite Hdist. nra.
    + intros Hc. rewrite Hc in Hdist.
      assert (H0 : Vector3.distanceTo target target = 0).
      { unfold Vector3.distanceTo, Vector3.distanceToSquared, JsMath.sqrt.
        replace (_ + _) with 0 by ring. apply sqrt_0. }
      rewrite H0 in Hdist. nra.
Qed.

Lemma C3_residual_shrinks_for_small_steps_witness :
  (let st' := Foliage.useFrame FORMED true 0 (1 / 60) Foliage.initial in
   Rabs (1 - Foliage.progressRef st') < Rabs (1 - Foliage.progressRef Foliage.initial))
  /\ (let p' :=
        Vector3_setFromMatrixPosition
          (Object3D.matrix
             (Ornaments.updateInstance false 0 (1 / 60) Sample.aBall Sample.onTarget
                Object3D.new)) in
      Vector3.distanceTo p' (chaosPos Sample.aBall)
      < Vector3.distanceTo (Vector3_setFromMatrixPosition Sample.onTarget) (chaosPos Sample.aBall)).
Proof.
  split.
  - apply (proj1 C3_residual_shrinks_for_small_steps FORMED 0 (1 / 60)
             Foliage.initial).
    + lra.
    + simpl. lra.
  - apply (proj2 C3_residual_shrinks_for_small_steps false 0 (1 / 60) Sample.aBall
             Sample.onTarget Object3D.new).
    + simpl. lra.
    + reflexivity.
    + simpl. intros H. injection H as H _. lra.
Defined.

(** ** C4: the range of the foliage progress *)

(** C4, refuted as stated: a single frame in formed mode with the
    non-negative delta 1 takes the progress from 0 to 1.5. *)
Lemma C4_long_frame_leaves_unit_interval :
  0 <= 1
  /\ Foliage.progressRef (Run.ticks [Run.mkFrame FORMED true 1 1]) = 1.5
  /\ ~ Run.in_unit (Run.ticks [Run.mkFrame FORMED true 1 1]).
Proof.
  assert (H : Foliage.progressRef (Run.ticks [Run.mkFrame FORMED true 1 1]) = 1.5).
  { unfold Run.ticks, Run.tick, Foliage.useFrame, MathUtils.lerp; simpl. lra. }
  split; [lra|]. split; [exact H|].
  unfold Run.in_unit. rewrite H. lra.
Qed.

Lemma tick_in_unit (st : Foliage.State) (f : Run.Frame) :
  Run.short f -> Run.in_unit st -> Run.in_unit (Run.tick st f).
Proof.
  unfold Run.short, Run.in_unit, Run.tick, Foliage.useFrame, MathUtils.lerp.
  intros Hf Hst. destruct (Run.meshRef f); [|assumption].
  simpl. destruct (TreeMode_eqb (Run.mode f) FORMED); nra.
Qed.

(** C4, amended: the progress starts at 0 and stays in [0, 1] after
    every update of any run of frames, with any mode and any state of the
    mesh handle per frame, as long as every delta satisfies
    0 <= 1.5 delta <= 1; the uniform handed to the shader then lies in
    [0, 1] as well. *)
Theorem C4_progress_in_unit_interval (frames : list Run.Frame) :
  Forall Run.short frames ->
  Foliage.progressRef Foliage.initial = 0
  /\ Run.in_unit (Run.ticks frames)
  /\ 0 <= Foliage.uProgress (Run.ticks frames) <= 1.
Proof.
  intros Hf. split; [reflexivity|]. unfold Run.ticks.
  assert (Hinv : forall st,
             Run.in_unit st /\ Foliage.uProgress st = Foliage.progressRef st ->
             Run.in_unit (fold_left Run.tick frames st)
             /\ Foliage.uProgress (fold_left Run.tick frames st)
                = Foliage.progressRef (fold_left Run.tick frames st)).
  { induction frames as [|f frames IH]; intros st [Hst Hu]; [auto|].
    inversion Hf as [|? ? Hs Hrest]; subst.
    simpl. apply (IH Hrest). split; [apply tick_in_unit; assumption|].
    unfold Run.tick, Foliage.useFrame. destruct (Run.meshRef f); [reflexivity|].
    assumption. }
  destruct (Hinv Foliage.initial) as [H1 H2].
  { split; [unfold Run.in_unit; simpl; lra|reflexivity]. }
  split; [assumption|]. rewrite H2. exact H1.
Qed.

Lemma C4_progress_in_unit_interval_witness :
  Run.in_unit
    (Run.ticks [Run.mkFrame FORMED true 0 (1 / 60);
               Run.mkFrame CHAOS true (1 / 60) (1 / 2);
               Run.mkFrame FORMED false (1 / 2) 0]).
Proof.
  apply (C4_progress_in_unit_interval
           [Run.mkFrame FORMED true 0 (1 / 60);
            Run.mkFrame CHAOS true (1 / 60) (1 / 2);
            Run.mkFrame FORMED false (1 / 2) 0]).
  repeat constructor; unfold Run.short; simpl; lra.
Defined.

(** ** C6: the category thresholds and the split *)

Lemma classify_cases (u : R) :
  (u <= 0.8 /\ Ornaments.classify u = ball)
  \/ (0.8 < u <= 0.9 /\ Ornaments.classify u = gift)
  \/ (0.9 < u /\ Ornaments.classify u = light).
Proof.
  unfold Ornaments.classify.
  destruct (decide (0.8 < u)), (decide (0.9 < u)); try lra.
  - right. right. split; [lra|reflexivity].
  - right. left. split; [lra|reflexivity].
  - left. split; [lra|reflexivity].
Qed.

Lemma tally_segment (ty : OrnamentType) (N a len : nat) :
  (forall k : nat, (a <= k < a + len)%nat ->
                   Ornaments.classify (INR k / INR N) = ty) ->
  tally ty ((fun k : nat => INR k / INR N) <$> seq a len) = len.
Proof.
  revert a. induction len as [|len IH]; intros a H; [reflexivity|].
  unfold tally in *. simpl. rewrite filter_cons_True by (apply H; lia).
  simpl. f_equal. apply IH. intros k Hk. apply H. lia.
Qed.

Lemma tally_segment_none (ty : OrnamentType) (N a len : nat) :
  (forall k : nat, (a <= k < a + len)%nat ->
                   Ornaments.classify (INR k / INR N) <> ty) ->
  tally ty ((fun k : nat => INR k / INR N) <$> seq a len) = 0%nat.
Proof.
  revert a. induction len as [|len IH]; intros a H; [reflexivity|].
  unfold tally in *. simpl. rewrite filter_cons_False by (apply H; lia).
  apply IH. intros k Hk. apply H. lia.
Qed.

Lemma tally_app (ty : OrnamentType) (l1 l2 : list R) :
  tally ty (l1 ++ l2) = (tally ty l1 + tally ty l2)%nat.
Proof. unfold tally. rewrite filter_app, length_app. reflexivity. Qed.

Lemma even_ratio (n k : nat) :
  (0 < n)%nat -> INR k / INR (10 * n) = INR k / (10 * INR n) /\ 0 < INR n.
Proof.
  intros Hn. assert (0 < INR n) by (apply lt_0_INR; assumption).
  split; [|assumption]. rewrite mult_INR.
  replace (INR 10) with 10 by (rewrite INR_IZR_INZ; reflexivity). reflexivity.
Qed.

Lemma evenDraws_split (n : nat) :
  (0 < n)%nat ->
  evenDraws (10 * n)
  = ((fun k : nat => INR k / INR (10 * n)) <$> seq 0 (8 * n + 1))
    ++ ((fun k : nat => INR k / INR (10 * n)) <$> seq (8 * n + 1) n)
    ++ ((fun k : nat => INR k / INR (10 * n)) <$> seq (9 * n + 1) (n - 1)).
Proof.
  intros Hn. unfold evenDraws. rewrite <- !fmap_app. f_equal.
  replace (10 * n)%nat with ((8 * n + 1) + (n + (n - 1)))%nat by lia.
  rewrite (seq_app (8 * n + 1) (n + (n - 1)) 0).
  rewrite (seq_app n (n - 1) (0 + (8 * n + 1))).
  replace (0 + (8 * n + 1))%nat with (8 * n + 1)%nat by lia.
  replace (8 * n + 1 + n)%nat with (9 * n + 1)%nat by lia.
  reflexivity.
Qed.

(** Of 10 n evenly spread draws, the first 8 n + 1 are balls, the next n
    gifts and the last n - 1 lights. *)
Lemma evenDraws_tally (n : nat) :
  (0 < n)%nat ->
  tally ball (evenDraws (10 * n)) = (8 * n + 1)%nat
  /\ tally gift (evenDraws (10 * n)) = n
  /\ tally light (evenDraws (10 * n)) = (n - 1)%nat.
Proof.
  intros Hn. rewrite (evenDraws_split n Hn), !tally_app.
  assert (Hscale : forall k : nat,
             let u := INR k / INR (10 * n) in
             INR k = u * (10 * INR n) /\ 0 < INR n).
  { intros k u. unfold u. destruct (even_ratio n k Hn) as [-> Hp].
    split; [field; lra|assumption]. }
  assert (Hb : forall k, (0 <= k < 0 + (8 * n + 1))%nat ->
                 Ornaments.classify (INR k / INR (10 * n)) = ball).
  { intros k Hk. destruct (Hscale k) as [Hu Hp]. cbv zeta in Hu.
    assert (H8 : INR k <= INR (8 * n)) by (apply le_INR; lia).
    rewrite mult_INR in H8.
    replace (INR 8) with 8 in H8 by (rewrite INR_IZR_INZ; reflexivity).
    set (u := INR k / INR (10 * n)) in *.
    destruct (classify_cases u) as [[_ H']|[[Hc _]|[Hc _]]];
      [assumption| |]; exfalso; nra. }
  assert (Hg : forall k, (8 * n + 1 <= k < 8 * n + 1 + n)%nat ->
                 Ornaments.classify (INR k / INR (10 * n)) = gift).
  { intros k Hk. destruct (Hscale k) as [Hu Hp]. cbv zeta in Hu.
    assert (H8 : INR (8 * n + 1) <= INR k) by (apply le_INR; lia).
    assert (H9 : INR k <= INR (9 * n)) by (apply le_INR; lia).
    rewrite plus_INR, mult_INR in H8. rewrite mult_INR in H9.
    replace (INR 8) with 8 in H8 by (rewrite INR_IZR_INZ; reflexivity).
    replace (INR 9) with 9 in H9 by (rewrite INR_IZR_INZ; reflexivity).
    replace (INR 1) with 1 in H8 by reflexivity.
    set (u := INR k / INR (10 * n)) in *.
    destruct (classify_cases u) as [[Hc _]|[[_ H']|[Hc _]]];
      [|assumption|]; exfalso; nra. }
  assert (Hl : forall k, (9 * n + 1 <= k < 9 * n + 1 + (n - 1))%nat ->
                 Ornaments.classify (INR k / INR (10 * n)) = light).
  { intros k Hk. destruct (Hscale k) as [Hu Hp]. cbv zeta in Hu.
    assert (H9 : INR (9 * n + 1) <= INR k) by (apply le_INR; lia).
    rewrite plus_INR, mult_INR in H9.
    replace (INR 9) with 9 in H9 by (rewrite INR_IZR_INZ; reflexivity).
    replace (INR 1) with 1 in H9 by reflexivity.
    set (u := INR k / INR (10 * n)) in *.
    destruct (classify_cases u) as [[Hc _]|[[[_ Hc] _]|[_ H']]];
      [| |assumption]; exfalso; nra. }
  split; [|split].
  - rewrite (tally_segment ball _ _ _ Hb).
    rewrite !tally_segment_none; [lia| |];
      intros k Hk; [rewrite Hl|rewrite Hg]; (discriminate || assumption).
  - rewrite (tally_segment gift _ _ _ Hg).
    rewrite !tally_segment_none; [lia| |];
      intros k Hk; [rewrite Hl|rewrite Hb]; (discriminate || assumption).
  - rewrite (tally_segment light _ _ _ Hl).
    rewrite !tally_segment_none; [lia| |];
      intros k Hk; [rewrite Hg|rewrite Hb]; (discriminate || assumption).
Qed.

Lemma tally_cons (ty : OrnamentType) (u : R) (us : list R) :
  tally ty (u :: us)
  = ((if decide (Ornaments.classify u = ty) then 1 else 0) + tally ty us)%nat.
Proof.
  unfold tally. destruct (decide (Ornaments.classify u = ty)) as [H|H].
  - rewrite filter_cons_True by assumption. reflexivity.
  - rewrite filter_cons_False by assumption. reflexivity.
Qed.

Lemma tally_Permutation (ty : OrnamentType) (us vs : list R) :
  us ≡ₚ vs -> tally ty us = tally ty vs.
Proof. intros H. unfold tally. rewrite H. reflexivity. Qed.

Lemma push_dataOf (ty : OrnamentType) (acc : Ornaments.Data)
    (d : InstanceData) :
  dataOf ty (Ornaments.push acc d)
  = if decide (type d = ty) then dataOf ty acc ++ [d] else dataOf ty acc.
Proof.
  destruct (decide (type d = ty)) as [H|H]; unfold Ornaments.push;
    destruct (type d), ty; try discriminate; try contradiction;
    reflexivity.
Qed.

(** Every list of the generator grows by the instances whose category
    draw falls in its category, and holds instances of that category
    only. *)
Lemma generate_loop_tally (ty : OrnamentType) (draws : nat -> R) (n : nat) :
  forall (acc : Ornaments.Data) (k : nat),
    Forall (fun d => type d = ty) (dataOf ty acc) ->
    let acc' := (Ornaments.generate_loop n acc draws k).1 in
    Forall (fun d => type d = ty) (dataOf ty acc')
    /\ length (dataOf ty acc')
       = (length (dataOf ty acc) + tally ty (categoryDraws draws n k))%nat.
Proof.
  induction n as [|n IH]; intros acc k Hacc.
  - simpl. split; [exact Hacc|]. unfold tally; simpl. lia.
  - cbn [categoryDraws]. rewrite tally_cons.
    pose proof (makeInstance_fields draws k) as Hf. cbv zeta in Hf.
    destruct Hf as [Hty _].
    change (Ornaments.generate_loop (S n) acc draws k)
      with (let '(d, k') := Ornaments.makeInstance draws k in
            Ornaments.generate_loop n (Ornaments.push acc d) draws k').
    destruct (Ornaments.makeInstance draws k) as [d k'] eqn:E.
    cbn [fst snd] in *.
    specialize (IH (Ornaments.push acc d) k').
    rewrite push_dataOf in IH. rewrite <- Hty.
    destruct (decide (type d = ty)) as [H|H].
    + destruct IH as [IH1 IH2].
      { apply Forall_app; split; [exact Hacc|].
        apply Forall_cons; split; [exact H|apply Forall_nil; exact I]. }
      split; [exact IH1|]. rewrite IH2, length_app. simpl. lia.
    + destruct (IH Hacc) as [IH1 IH2].
      split; [exact IH1|]. rewrite IH2. lia.
Qed.

(** An instance takes ten draws if it is a light and twelve otherwise. *)
Lemma makeInstance_next (draws : nat -> R) (k : nat) :
  (Ornaments.makeInstance draws k).2
  = (k + (if decide (Ornaments.classify (draws k) = light)
          then 10 else 12))%nat.
Proof.
  unfold Ornaments.makeInstance, mbind, rand_bind, mret, rand_ret,
    Math_random. cbv zeta.
  destruct (decide (Ornaments.classify (draws k) = light)); simpl; lia.
Qed.

(** Replaying a script, the generator draws its categories from the
    list the script was written from. *)
Lemma categoryDraws_script (us : list R) :
  forall (pre tail : list R),
    categoryDraws (replay (pre ++ script us ++ tail)) (length us) (length pre)
    = us.
Proof.
  induction us as [|u rest IH]; intros pre tail; [reflexivity|].
  cbn [categoryDraws length script].
  set (filler := replicate (if decide (Ornaments.classify u = light)
                            then 9%nat else 11%nat) (1 / 2)).
  set (draws := replay (pre ++ (u :: filler ++ script rest) ++ tail)).
  assert (Hu : draws (length pre) = u).
  { unfold draws, replay. rewrite lookup_app_r by lia.
    rewrite Nat.sub_diag. reflexivity. }
  rewrite Hu. f_equal.
  assert (Hnext : (Ornaments.makeInstance draws (length pre)).2
                  = length (pre ++ u :: filler)).
  { rewrite makeInstance_next, Hu, length_app. cbn [length]. unfold filler.
    rewrite length_replicate.
    destruct (decide (Ornaments.classify u = light)); lia. }
  rewrite Hnext. unfold draws.
  replace (pre ++ (u :: filler ++ script rest) ++ tail)
    with ((pre ++ u :: filler) ++ script rest ++ tail).
  - apply IH.
  - rewrite <- !app_assoc. simpl. rewrite <- !app_assoc. reflexivity.
Qed.

Lemma length_evenDraws (N : nat) : length (evenDraws N) = N.
Proof. unfold evenDraws. rewrite length_fmap, length_seq. reflexivity. Qed.

(** C6: the generator sorts every instance by its category draw, the
    first draw the instance takes: each list holds instances of its own
    category only, and as many of them as there are category draws in
    that category, a draw of at most 0.8 giving a ball, a draw above 0.8
    and at most 0.9 a gift, and a draw above 0.9 a light.  So when the
    category draws of 10 n instances are the 10 n evenly spread values
    0, 1/(10 n), ..., in any order, the generator yields 8 n + 1 balls,
    n gifts and n - 1 lights: a split of 80/10/10 up to one instance. *)
Theorem C6_generator_sorts_by_category_draw (N : nat) (draws : nat -> R) :
  let data := run (Ornaments.generate N) draws in
  let us := categoryDraws draws N 0 in
  (forall ty : OrnamentType,
     Forall (fun d => type d = ty) (dataOf ty data)
     /\ length (dataOf ty data) = tally ty us)
  /\ (forall u : R,
        (Ornaments.classify u = ball <-> u <= 0.8)
        /\ (Ornaments.classify u = gift <-> 0.8 < u <= 0.9)
        /\ (Ornaments.classify u = light <-> 0.9 < u))
  /\ (forall n : nat,
        (0 < n)%nat -> us ≡ₚ evenDraws (10 * n) ->
        length (Ornaments.ballsData data) = (8 * n + 1)%nat
        /\ length (Ornaments.giftsData data) = n
        /\ length (Ornaments.lightsData data) = (n - 1)%nat).
Proof.
  intros data us.
  assert (Hsplit : forall ty : OrnamentType,
             Forall (fun d => type d = ty) (dataOf ty data)
             /\ length (dataOf ty data) = tally ty us).
  { intros ty.
    destruct (generate_loop_tally ty draws N (Ornaments.mkData [] [] []) 0)
      as [H1 H2].
    - destruct ty; apply Forall_nil; exact I.
    - split; [exact H1|]. unfold data, run, Ornaments.generate.
      rewrite H2. destruct ty; reflexivity. }
  split; [exact Hsplit|]. split.
  - intros u.
    destruct (classify_cases u) as [[Hr Hc]|[[Hr Hc]|[Hr Hc]]];
      rewrite Hc; (split; [|split]); split; intros Hx;
      try discriminate; try reflexivity; lra.
  - intros n Hn Hperm.
    destruct (evenDraws_tally n Hn) as [Tb [Tg Tl]].
    pose proof (Hsplit ball) as [_ Lb].
    pose proof (Hsplit gift) as [_ Lg].
    pose proof (Hsplit light) as [_ Ll].
    cbn [dataOf] in Lb, Lg, Ll.
    rewrite (tally_Permutation ball _ _ Hperm) in Lb.
    rewrite (tally_Permutation gift _ _ Hperm) in Lg.
    rewrite (tally_Permutation light _ _ Hperm) in Ll.
    rewrite Lb, Lg, Ll. auto.
Qed.

Lemma C6_generator_sorts_by_category_draw_witness :
  let data :=
    run (Ornaments.generate 20) (replay (script (evenDraws 20))) in
  length (Ornaments.ballsData data) = 17%nat
  /\ length (Ornaments.giftsData data) = 2%nat
  /\ length (Ornaments.lightsData data) = 1%nat.
Proof.
  pose proof (C6_generator_sorts_by_category_draw 20 (replay (script (evenDraws 20))))
    as [_ [_ H]].
  apply (H 2%nat); [lia|].
  pose proof (categoryDraws_script (evenDraws 20) [] []) as Hc.
  rewrite length_evenDraws in Hc. cbn [app length] in Hc.
  rewrite app_nil_r in Hc. rewrite Hc. reflexivity.
Defined.

(** ** C7: the foliage target positions *)

(** C7: for every index i below count, the i-th target point written by
    the generator is (radius cos(angle), y, radius sin(angle)) with
    angle = 2 pi phi i, phi the golden ratio (1 + sqrt 5) / 2,
    y = (i / count) 12 and radius = 5 (1 - i / count). *)
Theorem C7_target_on_golden_spiral (count : nat) (draws : nat -> R) (i : nat) :
  (i < count)%nat ->
  let phi := (1 + R_sqrt.sqrt 5) / 2 in
  let angle := 2 * Rtrigo1.PI * phi * INR i in
  let y := INR i / INR count * 12 in
  let radius := 5 * (1 - INR i / INR count) in
  Foliage.point (Foliage.targetPositions (run (Foliage.generate count) draws)) i
  = Some (Vector3.mk (radius * Rtrigo_def.cos angle) y
                     (radius * Rtrigo_def.sin angle)).
Proof.
  intros Hi phi angle y radius. unfold run, Foliage.generate.
  destruct (generate_loop_spec count draws count 0 0
              (Foliage.mkArrays (replicate (count * 3) 0)
                 (replicate (count * 3) 0) (replicate count 0)))
    as [_ [_ [_ Hj]]]; simpl; rewrite ?length_replicate; try lia.
  destruct (Hj i ltac:(lia)) as [_ [Ht _]].
  simpl in Ht. rewrite Ht. unfold targetPoint.
  unfold Foliage.maxRadius, Foliage.height, Foliage.goldenRatio,
    JsMath.cos, JsMath.sin, JsMath.PI, JsMath.sqrt.
  fold phi. fold angle. f_equal. f_equal; unfold radius; ring.
Qed.

Lemma C7_target_on_golden_spiral_witness :
  Foliage.point
    (Foliage.targetPositions (run (Foliage.generate 4) (fun _ => 1 / 2))) 1
  = Some (Vector3.mk
            (5 * (1 - INR 1 / INR 4)
             * Rtrigo_def.cos (2 * Rtrigo1.PI * ((1 + R_sqrt.sqrt 5) / 2) * INR 1))
            (INR 1 / INR 4 * 12)
            (5 * (1 - INR 1 / INR 4)
             * Rtrigo_def.sin (2 * Rtrigo1.PI * ((1 + R_sqrt.sqrt 5) / 2) * INR 1))).
Proof.
  apply (C7_target_on_golden_spiral 4 (fun _ => 1 / 2) 1). lia.
Defined.

(** ** C8: counts and ranges of the generated data *)

Lemma Rpower_099 : 0.96 < Rpower 0.99 2.5.
Proof.
  apply Rlt_trans with (Rpower 0.99 (INR 3)).
  - rewrite Rpower_pow by lra. simpl. lra.
  - unfold Rpower. apply exp_increasing.
    assert (ln 0.99 < 0) by (rewrite <- ln_1; apply ln_increasing; lra).
    simpl. nra.
Qed.

(** C8, refuted as stated: with every draw equal to 0.99 the single
    instance generated for count = 1 is a light whose target height,
    0.99^2.5 * 11 + 0.5, exceeds the configured height 11. *)
Lemma C8_ornament_target_above_height :
  uniform_draws (fun _ => 0.99)
  /\ exists d : InstanceData,
       Ornaments.lightsData (run (Ornaments.generate 1) (fun _ => 0.99)) = [d]
       /\ Ornaments.height < Vector3.y (targetPos d).
Proof.
  split; [intros n; lra|].
  pose proof (makeInstance_fields (fun _ => 0.99) 0) as H. cbv zeta in H.
  destruct H as [Hty [Ht _]].
  unfold run, Ornaments.generate. simpl Ornaments.generate_loop.
  unfold mbind, rand_bind.
  destruct (Ornaments.makeInstance (fun _ => 0.99) 0%nat) as [d k].
  simpl in Hty, Ht.
  assert (Hl : type d = light).
  { rewrite Hty. unfold Ornaments.classify.
    destruct (decide (0.8 < 0.99)); [|lra].
    destruct (decide (0.9 < 0.99)); [reflexivity|lra]. }
  exists d. split.
  - simpl. unfold Ornaments.push. rewrite Hl. reflexivity.
  - rewrite Ht. simpl. unfold JsMath.pow, Ornaments.height.
    destruct (decide (0 < 0.99)); [|lra].
    pose proof Rpower_099. lra.
Qed.

Lemma INR_ratio_unit (i n : nat) : (i < n)%nat -> 0 <= INR i / INR n < 1.
Proof.
  intros Hi. assert (Hn : 0 < INR n) by (apply lt_0_INR; lia).
  assert (Hi0 : 0 <= INR i) by apply pos_INR.
  assert (Hin : INR i < INR n) by (apply lt_INR; assumption).
  split.
  - apply Rmult_le_pos; [assumption|]. apply Rlt_le, Rinv_0_lt_compat, Hn.
  - apply Rmult_lt_reg_r with (INR n); [assumption|].
    unfold Rdiv. rewrite Rmult_assoc, Rinv_l by lra. lra.
Qed.

(** C8, amended: for every count N the foliage generator fills arrays of
    exactly N chaos points, N target points and N random scalars, and the
    ornament generator produces exactly N instances, each in the list of
    its own category; every foliage chaos point lies within distance 25
    of (0, 5, 0) and every ornament chaos point within distance 30 (and at
    least 15) of (0, 5, 0); every foliage target height lies in [0, 12]
    and every ornament target height in [0.5, 11.5], that is, up to the
    configured height 11 raised by the base offset 0.5. *)
Theorem C8_generated_counts_and_ranges (N : nat) (draws : nat -> R) :
  uniform_draws draws ->
  let a := run (Foliage.generate N) draws in
  let o := run (Ornaments.generate N) draws in
  (length (Foliage.chaosPositions a) = (N * 3)%nat
   /\ length (Foliage.targetPositions a) = (N * 3)%nat
   /\ length (Foliage.randoms a) = N
   /\ forall i : nat,
        (i < N)%nat ->
        exists (c t : Vector3.t) (u : R),
          Foliage.point (Foliage.chaosPositions a) i = Some c
          /\ Foliage.point (Foliage.targetPositions a) i = Some t
          /\ Foliage.randoms a !! i = Some u
          /\ Vector3.distanceTo c (Vector3.mk 0 5 0) <= 25
          /\ 0 <= Vector3.y t <= Foliage.height
          /\ 0 <= u < 1)
  /\ (length (Ornaments.ballsData o) + length (Ornaments.giftsData o)
      + length (Ornaments.lightsData o) = N)%nat
  /\ Forall (in_range ball) (Ornaments.ballsData o)
  /\ Forall (in_range gift) (Ornaments.giftsData o)
  /\ Forall (in_range light) (Ornaments.lightsData o).
Proof.
  intros Hu a o. split.
  - unfold a, run, Foliage.generate.
    destruct (generate_loop_spec N draws N 0 0
                (Foliage.mkArrays (replicate (N * 3) 0)
                   (replicate (N * 3) 0) (replicate N 0)))
      as [Lc [Lt [Lr Hj]]]; simpl; rewrite ?length_replicate; try lia.
    simpl in Lc, Lt, Lr. rewrite length_replicate in Lc, Lt, Lr.
    split; [exact Lc|]. split; [exact Lt|]. split; [exact Lr|].
    intros i Hi. destruct (Hj i ltac:(lia)) as [Pc [Pt Pr]].
    cbv zeta in Pc, Pt, Pr.
    set (k' := (0 + 4 * (i - 0))%nat) in *.
    eexists. eexists. eexists.
    split; [exact Pc|]. split; [exact Pt|]. split; [exact Pr|].
    split; [|split].
    + unfold chaosPoint.
      pose proof (cbrt_unit _ (Hu k')) as Hc.
      rewrite spherical_distance; lra.
    + unfold targetPoint, Foliage.height. simpl.
      pose proof (INR_ratio_unit i N Hi). lra.
    + apply Hu.
  - unfold o, run, Ornaments.generate.
    destruct (generate_loop_sorted draws Hu N (Ornaments.mkData [] [] []) 0)
      as [[Hb [Hg Hl]] Ht].
    { unfold sorted; simpl. repeat split; constructor. }
    split; [|split; [|split]]; try assumption.
    unfold total in Ht. simpl in Ht. lia.
Qed.

Lemma C8_generated_counts_and_ranges_witness :
  let a := run (Foliage.generate 3) (fun _ => 1 / 2) in
  let o := run (Ornaments.generate 3) (fun _ => 1 / 2) in
  length (Foliage.chaosPositions a) = 9%nat
  /\ (length (Ornaments.ballsData o) + length (Ornaments.giftsData o)
      + length (Ornaments.lightsData o) = 3)%nat
  /\ Forall (in_range ball) (Ornaments.ballsData o).
Proof.
  pose proof (C8_generated_counts_and_ranges 3 (fun _ => 1 / 2)) as H.
  destruct H as [[Lc _] [Ht [Hb _]]].
  - intros n. lra.
  - split; [exact Lc|]. split; [exact Ht|exact Hb].
Defined.

(** ** C9: the guard on the mesh reference *)

(** C9: with [ref.current] absent, [updateMesh] returns at line 117: the
    reference stays absent and the shared scratch object is handed on
    untouched; a frame during which all three references are absent
    leaves the whole state of the component as it was, and a frame during
    which one reference is absent leaves that reference absent. *)
Theorem C9_absent_mesh_is_skipped (isFormed : bool) (mode : TreeMode)
    (time delta : R) (data : list InstanceData) (all : Ornaments.Data)
    (dm : Object3D.t) (g l : option InstancedMesh.t) :
  Ornaments.updateMesh isFormed time delta None data dm = (None, dm)
  /\ Ornaments.useFrame mode all time delta (Ornaments.mkState None None None dm)
     = Ornaments.mkState None None None dm
  /\ Ornaments.ballsRef
       (Ornaments.useFrame mode all time delta (Ornaments.mkState None g l dm))
     = None
  /\ Ornaments.giftsRef
       (Ornaments.useFrame mode all time delta (Ornaments.mkState None g l dm))
     = (Ornaments.updateMesh (TreeMode_eqb mode FORMED) time delta g
          (Ornaments.giftsData all) dm).1.
Proof.
  split; [reflexivity|]. split; [reflexivity|].
  unfold Ornaments.useFrame. simpl.
  destruct (Ornaments.updateMesh _ time delta g _ dm) as [g' dm'].
  destruct (Ornaments.updateMesh _ time delta l _ dm') as [l' dm''].
  split; reflexivity.
Qed.

(** ** C10: no idle offset in scattered mode *)

(** C10: in scattered mode every instance of an updated mesh is written
    the plain interpolation of its previous position towards its chaos
    position, with factor delta * speed; in particular its height is
    y + (chaosPos.y - y) * delta * speed with no sinusoidal term,
    wherever the instance stands relative to its formed target. *)
Theorem C10_no_bobbing_when_scattered (time delta : R)
    (mesh : InstancedMesh.t) (data : list InstanceData) (dm : Object3D.t)
    (k : nat) (d : InstanceData) (m : Matrix4.t) :
  data !! k = Some d ->
  InstancedMesh.instanceMatrix mesh !! k = Some m ->
  exists (mesh' : InstancedMesh.t) (m' : Matrix4.t),
    (Ornaments.updateMesh false time delta (Some mesh) data dm).1 = Some mesh'
    /\ InstancedMesh.instanceMatrix mesh' !! k = Some m'
    /\ Vector3_setFromMatrixPosition m'
       = Vector3.lerp (Vector3_setFromMatrixPosition m) (chaosPos d)
           (delta * speed d)
    /\ Matrix4.te13 m'
       = Matrix4.te13 m + (Vector3.y (chaosPos d) - Matrix4.te13 m)
                          * (delta * speed d).
Proof.
  intros Hd Hm.
  destruct (updateMesh_lookup false time delta mesh data dm k d m Hd Hm)
    as [mesh' [dm' [Hmesh [_ Hk]]]].
  exists mesh'. eexists. split; [exact Hmesh|]. split; [exact Hk|].
  assert (Hp : Vector3_setFromMatrixPosition
                 (Object3D.matrix
                    (Ornaments.updateInstance false time delta d m dm'))
               = Vector3.lerp (Vector3_setFromMatrixPosition m) (chaosPos d)
                   (delta * speed d)).
  { rewrite updateInstance_matrix_position. reflexivity. }
  split; [exact Hp|].
  apply (f_equal Vector3.y) in Hp. exact Hp.
Qed.

Lemma C10_no_bobbing_when_scattered_witness :
  exists (mesh' : InstancedMesh.t) (m' : Matrix4.t),
    (Ornaments.updateMesh false (1 / 2) (1 / 60) (Some Sample.mesh) [Sample.aBall]
       Object3D.new).1 = Some mesh'
    /\ InstancedMesh.instanceMatrix mesh' !! 0%nat = Some m'
    /\ Vector3_setFromMatrixPosition m'
       = Vector3.lerp (Vector3_setFromMatrixPosition Sample.onTarget) (chaosPos Sample.aBall)
           (1 / 60 * speed Sample.aBall)
    /\ Matrix4.te13 m'
       = Matrix4.te13 Sample.onTarget + (Vector3.y (chaosPos Sample.aBall) - Matrix4.te13 Sample.onTarget)
                             * (1 / 60 * speed Sample.aBall).
Proof.
  apply (C10_no_bobbing_when_scattered (1 / 2) (1 / 60) Sample.mesh [Sample.aBall]
           Object3D.new 0 Sample.aBall Sample.onTarget); reflexivity.
Defined.

(** * Properties of the code beyond the specification *)

(** ** The easing curve and the vertex shader *)

Lemma glsl_clamp_unit (x : R) : 0 <= Glsl.clamp x 0 1 <= 1.
Proof.
  unfold Glsl.clamp, Rmin, Rmax.
  destruct (Rle_dec x 0); destruct (Rle_dec _ 1); lra.
Qed.

Lemma glsl_pow_cube (b : R) : 0 <= b -> Glsl.pow b 3 = b * b * b.
Proof.
  intros Hb. unfold Glsl.pow. destruct (decide (0 < b)) as [Hp|Hp].
  - replace 3 with (INR 3) by (simpl; lra).
    rewrite Rpower_pow by assumption. simpl. ring.
  - replace b with 0 by lra. ring.
Qed.

Lemma cubicInOut_low (t : R) : t < 0.5 -> FoliageShader.cubicInOut t = 4 * t * t * t.
Proof.
  intros Ht. unfold FoliageShader.cubicInOut.
  destruct (decide (t < 0.5)); [reflexivity|contradiction].
Qed.

Lemma cubicInOut_high (t : R) :
  0.5 <= t <= 1 ->
  FoliageShader.cubicInOut t = 1 - (2 - 2 * t) * (2 - 2 * t) * (2 - 2 * t) / 2.
Proof.
  intros Ht. unfold FoliageShader.cubicInOut.
  destruct (decide (t < 0.5)); [lra|].
  rewrite glsl_pow_cube by lra. field.
Qed.

Lemma cube_le (a b : R) : 0 <= a <= b -> a * a * a <= b * b * b.
Proof.
  intros H. assert (0 <= a * a) by nra. assert (a * a <= b * b) by nra.
  assert (a * a * a <= b * b * a) by nra. nra.
Qed.

(** On [0, 1] the easing curve stays in [0, 1] and never decreases. *)
Lemma cubicInOut_mono (s t : R) :
  0 <= s <= t -> t <= 1 ->
  0 <= FoliageShader.cubicInOut t <= 1
  /\ FoliageShader.cubicInOut s <= FoliageShader.cubicInOut t.
Proof.
  intros Hs Ht.
  destruct (Rlt_le_dec t 0.5) as [Hlo|Hhi].
  - rewrite (cubicInOut_low t), (cubicInOut_low s) by lra.
    pose proof (cube_le s t ltac:(lra)). pose proof (cube_le 0 t ltac:(lra)).
    pose proof (cube_le t 0.5 ltac:(lra)).
    split; lra.
  - rewrite (cubicInOut_high t) by lra.
    pose proof (cube_le 0 (2 - 2 * t) ltac:(lra)).
    pose proof (cube_le (2 - 2 * t) 1 ltac:(lra)).
    split; [lra|].
    destruct (Rlt_le_dec s 0.5) as [Hs1|Hs1].
    + rewrite cubicInOut_low by lra.
      pose proof (cube_le 0 s ltac:(lra)). pose proof (cube_le s 0.5 ltac:(lra)).
      lra.
    + rewrite cubicInOut_high by lra.
      pose proof (cube_le (2 - 2 * t) (2 - 2 * s) ltac:(lra)). lra.
Qed.

(** X1: The easing curve of lines 22-26 maps [0, 1] onto itself, fixes both
    ends, is symmetric about (0.5, 0.5) and never decreases. *)
Theorem cubicInOut_is_an_easing (s t : R) :
  0 <= s <= t -> t <= 1 ->
  FoliageShader.cubicInOut 0 = 0
  /\ FoliageShader.cubicInOut 1 = 1
  /\ 0 <= FoliageShader.cubicInOut t <= 1
  /\ FoliageShader.cubicInOut (1 - t) = 1 - FoliageShader.cubicInOut t
  /\ FoliageShader.cubicInOut s <= FoliageShader.cubicInOut t.
Proof.
  intros Hs Ht.
  destruct (cubicInOut_mono s t Hs Ht) as [Hunit Hmono].
  split; [rewrite cubicInOut_low by lra; ring|].
  split; [rewrite cubicInOut_high by lra; field|].
  split; [exact Hunit|]. split; [|exact Hmono].
  destruct (Rlt_le_dec t 0.5) as [Hlo|Hhi].
  - rewrite (cubicInOut_low t) by lra.
    rewrite (cubicInOut_high (1 - t)) by lra. field.
  - rewrite (cubicInOut_high t) by lra.
    destruct (Req_dec t 0.5) as [->|Hne].
    + replace (1 - 0.5) with 0.5 by lra.
      rewrite cubicInOut_high by lra. lra.
    + rewrite cubicInOut_low by lra. field.
Qed.

Lemma cubicInOut_is_an_easing_witness :
  0 <= FoliageShader.cubicInOut (3 / 4) <= 1
  /\ FoliageShader.cubicInOut (1 / 4) <= FoliageShader.cubicInOut (3 / 4).
Proof.
  pose proof (cubicInOut_is_an_easing (1 / 4) (3 / 4) ltac:(lra) ltac:(lra))
    as [_ [_ [H1 [_ H2]]]].
  split; assumption.
Defined.

Lemma eased_unit (uProgress aRandom : R) :
  0 <= FoliageShader.cubicInOut (FoliageShader.localProgress uProgress aRandom)
    <= 1.
Proof.
  pose proof (glsl_clamp_unit (uProgress * 1.2 - aRandom * 0.2)) as Hc.
  unfold FoliageShader.localProgress.
  set (t := Glsl.clamp _ 0 1) in *.
  apply (cubicInOut_mono t t); lra.
Qed.

Lemma mix3_zero (a b : Vector3.t) : Glsl.mix3 a b 0 = a.
Proof. destruct a; unfold Glsl.mix3, Glsl.mix; simpl. f_equal; ring. Qed.

Lemma mix3_one (a b : Vector3.t) : Glsl.mix3 a b 1 = b.
Proof. destruct b; unfold Glsl.mix3, Glsl.mix; simpl. f_equal; ring. Qed.

Lemma sway_bound (a : R) :
  Rabs (JsMath.sin a * 0.05) <= 0.05 /\ Rabs (JsMath.cos a * 0.05) <= 0.05.
Proof.
  pose proof (SIN_bound a). pose proof (COS_bound a).
  unfold JsMath.sin, JsMath.cos. split; apply Rabs_le; lra.
Qed.

(** X2: The vertex shader leaves a point at its chaos position as long as
    1.2 uProgress does not exceed 0.2 aRandom (at uProgress = 0 for every
    point), and once 1.2 uProgress - 0.2 aRandom has reached 1 (at
    uProgress = 1 for every point with aRandom < 1) it keeps the point at
    the height of its target, within the sway of 0.05 of it in x and z. *)
Theorem vertex_rests_at_both_ends (uTime uProgress : R)
    (mv proj : Matrix4.t) (aChaosPos aTargetPos : Vector3.t) (aRandom : R) :
  let out := FoliageShader.vertexMain uTime uProgress mv proj aChaosPos
               aTargetPos aRandom in
  (uProgress * 1.2 - aRandom * 0.2 <= 0 ->
     FoliageShader.newPos out = aChaosPos)
  /\ (1 <= uProgress * 1.2 - aRandom * 0.2 ->
      Vector3.y (FoliageShader.newPos out) = Vector3.y aTargetPos
      /\ Rabs (Vector3.x (FoliageShader.newPos out) - Vector3.x aTargetPos)
         <= 0.05
      /\ Rabs (Vector3.z (FoliageShader.newPos out) - Vector3.z aTargetPos)
         <= 0.05).
Proof.
  intros out. split.
  - intros Hu.
    assert (Hl : FoliageShader.localProgress uProgress aRandom = 0).
    { unfold FoliageShader.localProgress, Glsl.clamp, Rmin, Rmax.
      destruct (Rle_dec _ 0); destruct (Rle_dec _ 1); lra. }
    unfold out, FoliageShader.vertexMain. rewrite Hl.
    rewrite cubicInOut_low by lra.
    replace (4 * 0 * 0 * 0) with 0 by ring.
    destruct (decide (0.9 < 0)); [lra|]. simpl. apply mix3_zero.
  - intros Hu.
    assert (Hl : FoliageShader.localProgress uProgress aRandom = 1).
    { unfold FoliageShader.localProgress, Glsl.clamp, Rmin, Rmax.
      destruct (Rle_dec _ 0); destruct (Rle_dec _ 1); lra. }
    unfold out, FoliageShader.vertexMain. rewrite Hl.
    rewrite cubicInOut_high by lra.
    replace (1 - (2 - 2 * 1) * (2 - 2 * 1) * (2 - 2 * 1) / 2) with 1 by field.
    rewrite mix3_one.
    destruct (decide (0.9 < 1)); [|lra]. simpl.
    split; [reflexivity|].
    pose proof (sway_bound (uTime * 2 + Vector3.y aTargetPos)) as [Hs _].
    pose proof (sway_bound (uTime * 1.5 + Vector3.y aTargetPos)) as [_ Hc].
    split.
    + replace (_ - Vector3.x aTargetPos)
        with (JsMath.sin (uTime * 2 + Vector3.y aTargetPos) * 0.05) by ring.
      exact Hs.
    + replace (_ - Vector3.z aTargetPos)
        with (JsMath.cos (uTime * 1.5 + Vector3.y aTargetPos) * 0.05) by ring.
      exact Hc.
Qed.

Lemma vertex_rests_at_both_ends_witness :
  FoliageShader.newPos
    (FoliageShader.vertexMain 3 0 Matrix4.identity Matrix4.identity
       (Vector3.mk 10 5 0) (Vector3.mk 5 0 0) (1 / 2))
  = Vector3.mk 10 5 0
  /\ Vector3.y
       (FoliageShader.newPos
          (FoliageShader.vertexMain 3 1 Matrix4.identity Matrix4.identity
             (Vector3.mk 10 5 0) (Vector3.mk 5 0 0) (1 / 2)))
     = 0.
Proof.
  split.
  - apply (vertex_rests_at_both_ends 3 0 Matrix4.identity Matrix4.identity
             (Vector3.mk 10 5 0) (Vector3.mk 5 0 0) (1 / 2)). lra.
  - apply (vertex_rests_at_both_ends 3 1 Matrix4.identity Matrix4.identity
             (Vector3.mk 10 5 0) (Vector3.mk 5 0 0) (1 / 2)). lra.
Defined.

(** X3: Whatever the uniforms hold, also a progress outside [0, 1], the
    vertex shader places a point within the sway of 0.05 in x and z, and
    at the exact height, of a point of the segment from its chaos
    position to its target. *)
Theorem vertex_stays_near_the_segment (uTime uProgress : R)
    (mv proj : Matrix4.t) (aChaosPos aTargetPos : Vector3.t) (aRandom : R) :
  let out := FoliageShader.vertexMain uTime uProgress mv proj aChaosPos
               aTargetPos aRandom in
  exists e : R,
    0 <= e <= 1
    /\ (let q := Glsl.mix3 aChaosPos aTargetPos e in
        Vector3.y (FoliageShader.newPos out) = Vector3.y q
        /\ Rabs (Vector3.x (FoliageShader.newPos out) - Vector3.x q) <= 0.05
        /\ Rabs (Vector3.z (FoliageShader.newPos out) - Vector3.z q) <= 0.05).
Proof.
  intros out.
  exists (FoliageShader.cubicInOut
            (FoliageShader.localProgress uProgress aRandom)).
  split; [apply eased_unit|]. cbv zeta.
  unfold out, FoliageShader.vertexMain.
  set (e := FoliageShader.cubicInOut _).
  set (q := Glsl.mix3 aChaosPos aTargetPos e). clearbody q e.
  destruct (decide (0.9 < e)); simpl.
  - split; [reflexivity|].
    pose proof (sway_bound (uTime * 2 + Vector3.y q)) as [Hs _].
    pose proof (sway_bound (uTime * 1.5 + Vector3.y q)) as [_ Hc].
    split.
    + match goal with |- Rabs ?t <= _ =>
        replace t with (JsMath.sin (uTime * 2 + Vector3.y q) * 0.05) by ring
      end.
      exact Hs.
    + match goal with |- Rabs ?t <= _ =>
        replace t with (JsMath.cos (uTime * 1.5 + Vector3.y q) * 0.05) by ring
      end.
      exact Hc.
  - split; [reflexivity|].
    replace (Vector3.x q - Vector3.x q) with 0 by ring.
    replace (Vector3.z q - Vector3.z q) with 0 by ring.
    rewrite Rabs_R0. split; lra.
Qed.

Lemma localProgress_mono (u1 u2 r1 r2 : R) :
  u1 <= u2 -> r2 <= r1 ->
  FoliageShader.localProgress u1 r1 <= FoliageShader.localProgress u2 r2.
Proof.
  intros Hu Hr. unfold FoliageShader.localProgress, Glsl.clamp, Rmin, Rmax.
  destruct (Rle_dec (u1 * 1.2 - r1 * 0.2) 0);
    destruct (Rle_dec (u2 * 1.2 - r2 * 0.2) 0);
    repeat match goal with
    | |- context [Rle_dec ?a 1] => destruct (Rle_dec a 1)
    end; lra.
Qed.

(** X4: The per-point delay: at equal progress a point with a larger
    aRandom is never further along than one with a smaller aRandom, and
    no point moves backwards when the progress grows; a point has left
    its chaos position exactly when uProgress > aRandom / 6. *)
Theorem vertex_points_are_staggered (u1 u2 r1 r2 : R) :
  u1 <= u2 -> r2 <= r1 ->
  FoliageShader.cubicInOut (FoliageShader.localProgress u1 r1)
  <= FoliageShader.cubicInOut (FoliageShader.localProgress u2 r2)
  /\ (0 < FoliageShader.cubicInOut (FoliageShader.localProgress u1 r1)
      <-> r1 / 6 < u1).
Proof.
  intros Hu Hr. split.
  - pose proof (localProgress_mono u1 u2 r1 r2 Hu Hr) as Hm.
    pose proof (glsl_clamp_unit (u1 * 1.2 - r1 * 0.2)) as H1.
    pose proof (glsl_clamp_unit (u2 * 1.2 - r2 * 0.2)) as H2.
    unfold FoliageShader.localProgress in *.
    apply cubicInOut_mono; lra.
  - unfold FoliageShader.localProgress, Glsl.clamp, Rmin, Rmax.
    destruct (Rle_dec (u1 * 1.2 - r1 * 0.2) 0) as [H0|H0].
    + destruct (Rle_dec 0 1); [|lra].
      rewrite cubicInOut_low by lra. split; intros H; lra.
    + destruct (Rle_dec (u1 * 1.2 - r1 * 0.2) 1) as [H1|H1].
      * set (t := u1 * 1.2 - r1 * 0.2) in *.
        assert (Ht : 0 < t) by lra.
        split; [intros _; unfold t in Ht; lra|intros _].
        destruct (Rlt_le_dec t 0.5) as [Hlo|Hhi].
        -- rewrite cubicInOut_low by lra.
           assert (0 < t * t) by nra. nra.
        -- rewrite cubicInOut_high by lra.
           pose proof (cube_le (2 - 2 * t) 1 ltac:(lra)). lra.
      * rewrite cubicInOut_high by lra. split; intros _; lra.
Qed.

Lemma vertex_points_are_staggered_witness :
  FoliageShader.cubicInOut (FoliageShader.localProgress (1 / 2) (9 / 10))
  <= FoliageShader.cubicInOut (FoliageShader.localProgress (1 / 2) (1 / 10)).
Proof.
  apply (vertex_points_are_staggered (1 / 2) (1 / 2) (9 / 10) (1 / 10)); lra.
Defined.

Lemma mix_between (x y a lo hi : R) :
  0 <= a <= 1 -> lo <= x <= hi -> lo <= y <= hi ->
  lo <= Glsl.mix x y a <= hi.
Proof. intros Ha Hx Hy. unfold Glsl.mix. nra. Qed.

(** X5: The colour handed to the fragment stage has every component in
    [0, 1], its blue component is at least 0.8, and its alpha is 1,
    whatever the uniforms and attributes hold. *)
Theorem vertex_colour_is_an_ice_blue (uTime uProgress : R)
    (mv proj : Matrix4.t) (aChaosPos aTargetPos : Vector3.t) (aRandom : R) :
  let out := FoliageShader.vertexMain uTime uProgress mv proj aChaosPos
               aTargetPos aRandom in
  0 <= Vector3.x (FoliageShader.vColor out) <= 1
  /\ 0 <= Vector3.y (FoliageShader.vColor out) <= 1
  /\ 0.8 <= Vector3.z (FoliageShader.vColor out) <= 1
  /\ Vector3.x (FoliageShader.vColor out) <= Vector3.y (FoliageShader.vColor out)
     <= Vector3.z (FoliageShader.vColor out)
  /\ FoliageShader.vAlpha out = 1.
Proof.
  intros out. unfold out, FoliageShader.vertexMain.
  pose proof (eased_unit uProgress aRandom) as He.
  set (e := FoliageShader.cubicInOut _) in *.
  assert (Hx : 0.05 <= Glsl.mix 0.05 0.6 e <= 0.6) by (apply mix_between; lra).
  assert (Hy : 0.3 <= Glsl.mix 0.3 0.9 e <= 0.9) by (apply mix_between; lra).
  assert (Hz : 0.8 <= Glsl.mix 0.8 1 e <= 1) by (apply mix_between; lra).
  assert (Hxy : Glsl.mix 0.05 0.6 e <= Glsl.mix 0.3 0.9 e)
    by (unfold Glsl.mix; nra).
  assert (Hyz : Glsl.mix 0.3 0.9 e <= Glsl.mix 0.8 1 e)
    by (unfold Glsl.mix; nra).
  destruct (decide (0.85 < _)); simpl.
  - unfold Glsl.mix in *. repeat split; lra.
  - repeat split; lra.
Qed.

(** ** The fragment shader *)

(** X6: The fragment shader discards exactly the fragments farther than 0.5
    from the centre of the point sprite; for the others it passes the
    colour on unchanged with an alpha between 0 and the incoming alpha,
    equal to the incoming alpha at the centre. *)
Theorem fragment_is_a_soft_disc (pc : Glsl.vec2) (c : Vector3.t) (a : R) :
  0 <= a ->
  let r := Glsl.distance2 pc (Glsl.mkVec2 0.5 0.5) in
  (FoliageShader.fragmentMain pc c a = None <-> 0.5 < r)
  /\ (forall c' a',
        FoliageShader.fragmentMain pc c a = Some (c', a') ->
        c' = c /\ 0 <= a' <= a)
  /\ FoliageShader.fragmentMain (Glsl.mkVec2 0.5 0.5) c a = Some (c, a).
Proof.
  intros Ha r. unfold FoliageShader.fragmentMain. fold r.
  assert (Hr : 0 <= r) by (unfold r, Glsl.distance2, JsMath.sqrt; apply sqrt_pos).
  split; [|split].
  - destruct (decide (0.5 < r)); split; intros H; try reflexivity;
      try discriminate; try assumption; contradiction.
  - intros c' a' H. destruct (decide (0.5 < r)) as [|Hle]; [discriminate|].
    injection H as <- <-. split; [reflexivity|].
    unfold Glsl.pow. destruct (decide (0 < 1 - r * 2)) as [Hp|Hp].
    + assert (Hpow : 0 < Rpower (1 - r * 2) 1.5 <= 1).
      { split; [unfold Rpower; apply exp_pos|].
        unfold Rpower.
        destruct (Req_dec r 0) as [->|Hr0].
        - replace (1 - 0 * 2) with 1 by ring. rewrite ln_1.
          replace (1.5 * 0) with 0 by ring. rewrite exp_0. lra.
        - apply Rle_trans with (exp 0); [|rewrite exp_0; lra].
          apply Rlt_le, exp_increasing.
          assert (ln (1 - r * 2) < 0)
            by (rewrite <- ln_1; apply ln_increasing; lra).
          nra. }
      nra.
    + nra.
  - unfold Glsl.distance2, JsMath.sqrt. simpl.
    replace ((0.5 - 0.5) * (0.5 - 0.5) + (0.5 - 0.5) * (0.5 - 0.5)) with 0
      by ring.
    rewrite sqrt_0. destruct (decide (0.5 < 0)); [lra|].
    unfold Glsl.pow. replace (1 - 0 * 2) with 1 by ring.
    destruct (decide (0 < 1)); [|lra].
    unfold Rpower. rewrite ln_1. replace (1.5 * 0) with 0 by ring.
    rewrite exp_0. f_equal. f_equal. ring.
Qed.

Lemma fragment_is_a_soft_disc_witness :
  FoliageShader.fragmentMain (Glsl.mkVec2 0.5 0.5) FoliageShader.iceLight 1
  = Some (FoliageShader.iceLight, 1).
Proof.
  apply (fragment_is_a_soft_disc (Glsl.mkVec2 0.5 0.5) FoliageShader.iceLight 1).
  lra.
Defined.

(** ** The foliage progress over a run *)

Lemma tick_residual (md : TreeMode) (st : Foliage.State) (f : Run.Frame) :
  Run.mode f = md -> Run.meshRef f = true ->
  let target := if TreeMode_eqb md FORMED then 1 else 0 in
  target - Foliage.progressRef (Run.tick st f)
  = (1 - Run.delta f * 1.5) * (target - Foliage.progressRef st).
Proof.
  intros Hm Hr target. unfold Run.tick, Foliage.useFrame, MathUtils.lerp.
  rewrite Hr, Hm. cbn [Foliage.progressRef]. fold target. ring.
Qed.

(** X7: In a fixed mode, over any run of frames no longer than 2/3 s each
    during which the points exist, the distance of the progress from its
    target shrinks at least like exp(-1.5 T), T being the time the run
    covers, however that time is cut into frames. *)
Theorem progress_converges_exponentially (md : TreeMode)
    (frames : list Run.Frame) (st : Foliage.State) :
  Forall (fun f => Run.mode f = md /\ Run.meshRef f = true /\ Run.short f)
    frames ->
  let target := if TreeMode_eqb md FORMED then 1 else 0 in
  Rabs (target - Foliage.progressRef (fold_left Run.tick frames st))
  <= exp (- 1.5 * totalDelta frames) * Rabs (target - Foliage.progressRef st).
Proof.
  intros Hf target. revert st.
  induction frames as [|f frames IH]; intros st.
  - simpl. replace (- 1.5 * 0) with 0 by lra. rewrite exp_0. lra.
  - inversion Hf as [|? ? [Hm [Hr Hs]] Hrest]; subst.
    simpl fold_left. simpl totalDelta.
    eapply Rle_trans; [apply (IH Hrest)|].
    pose proof (tick_residual (Run.mode f) st f eq_refl Hr) as Hres.
    cbv zeta in Hres. fold target in Hres. rewrite Hres.
    unfold Run.short in Hs.
    rewrite Rabs_mult, (Rabs_right (1 - Run.delta f * 1.5)) by lra.
    replace (- 1.5 * (Run.delta f + totalDelta frames))
      with (- 1.5 * totalDelta frames + - (Run.delta f * 1.5)) by lra.
    rewrite exp_plus.
    pose proof (exp_ineq1_le (- (Run.delta f * 1.5))) as He.
    pose proof (exp_pos (- 1.5 * totalDelta frames)) as Hp.
    pose proof (Rabs_pos (target - Foliage.progressRef st)) as Ha.
    rewrite Rmult_assoc. apply Rmult_le_compat_l; [lra|].
    apply Rmult_le_compat_r; lra.
Qed.

Lemma progress_converges_exponentially_witness :
  Rabs (1 - Foliage.progressRef
              (fold_left Run.tick
                 [Run.mkFrame FORMED true 0 (1 / 2);
                  Run.mkFrame FORMED true (1 / 2) (1 / 2)] Foliage.initial))
  <= exp (- 1.5 * totalDelta [Run.mkFrame FORMED true 0 (1 / 2);
                             Run.mkFrame FORMED true (1 / 2) (1 / 2)])
     * Rabs (1 - Foliage.progressRef Foliage.initial).
Proof.
  apply (progress_converges_exponentially FORMED
           [Run.mkFrame FORMED true 0 (1 / 2);
            Run.mkFrame FORMED true (1 / 2) (1 / 2)] Foliage.initial).
  repeat (apply Forall_cons; split;
          [split; [reflexivity|split; [reflexivity|unfold Run.short; simpl; lra]]|]).
  apply Forall_nil. exact I.
Defined.

(** X8: Frames during which the points do not exist yet change nothing: a
    run leaves the foliage in the state that the frames with the points
    present alone would leave it in. *)
Theorem frames_without_points_are_dropped (frames : list Run.Frame)
    (st : Foliage.State) :
  fold_left Run.tick frames st
  = fold_left Run.tick (filter (fun f => Run.meshRef f = true) frames) st.
Proof.
  revert st. induction frames as [|f frames IH]; intros st; [reflexivity|].
  destruct (Run.meshRef f) eqn:E.
  - rewrite filter_cons_True by assumption. simpl. apply IH.
  - rewrite filter_cons_False by congruence. simpl. rewrite <- IH.
    f_equal. unfold Run.tick, Foliage.useFrame. rewrite E. reflexivity.
Qed.

(** ** More on the foliage generator *)

Lemma foliage_loop_draws (count : nat) (draws : nat -> R) (n : nat) :
  forall (i k : nat) (a : Foliage.Arrays),
    (Foliage.generate_loop count n i a draws k).2 = (k + 4 * n)%nat.
Proof.
  induction n as [|n IH]; intros i k a.
  - simpl. lia.
  - simpl Foliage.generate_loop. unfold mbind, rand_bind.
    rewrite fill_eq. cbv zeta. rewrite IH. lia.
Qed.

(** X9: The foliage generator draws exactly four random numbers per point,
    in the order of the points, so that the chaos position and the random
    scalar of point i come from draws 4i to 4i+3 whatever the count: two
    clouds generated from the same draws agree on these for every index
    they share. *)
Theorem foliage_draws_four_per_point (N M : nat) (draws : nat -> R) (i : nat) :
  (i < N)%nat -> (i < M)%nat ->
  (Foliage.generate N draws 0%nat).2 = (4 * N)%nat
  /\ Foliage.point (Foliage.chaosPositions (run (Foliage.generate N) draws)) i
     = Some (chaosPoint (draws (4 * i)%nat) (draws (4 * i + 1)%nat)
               (draws (4 * i + 2)%nat))
  /\ Foliage.randoms (run (Foliage.generate N) draws) !! i
     = Some (draws (4 * i + 3)%nat)
  /\ Foliage.point (Foliage.chaosPositions (run (Foliage.generate N) draws)) i
     = Foliage.point (Foliage.chaosPositions (run (Foliage.generate M) draws)) i
  /\ Foliage.randoms (run (Foliage.generate N) draws) !! i
     = Foliage.randoms (run (Foliage.generate M) draws) !! i.
Proof.
  intros HN HM.
  assert (Hgen : forall K, (i < K)%nat ->
            Foliage.point
              (Foliage.chaosPositions (run (Foliage.generate K) draws)) i
            = Some (chaosPoint (draws (4 * i)%nat) (draws (4 * i + 1)%nat)
                      (draws (4 * i + 2)%nat))
            /\ Foliage.randoms (run (Foliage.generate K) draws) !! i
               = Some (draws (4 * i + 3)%nat)).
  { intros K HK. unfold run, Foliage.generate.
    destruct (generate_loop_spec K draws K 0 0
                (Foliage.mkArrays (replicate (K * 3) 0)
                   (replicate (K * 3) 0) (replicate K 0)))
      as [_ [_ [_ Hj]]]; simpl; rewrite ?length_replicate; try lia.
    destruct (Hj i ltac:(lia)) as [Pc [_ Pr]]. cbv zeta in Pc, Pr.
    replace (0 + 4 * (i - 0))%nat with (4 * i)%nat in Pc, Pr by lia.
    replace (S (4 * i)) with (4 * i + 1)%nat in Pc, Pr by lia.
    replace (S (4 * i + 1)) with (4 * i + 2)%nat in Pc, Pr by lia.
    replace (S (4 * i + 2)) with (4 * i + 3)%nat in Pr by lia.
    split; assumption. }
  destruct (Hgen N HN) as [HcN HrN]. destruct (Hgen M HM) as [HcM HrM].
  split; [unfold Foliage.generate; rewrite foliage_loop_draws; lia|].
  split; [exact HcN|]. split; [exact HrN|].
  split; congruence.
Qed.

Lemma foliage_draws_four_per_point_witness :
  Foliage.randoms (run (Foliage.generate 2) (fun k => INR k / 8)) !! 1%nat
  = Foliage.randoms (run (Foliage.generate 5) (fun k => INR k / 8)) !! 1%nat.
Proof.
  apply (foliage_draws_four_per_point 2 5 (fun k => INR k / 8) 1); lia.
Defined.

(** X10: The target points climb a cone: the distance of point i from the
    axis is 5 (1 - y / 12), and from one index to the next the height
    strictly grows and the distance from the axis strictly shrinks, never
    reaching the apex. *)
Theorem foliage_targets_climb_the_cone (N : nat) (draws : nat -> R)
    (i j : nat) :
  (i < j)%nat -> (j < N)%nat ->
  exists p q : Vector3.t,
    Foliage.point (Foliage.targetPositions (run (Foliage.generate N) draws)) i
    = Some p
    /\ Foliage.point (Foliage.targetPositions (run (Foliage.generate N) draws)) j
       = Some q
    /\ radial q = 5 * (1 - Vector3.y q / 12)
    /\ Vector3.y p < Vector3.y q < 12
    /\ 0 < radial q < radial p.
Proof.
  intros Hij HjN.
  assert (Hgen : forall k, (k < N)%nat ->
            Foliage.point
              (Foliage.targetPositions (run (Foliage.generate N) draws)) k
            = Some (targetPoint N k)).
  { intros k Hk. unfold run, Foliage.generate.
    destruct (generate_loop_spec N draws N 0 0
                (Foliage.mkArrays (replicate (N * 3) 0)
                   (replicate (N * 3) 0) (replicate N 0)))
      as [_ [_ [_ Hj]]]; simpl; rewrite ?length_replicate; try lia.
    destruct (Hj k ltac:(lia)) as [_ [Pt _]]. exact Pt. }
  assert (Hrad : forall k, (k < N)%nat ->
            radial (targetPoint N k) = 5 * (1 - INR k / INR N)
            /\ Vector3.y (targetPoint N k) = INR k / INR N * 12).
  { intros k Hk. pose proof (INR_ratio_unit k N Hk) as Hu.
    unfold radial, targetPoint, Foliage.maxRadius, Foliage.height,
      JsMath.sqrt, JsMath.cos, JsMath.sin; simpl.
    split; [|reflexivity].
    set (a := 2 * JsMath.PI * Foliage.goldenRatio * INR k).
    pose proof (sin2_cos2 a) as Hsc. unfold Rsqr in Hsc.
    replace (_ + _)
      with (5 * (1 - INR k / INR N) * (5 * (1 - INR k / INR N))).
    - apply sqrt_square. lra.
    - transitivity (5 * (1 - INR k / INR N) * (5 * (1 - INR k / INR N))
                    * (sin a * sin a + cos a * cos a)).
      + rewrite Hsc. ring.
      + ring. }
  exists (targetPoint N i), (targetPoint N j).
  split; [apply Hgen; lia|]. split; [apply Hgen; lia|].
  destruct (Hrad i ltac:(lia)) as [Ri Yi]. destruct (Hrad j HjN) as [Rj Yj].
  rewrite Ri, Rj, Yi, Yj.
  pose proof (INR_ratio_unit j N HjN) as Hu.
  assert (Hn : 0 < INR N) by (apply lt_0_INR; lia).
  assert (Hlt : INR i / INR N < INR j / INR N).
  { unfold Rdiv. apply Rmult_lt_compat_r; [apply Rinv_0_lt_compat, Hn|].
    apply lt_INR, Hij. }
  split; [field; lra|]. split; lra.
Qed.

Lemma foliage_targets_climb_the_cone_witness :
  exists p q : Vector3.t,
    Foliage.point
      (Foliage.targetPositions (run (Foliage.generate 4) (fun _ => 1 / 2))) 1
    = Some p
    /\ Foliage.point
         (Foliage.targetPositions (run (Foliage.generate 4) (fun _ => 1 / 2))) 3
       = Some q
    /\ radial q = 5 * (1 - Vector3.y q / 12)
    /\ Vector3.y p < Vector3.y q < 12
    /\ 0 < radial q < radial p.
Proof.
  apply (foliage_targets_climb_the_cone 4 (fun _ => 1 / 2) 1 3); lia.
Defined.

(** ** More on the ornament generator *)

Section OrnamentFields.

Variable draws : nat -> R.

(** The remaining fields of an instance and the number of draws it
    takes, by category. *)
Lemma makeInstance_rest (k : nat) :
  let d := (Ornaments.makeInstance draws k).1 in
  let k' := (Ornaments.makeInstance draws k).2 in
  (type d = light
   /\ scale d = 0.15 /\ color d = Some "#e0f2fe"%string
   /\ speed d = 0.5 + draws (k + 7)%nat * 1.5
   /\ rotationOffset d
      = Euler.mk (draws (k + 8)%nat * JsMath.PI)
                 (draws (k + 9)%nat * JsMath.PI) 0
   /\ k' = (k + 10)%nat)
  \/ (type d <> light
      /\ scale d = 0.2 + draws (k + 7)%nat * 0.25
      /\ color d
         = Ornaments.palette
             !! Z.to_nat (JsMath.floor (draws (k + 8)%nat
                                        * INR (length Ornaments.palette)))
      /\ speed d = 0.5 + draws (k + 9)%nat * 1.5
      /\ rotationOffset d
         = Euler.mk (draws (k + 10)%nat * JsMath.PI)
                    (draws (k + 11)%nat * JsMath.PI) 0
      /\ k' = (k + 12)%nat).
Proof.
  unfold Ornaments.makeInstance, mbind, rand_bind, mret, rand_ret,
    Math_random. cbv zeta.
  replace (k + 7)%nat with (S (S (S (S (S (S (S k))))))) by lia.
  replace (k + 8)%nat with (S (S (S (S (S (S (S (S k)))))))) by lia.
  replace (k + 9)%nat with (S (S (S (S (S (S (S (S (S k))))))))) by lia.
  replace (k + 10)%nat with (S (S (S (S (S (S (S (S (S (S k)))))))))) by lia.
  replace (k + 11)%nat
    with (S (S (S (S (S (S (S (S (S (S (S k))))))))))) by lia.
  replace (k + 12)%nat
    with (S (S (S (S (S (S (S (S (S (S (S (S k)))))))))))) by lia.
  destruct (decide (Ornaments.classify (draws k) = light)) as [Hl|Hl]; simpl.
  - left. repeat split; try reflexivity. exact Hl.
  - right. repeat split; try reflexivity. exact Hl.
Qed.

Lemma floor_index (u : R) (n : nat) :
  0 <= u < 1 -> (0 < n)%nat -> (Z.to_nat (JsMath.floor (u * INR n)) < n)%nat.
Proof.
  intros Hu Hn. unfold JsMath.floor.
  assert (Hp : 0 < INR n) by (apply lt_0_INR; assumption).
  destruct (base_Int_part (u * INR n)) as [H1 H2].
  assert (Hr0 : 0 <= u * INR n) by nra.
  assert (Hr1 : u * INR n < INR n) by nra.
  assert (Hlo : (0 <= Int_part (u * INR n))%Z).
  { apply Z.lt_pred_le. apply lt_IZR.
    change (IZR (Z.pred 0)) with (-1). lra. }
  assert (Hhi : (Int_part (u * INR n) < Z.of_nat n)%Z).
  { apply lt_IZR. rewrite <- INR_IZR_INZ. lra. }
  lia.
Qed.

Hypothesis uniform : uniform_draws draws.

Lemma makeInstance_dressed (k : nat) :
  dressed (Ornaments.makeInstance draws k).1.
Proof.
  pose proof PI_RGT_0 as Hpi. unfold dressed.
  destruct (makeInstance_rest k) as [[Hl [Hs [Hc [Hv [Hr _]]]]]
                                    |[Hl [Hs [Hc [Hv [Hr _]]]]]];
    cbv zeta in *; rewrite Hs, Hv, Hr; simpl; unfold JsMath.PI.
  - pose proof (uniform (k + 7)%nat). pose proof (uniform (k + 8)%nat).
    pose proof (uniform (k + 9)%nat).
    split; [intros _; split; [reflexivity|exact Hc]|].
    split; [intros Hn; contradiction|].
    repeat split; nra.
  - pose proof (uniform (k + 7)%nat). pose proof (uniform (k + 9)%nat).
    pose proof (uniform (k + 10)%nat). pose proof (uniform (k + 11)%nat).
    split; [intros Hn; contradiction|].
    split.
    + intros _. split; [lra|].
      pose proof (floor_index _ (length Ornaments.palette)
                    (uniform (k + 8)%nat) ltac:(simpl; lia)) as Hi.
      apply lookup_lt_is_Some in Hi. destruct Hi as [c Hi].
      exists c. split; [eapply list_elem_of_lookup_2, Hi|].
      rewrite Hc. exact Hi.
    + repeat split; nra.
Qed.

Lemma makeInstance_on_cone_band (k : nat) :
  on_cone_band (Ornaments.makeInstance draws k).1.
Proof.
  destruct (makeInstance_fields draws k) as [_ [Ht _]]. cbv zeta in Ht.
  unfold on_cone_band. rewrite Ht. unfold radial. simpl.
  pose proof (pow_unit (draws (S k)) 2.5 (uniform (S k)) ltac:(lra)) as Hy.
  pose proof (uniform (S (S (S k)))) as Hu.
  set (yNorm := JsMath.pow (draws (S k)) 2.5) in *.
  set (u := draws (S (S (S k)))) in *.
  set (theta := yNorm * Ornaments.height + 0.5) in *.
  unfold Ornaments.height, Ornaments.maxRadius in *.
  replace (4.5 * (1 - (theta - 0.5) / 11)) with (4.5 * (1 - yNorm))
    by (unfold theta; field).
  set (r := 4.5 * (1 - yNorm) + u * 0.5).
  set (a := theta * 10 + _).
  assert (Hr : 0 <= r) by (unfold r; nra).
  assert (Hrad : JsMath.sqrt (r * JsMath.cos a * (r * JsMath.cos a)
                              + r * JsMath.sin a * (r * JsMath.sin a)) = r).
  { unfold JsMath.sqrt, JsMath.cos, JsMath.sin.
    pose proof (sin2_cos2 a) as Hsc. unfold Rsqr in Hsc.
    replace (_ + _) with (r * r).
    - apply sqrt_square, Hr.
    - transitivity (r * r * (sin a * sin a + cos a * cos a)).
      + rewrite Hsc. ring.
      + ring. }
  rewrite Hrad. unfold r. split; [nra|]. split; nra.
Qed.

(** A property of every instance made holds of every instance of the
    three lists. *)
Lemma generate_loop_all (P : InstanceData -> Prop) (n : nat) :
  (forall k : nat, P (Ornaments.makeInstance draws k).1) ->
  forall (acc : Ornaments.Data) (k : nat),
    Forall P (allData acc) ->
    Forall P (allData (Ornaments.generate_loop n acc draws k).1).
Proof.
  intros HP. induction n as [|n IH]; intros acc k Hacc; [exact Hacc|].
  simpl Ornaments.generate_loop. unfold mbind, rand_bind.
  pose proof (HP k) as Hd.
  destruct (Ornaments.makeInstance draws k) as [d k']. simpl in Hd.
  apply IH. unfold allData, Ornaments.push in *.
  rewrite !Forall_app in Hacc. destruct Hacc as [Hb [Hg Hl]].
  destruct (type d); simpl; rewrite !Forall_app;
    repeat split; try assumption;
    apply Forall_cons; split; (assumption || constructor).
Qed.

(** The draws taken by the loop: twelve per instance, two fewer per
    light. *)
Lemma generate_loop_draws (n : nat) :
  forall (acc : Ornaments.Data) (k : nat),
    let r := Ornaments.generate_loop n acc draws k in
    (r.2 + 2 * length (Ornaments.lightsData r.1))%nat
    = (k + 12 * n + 2 * length (Ornaments.lightsData acc))%nat.
Proof.
  induction n as [|n IH]; intros acc k; [simpl; lia|].
  simpl Ornaments.generate_loop. unfold mbind, rand_bind. cbv zeta.
  pose proof (makeInstance_rest k) as Hd. cbv zeta in Hd.
  destruct (Ornaments.makeInstance draws k) as [d k']. simpl in Hd.
  specialize (IH (Ornaments.push acc d) k'). cbv zeta in IH. rewrite IH.
  unfold Ornaments.push.
  destruct Hd as [[Hl [_ [_ [_ [_ ->]]]]]|[Hl [_ [_ [_ [_ ->]]]]]].
  - rewrite Hl. simpl. rewrite length_app. simpl. lia.
  - destruct (type d); [| |contradiction]; simpl; lia.
Qed.

End OrnamentFields.

(** X11: Every generated ornament has a scale of 0.15 and the light colour if
    it is a light, and otherwise a scale in [0.2, 0.45) and one of the
    four palette colours; its speed lies in [0.5, 2) and its rotation
    offset in [0, pi) x [0, pi) x {0}.  No colour is ever undefined. *)
Theorem ornaments_are_dressed (N : nat) (draws : nat -> R) :
  uniform_draws draws ->
  Forall dressed (allData (run (Ornaments.generate N) draws)).
Proof.
  intros Hu. unfold run, Ornaments.generate.
  apply generate_loop_all.
  - intros k. apply makeInstance_dressed, Hu.
  - unfold allData; simpl. constructor.
Qed.

Lemma ornaments_are_dressed_witness :
  Forall dressed (allData (run (Ornaments.generate 3) (fun _ => 1 / 2))).
Proof.
  apply (ornaments_are_dressed 3 (fun _ => 1 / 2)). intros n. lra.
Defined.

(** X12: Every generated ornament target lies on or outside the cone of base
    radius 4.5 whose apex is at height 11.5, and less than 0.5 outside
    it: at height y its distance from the axis is at least
    4.5 (1 - (y - 0.5) / 11) and less than that plus 0.5. *)
Theorem ornament_targets_hug_the_cone (N : nat) (draws : nat -> R) :
  uniform_draws draws ->
  Forall on_cone_band (allData (run (Ornaments.generate N) draws)).
Proof.
  intros Hu. unfold run, Ornaments.generate.
  apply generate_loop_all.
  - intros k. apply makeInstance_on_cone_band, Hu.
  - unfold allData; simpl. constructor.
Qed.

Lemma ornament_targets_hug_the_cone_witness :
  Forall on_cone_band (allData (run (Ornaments.generate 3) (fun _ => 1 / 2))).
Proof.
  apply (ornament_targets_hug_the_cone 3 (fun _ => 1 / 2)). intros n. lra.
Defined.

(** X13: The ornament generator takes twelve draws per ball or gift and ten
    per light (a light takes neither the scale draw nor the colour draw):
    for count N it consumes 12 N - 2 L draws, L being the number of
    lights. *)
Theorem ornaments_draw_count (N : nat) (draws : nat -> R) :
  let r := Ornaments.generate N draws 0%nat in
  (r.2 + 2 * length (Ornaments.lightsData r.1) = 12 * N)%nat.
Proof.
  intros r. unfold r, Ornaments.generate.
  pose proof (generate_loop_draws draws N (Ornaments.mkData [] [] []) 0) as H.
  cbv zeta in H. rewrite H. simpl. lia.
Qed.

(** ** The frame loop of the ornaments, mesh by mesh *)

Section MeshLoop.

Import Ornaments.

Variables (isFormed : bool) (time delta : R).

Lemma forEach_from_cons (d : InstanceData) (rest : list InstanceData)
    (i : nat) (mesh : InstancedMesh.t) (dm : Object3D.t) (nu : bool) :
  forEach_from isFormed time delta i (d :: rest) (mesh, dm, nu)
  = forEach_from isFormed time delta (S i) rest
      match InstancedMesh.getMatrixAt mesh i with
      | Some m =>
          (InstancedMesh.setMatrixAt mesh i
             (Object3D.matrix (updateInstance isFormed time delta d m dm)),
           updateInstance isFormed time delta d m dm, true)
      | None => (mesh, dm, nu)
      end.
Proof. reflexivity. Qed.

(** The colours are not touched, and instances from index
    [i + length data] on are left as they are. *)
Lemma forEach_from_rest (data : list InstanceData) :
  forall (i : nat) (mesh : InstancedMesh.t) (dm : Object3D.t) (nu : bool),
    InstancedMesh.instanceColor
      (forEach_from isFormed time delta i data (mesh, dm, nu)).1.1
    = InstancedMesh.instanceColor mesh
    /\ forall j : nat,
         (i + length data <= j)%nat ->
         InstancedMesh.instanceMatrix
           (forEach_from isFormed time delta i data (mesh, dm, nu)).1.1 !! j
         = InstancedMesh.instanceMatrix mesh !! j.
Proof.
  induction data as [|d rest IH]; intros i mesh dm nu.
  - simpl. split; reflexivity.
  - rewrite !forEach_from_cons.
    destruct (InstancedMesh.getMatrixAt mesh i) as [m|].
    + destruct (IH (S i)
                  (InstancedMesh.setMatrixAt mesh i
                     (Object3D.matrix
                        (updateInstance isFormed time delta d m dm)))
                  (updateInstance isFormed time delta d m dm) true)
        as [Hc Hj].
      split; [rewrite Hc; reflexivity|].
      intros j Hle. simpl in Hle. rewrite Hj by lia. simpl.
      apply list_lookup_insert_ne. lia.
    + destruct (IH (S i) mesh dm nu) as [Hc Hj].
      split; [exact Hc|].
      intros j Hle. simpl in Hle. apply Hj. lia.
Qed.

(** The update counter and the flag: the version is kept by the loop,
    and the flag is raised as soon as one instance in range is met. *)
Lemma forEach_from_flag (data : list InstanceData) :
  forall (i : nat) (mesh : InstancedMesh.t) (dm : Object3D.t) (nu : bool),
    InstancedMesh.instanceMatrix_version
      (forEach_from isFormed time delta i data (mesh, dm, nu)).1.1
    = InstancedMesh.instanceMatrix_version mesh
    /\ (data <> [] ->
        (i + length data <= length (InstancedMesh.instanceMatrix mesh))%nat ->
        (forEach_from isFormed time delta i data (mesh, dm, nu)).2 = true)
    /\ (nu = true ->
        (forEach_from isFormed time delta i data (mesh, dm, nu)).2 = true).
Proof.
  induction data as [|d rest IH]; intros i mesh dm nu.
  - simpl. split; [reflexivity|]. split; [intros H; contradiction|auto].
  - rewrite !forEach_from_cons.
    destruct (InstancedMesh.getMatrixAt mesh i) as [m|] eqn:E.
    + destruct (IH (S i)
                  (InstancedMesh.setMatrixAt mesh i
                     (Object3D.matrix
                        (updateInstance isFormed time delta d m dm)))
                  (updateInstance isFormed time delta d m dm) true)
        as [Hv [_ Hn]].
      split; [rewrite Hv; reflexivity|].
      split; intros; apply Hn; reflexivity.
    + destruct (IH (S i) mesh dm nu) as [Hv [Hd Hn]].
      split; [exact Hv|]. split; [|exact Hn].
      intros _ Hle. simpl in Hle. exfalso.
      unfold InstancedMesh.getMatrixAt in E.
      apply lookup_ge_None in E. lia.
Qed.

(** What the shared scratch object holds when the loop starts does not
    matter, its up vector apart. *)
Lemma forEach_from_scratch (data : list InstanceData) :
  forall (i : nat) (mesh : InstancedMesh.t) (dm dm' : Object3D.t) (nu : bool),
    Object3D.up dm = Object3D.up dm' ->
    (forEach_from isFormed time delta i data (mesh, dm, nu)).1.1
    = (forEach_from isFormed time delta i data (mesh, dm', nu)).1.1
    /\ (forEach_from isFormed time delta i data (mesh, dm, nu)).2
       = (forEach_from isFormed time delta i data (mesh, dm', nu)).2.
Proof.
  induction data as [|d rest IH]; intros i mesh dm dm' nu Hup.
  - simpl. split; reflexivity.
  - rewrite !forEach_from_cons.
    destruct (InstancedMesh.getMatrixAt mesh i) as [m|].
    + rewrite (updateInstance_matrix_scratch isFormed time delta d m dm dm' Hup).
      apply IH. rewrite !updateInstance_up. exact Hup.
    + apply IH, Hup.
Qed.

Lemma updateMesh_scratch (ref : option InstancedMesh.t)
    (data : list InstanceData) (dm dm' : Object3D.t) :
  Object3D.up dm = Object3D.up dm' ->
  (updateMesh isFormed time delta ref data dm).1
  = (updateMesh isFormed time delta ref data dm').1.
Proof.
  intros Hup. destruct ref as [mesh|]; [|reflexivity].
  unfold updateMesh.
  pose proof (forEach_from_scratch data 0 mesh dm dm' false Hup) as H.
  destruct (forEach_from isFormed time delta 0 data (mesh, dm, false))
    as [[m1 d1] n1].
  destruct (forEach_from isFormed time delta 0 data (mesh, dm', false))
    as [[m2 d2] n2].
  simpl in H. destruct H as [-> ->]. reflexivity.
Qed.

Lemma updateMesh_up (ref : option InstancedMesh.t)
    (data : list InstanceData) (dm : Object3D.t) :
  Object3D.up (updateMesh isFormed time delta ref data dm).2 = Object3D.up dm.
Proof.
  destruct ref as [mesh|]; [|reflexivity]. unfold updateMesh.
  pose proof (forEach_from_up isFormed time delta data 0 mesh dm false) as H.
  destruct (forEach_from isFormed time delta 0 data (mesh, dm, false))
    as [[m1 d1] n1].
  exact H.
Qed.

End MeshLoop.

(** In a frame each mesh is updated from its own data and its own
    matrices alone. *)
Lemma useFrame_refOf (ty : OrnamentType) (mode : TreeMode)
    (data : Ornaments.Data) (time delta : R) (st : Ornaments.State)
    (dm : Object3D.t) :
  Object3D.up dm = Object3D.up (Ornaments.dummy st) ->
  refOf ty (Ornaments.useFrame mode data time delta st)
  = (Ornaments.updateMesh (TreeMode_eqb mode FORMED) time delta (refOf ty st)
       (dataOf ty data) dm).1.
Proof.
  intros Hup. unfold Ornaments.useFrame.
  set (f := TreeMode_eqb mode FORMED).
  pose proof (updateMesh_up f time delta (Ornaments.ballsRef st)
                (Ornaments.ballsData data) (Ornaments.dummy st)) as U1.
  destruct (Ornaments.updateMesh f time delta (Ornaments.ballsRef st)
              (Ornaments.ballsData data) (Ornaments.dummy st))
    as [b d1] eqn:E1.
  pose proof (updateMesh_up f time delta (Ornaments.giftsRef st)
                (Ornaments.giftsData data) d1) as U2.
  destruct (Ornaments.updateMesh f time delta (Ornaments.giftsRef st)
              (Ornaments.giftsData data) d1) as [g d2] eqn:E2.
  destruct (Ornaments.updateMesh f time delta (Ornaments.lightsRef st)
              (Ornaments.lightsData data) d2) as [l d3] eqn:E3.
  simpl in U1, U2.
  destruct ty; simpl.
  - rewrite (updateMesh_scratch f time delta _ _ dm (Ornaments.dummy st) Hup).
    rewrite E1. reflexivity.
  - rewrite (updateMesh_scratch f time delta _ _ dm d1) by congruence.
    rewrite E2. reflexivity.
  - rewrite (updateMesh_scratch f time delta _ _ dm d2) by congruence.
    rewrite E3. reflexivity.
Qed.

Lemma useFrame_up (mode : TreeMode) (data : Ornaments.Data) (time delta : R)
    (st : Ornaments.State) :
  Object3D.up (Ornaments.dummy (Ornaments.useFrame mode data time delta st))
  = Object3D.up (Ornaments.dummy st).
Proof.
  unfold Ornaments.useFrame.
  set (f := TreeMode_eqb mode FORMED).
  pose proof (updateMesh_up f time delta (Ornaments.ballsRef st)
                (Ornaments.ballsData data) (Ornaments.dummy st)) as U1.
  destruct (Ornaments.updateMesh f time delta (Ornaments.ballsRef st)
              (Ornaments.ballsData data) (Ornaments.dummy st))
    as [b d1] eqn:E1.
  pose proof (updateMesh_up f time delta (Ornaments.giftsRef st)
                (Ornaments.giftsData data) d1) as U2.
  destruct (Ornaments.updateMesh f time delta (Ornaments.giftsRef st)
              (Ornaments.giftsData data) d1) as [g d2] eqn:E2.
  pose proof (updateMesh_up f time delta (Ornaments.lightsRef st)
                (Ornaments.lightsData data) d2) as U3.
  destruct (Ornaments.updateMesh f time delta (Ornaments.lightsRef st)
              (Ornaments.lightsData data) d2) as [l d3] eqn:E3.
  simpl in *. congruence.
Qed.

(** X14: The three meshes share one scratch object, and yet a frame updates
    each of them exactly as [updateMesh] would update it alone, started
    with any scratch object that has the same up vector: nothing leaks
    from one mesh, or from one instance, to the next. *)
Theorem meshes_do_not_interfere (ty : OrnamentType) (mode : TreeMode)
    (data : Ornaments.Data) (time delta : R) (st : Ornaments.State)
    (dm : Object3D.t) :
  Object3D.up dm = Object3D.up (Ornaments.dummy st) ->
  refOf ty (Ornaments.useFrame mode data time delta st)
  = (Ornaments.updateMesh (TreeMode_eqb mode FORMED) time delta (refOf ty st)
       (dataOf ty data) dm).1
  /\ Object3D.up (Ornaments.dummy (Ornaments.useFrame mode data time delta st))
     = Object3D.up (Ornaments.dummy st).
Proof.
  intros Hup. split; [apply useFrame_refOf, Hup|apply useFrame_up].
Qed.

Lemma meshes_do_not_interfere_witness :
  refOf gift
    (Ornaments.useFrame FORMED
       (Ornaments.mkData [Sample.aBall] [Sample.aGift] [])
       1 (1 / 60)
       (OrnamentsMount.mount (Ornaments.mkData [Sample.aBall] [Sample.aGift] [])))
  = (Ornaments.updateMesh (TreeMode_eqb FORMED FORMED) 1 (1 / 60)
       (refOf gift
          (OrnamentsMount.mount
             (Ornaments.mkData [Sample.aBall] [Sample.aGift] [])))
       (dataOf gift (Ornaments.mkData [Sample.aBall] [Sample.aGift] []))
       Object3D.new).1.
Proof.
  apply (meshes_do_not_interfere gift FORMED
           (Ornaments.mkData [Sample.aBall] [Sample.aGift] []) 1 (1 / 60)
           (OrnamentsMount.mount
              (Ornaments.mkData [Sample.aBall] [Sample.aGift] []))
           Object3D.new).
  reflexivity.
Defined.

(** One frame keeps, for each mesh, the number of instances and the
    instance colours, and leaves instances beyond the data as they are;
    an absent mesh stays absent. *)
Lemma useFrame_keeps (ty : OrnamentType) (mode : TreeMode)
    (data : Ornaments.Data) (time delta : R) (st : Ornaments.State) :
  match refOf ty st with
  | None => refOf ty (Ornaments.useFrame mode data time delta st) = None
  | Some mesh =>
      exists mesh' : InstancedMesh.t,
        refOf ty (Ornaments.useFrame mode data time delta st) = Some mesh'
        /\ length (InstancedMesh.instanceMatrix mesh')
           = length (InstancedMesh.instanceMatrix mesh)
        /\ InstancedMesh.instanceColor mesh' = InstancedMesh.instanceColor mesh
        /\ forall j : nat,
             (length (dataOf ty data) <= j)%nat ->
             InstancedMesh.instanceMatrix mesh' !! j
             = InstancedMesh.instanceMatrix mesh !! j
  end.
Proof.
  rewrite (useFrame_refOf ty mode data time delta st (Ornaments.dummy st) eq_refl).
  destruct (refOf ty st) as [mesh|]; [|reflexivity].
  unfold Ornaments.updateMesh.
  set (f := TreeMode_eqb mode FORMED).
  pose proof (forEach_from_length f time delta (dataOf ty data) 0 mesh
                (Ornaments.dummy st) false) as Hlen.
  pose proof (forEach_from_rest f time delta (dataOf ty data) 0 mesh
                (Ornaments.dummy st) false) as [Hcol Hrest].
  destruct (Ornaments.forEach_from f time delta 0 (dataOf ty data)
              (mesh, Ornaments.dummy st, false)) as [[m1 d1] n1].
  simpl in *. eexists. split; [reflexivity|].
  destruct n1; simpl; (split; [exact Hlen|]); (split; [exact Hcol|]);
    exact Hrest.
Qed.

(** The same over a run of frames, for a mesh that is present. *)
Lemma renders_keep (ty : OrnamentType) (data : Ornaments.Data)
    (frames : list OrnamentsMount.Render) :
  forall (st : Ornaments.State) (mesh : InstancedMesh.t),
    refOf ty st = Some mesh ->
    exists mesh' : InstancedMesh.t,
      refOf ty (OrnamentsMount.renders data frames st) = Some mesh'
      /\ length (InstancedMesh.instanceMatrix mesh')
         = length (InstancedMesh.instanceMatrix mesh)
      /\ InstancedMesh.instanceColor mesh' = InstancedMesh.instanceColor mesh
      /\ forall j : nat,
           (length (dataOf ty data) <= j)%nat ->
           InstancedMesh.instanceMatrix mesh' !! j
           = InstancedMesh.instanceMatrix mesh !! j.
Proof.
  induction frames as [|f rest IH]; intros st mesh Hm.
  - exists mesh. simpl. auto.
  - pose proof (useFrame_keeps ty (OrnamentsMount.mode f) data
                  (OrnamentsMount.elapsedTime f) (OrnamentsMount.delta f) st)
      as H1.
    rewrite Hm in H1. destruct H1 as [m1 [R1 [L1 [C1 J1]]]].
    destruct (IH _ _ R1) as [m2 [R2 [L2 [C2 J2]]]].
    exists m2. split; [exact R2|].
    split; [congruence|]. split; [congruence|].
    intros j Hj. rewrite (J2 j Hj). exact (J1 j Hj).
Qed.

(** X15: However many frames run, in whatever modes and with whatever time
    steps: each mesh keeps its number of instances and its instance
    colours, instances beyond the data keep their matrices, and an
    absent mesh stays absent. *)
Theorem frames_keep_counts_and_colours (ty : OrnamentType)
    (data : Ornaments.Data) (frames : list OrnamentsMount.Render)
    (st : Ornaments.State) :
  match refOf ty st with
  | None => refOf ty (OrnamentsMount.renders data frames st) = None
  | Some mesh =>
      exists mesh' : InstancedMesh.t,
        refOf ty (OrnamentsMount.renders data frames st) = Some mesh'
        /\ length (InstancedMesh.instanceMatrix mesh')
           = length (InstancedMesh.instanceMatrix mesh)
        /\ InstancedMesh.instanceColor mesh' = InstancedMesh.instanceColor mesh
        /\ forall j : nat,
             (length (dataOf ty data) <= j)%nat ->
             InstancedMesh.instanceMatrix mesh' !! j
             = InstancedMesh.instanceMatrix mesh !! j
  end.
Proof.
  destruct (refOf ty st) as [mesh|] eqn:Hm.
  - exact (renders_keep ty data frames st mesh Hm).
  - revert st Hm. induction frames as [|f rest IH]; intros st Hm.
    + exact Hm.
    + simpl. apply IH.
      pose proof (useFrame_keeps ty (OrnamentsMount.mode f) data
                    (OrnamentsMount.elapsedTime f) (OrnamentsMount.delta f) st)
        as H1.
      rewrite Hm in H1. exact H1.
Qed.

(** X16: A mesh without instance data is returned untouched, its update
    counter included; with data, all of it in range, the counter goes up
    by exactly one per frame. *)
Theorem frame_bumps_the_version_once (isFormed : bool) (time delta : R)
    (mesh : InstancedMesh.t) (data : list InstanceData) (dm : Object3D.t) :
  Ornaments.updateMesh isFormed time delta (Some mesh) [] dm = (Some mesh, dm)
  /\ (data <> [] ->
      (length data <= length (InstancedMesh.instanceMatrix mesh))%nat ->
      exists mesh' : InstancedMesh.t,
        (Ornaments.updateMesh isFormed time delta (Some mesh) data dm).1
        = Some mesh'
        /\ InstancedMesh.instanceMatrix_version mesh'
           = S (InstancedMesh.instanceMatrix_version mesh)).
Proof.
  split; [reflexivity|]. intros Hne Hle. unfold Ornaments.updateMesh.
  pose proof (forEach_from_flag isFormed time delta data 0 mesh dm false)
    as [Hv [Hf _]].
  destruct (Ornaments.forEach_from isFormed time delta 0 data
              (mesh, dm, false)) as [[m1 d1] n1].
  simpl in *. rewrite (Hf Hne Hle). eexists. split; [reflexivity|].
  simpl. rewrite Hv. reflexivity.
Qed.

Lemma frame_bumps_the_version_once_witness :
  exists mesh' : InstancedMesh.t,
    (Ornaments.updateMesh false 0 (1 / 60) (Some Sample.mesh) [Sample.aBall]
       Object3D.new).1 = Some mesh'
    /\ InstancedMesh.instanceMatrix_version mesh'
       = S (InstancedMesh.instanceMatrix_version Sample.mesh).
Proof.
  apply (frame_bumps_the_version_once false 0 (1 / 60) Sample.mesh
           [Sample.aBall] Object3D.new).
  - discriminate.
  - simpl. lia.
Defined.

(** X17: When a mesh has as many instances as its data has entries, as it
    has from mounting on, a frame is a pointwise map: instance k is
    written the matrix computed from data entry k and its own previous
    matrix, independently of all the other instances. *)
Theorem frame_is_a_pointwise_map (isFormed : bool) (time delta : R)
    (mesh : InstancedMesh.t) (data : list InstanceData) (dm : Object3D.t) :
  length data = length (InstancedMesh.instanceMatrix mesh) ->
  Object3D.up dm = Vector3.mk 0 1 0 ->
  exists mesh' : InstancedMesh.t,
    (Ornaments.updateMesh isFormed time delta (Some mesh) data dm).1
    = Some mesh'
    /\ InstancedMesh.instanceMatrix mesh'
       = zip_with (written isFormed time delta) data
           (InstancedMesh.instanceMatrix mesh).
Proof.
  intros Hlen Hup. unfold Ornaments.updateMesh.
  pose proof (forEach_from_length isFormed time delta data 0 mesh dm false)
    as Hl.
  pose proof (fun k d m Hd Hm =>
                forEach_from_lookup isFormed time delta data 0 k mesh dm false
                  d m Hd Hm) as Hk.
  destruct (Ornaments.forEach_from isFormed time delta 0 data
              (mesh, dm, false)) as [[m1 d1] n1].
  cbn [fst snd] in Hl, Hk.
  exists (if n1 then InstancedMesh.set_instanceMatrix_needsUpdate m1 else m1).
  split; [reflexivity|].
  assert (Hm1 : InstancedMesh.instanceMatrix m1
                = zip_with (written isFormed time delta) data
                    (InstancedMesh.instanceMatrix mesh)).
  { apply list_eq. intros k. rewrite lookup_zip_with.
    destruct (data !! k) as [d|] eqn:Ed; simpl.
    - destruct (InstancedMesh.instanceMatrix mesh !! k) as [m|] eqn:Em; simpl.
      + destruct (Hk k d m Ed Em) as [dm' [Hup' H]].
        change (0 + k)%nat with k in H. rewrite H.
        f_equal. unfold written.
        apply updateInstance_matrix_scratch. rewrite Hup'. exact Hup.
      + apply lookup_lt_Some in Ed. apply lookup_ge_None in Em. lia.
    - apply lookup_ge_None. apply lookup_ge_None in Ed. lia. }
  destruct n1; exact Hm1.
Qed.

Lemma frame_is_a_pointwise_map_witness :
  exists mesh' : InstancedMesh.t,
    (Ornaments.updateMesh false 0 (1 / 60) (Some Sample.mesh) [Sample.aBall]
       Object3D.new).1 = Some mesh'
    /\ InstancedMesh.instanceMatrix mesh'
       = zip_with (written false 0 (1 / 60)) [Sample.aBall]
           (InstancedMesh.instanceMatrix Sample.mesh).
Proof.
  apply (frame_is_a_pointwise_map false 0 (1 / 60) Sample.mesh
           [Sample.aBall] Object3D.new); reflexivity.
Defined.

(** ** What one update writes *)

(** On the axis [lookAt] has nothing to look at and keeps the object
    unrotated. *)
Lemma lookAt_on_axis (p : Vector3.t) :
  Vector3.x p * Vector3.x p + Vector3.z p * Vector3.z p = 0 ->
  Matrix4.lookAt Matrix4.identity (Vector3.mk 0 (Vector3.y p) 0) p
    (Vector3.mk 0 1 0)
  = yaw 0 1.
Proof.
  intros H0.
  assert (Hx : Vector3.x p = 0).
  { apply Rsqr_0_uniq. pose proof (Rle_0_sqr (Vector3.x p)).
    pose proof (Rle_0_sqr (Vector3.z p)). unfold Rsqr in *. lra. }
  assert (Hz : Vector3.z p = 0).
  { apply Rsqr_0_uniq. pose proof (Rle_0_sqr (Vector3.x p)).
    pose proof (Rle_0_sqr (Vector3.z p)). unfold Rsqr in *. lra. }
  unfold Matrix4.lookAt.
  set (z0 := Vector3.subVectors _ p).
  assert (Hz0 : z0 = Vector3.mk 0 0 0).
  { unfold z0, Vector3.subVectors; simpl. rewrite Hx, Hz. f_equal; ring. }
  rewrite Hz0.
  destruct (decide (Vector3.lengthSq (Vector3.mk 0 0 0) = 0)) as [_|Hn];
    [|exfalso; apply Hn; unfold Vector3.lengthSq; simpl; ring].
  simpl Vector3.x. simpl Vector3.y.
  rewrite (normalize_unit (Vector3.mk 0 0 1))
    by (unfold Vector3.lengthSq; simpl; ring).
  set (x0 := Vector3.crossVectors _ _).
  assert (Hx0 : x0 = Vector3.mk 1 0 0).
  { unfold x0, Vector3.crossVectors; simpl. f_equal; ring. }
  rewrite Hx0.
  destruct (decide (Vector3.lengthSq (Vector3.mk 1 0 0) = 0)) as [Hc|_].
  { exfalso. unfold Vector3.lengthSq in Hc; simpl in Hc. lra. }
  cbv beta iota zeta.
  rewrite !(normalize_unit (Vector3.mk 1 0 0))
    by (unfold Vector3.lengthSq; simpl; ring).
  assert (HL : Vector3.length (Vector3.mk 1 0 0) = 1).
  { unfold Vector3.length, Vector3.lengthSq, JsMath.sqrt; simpl.
    replace (1 * 1 + 0 * 0 + 0 * 0) with 1 by ring. apply sqrt_1. }
  unfold yaw, Vector3.crossVectors, Vector3.normalize, Vector3.divideScalar;
    simpl.
  rewrite ?HL. destruct (decide (1 = 0)); [lra|].
  f_equal; lra.
Qed.

(** The matrix written for a ball or a light, wherever it stands. *)
Lemma updateInstance_matrix_yaw (isFormed : bool) (time delta : R)
    (d : InstanceData) (m : Matrix4.t) (dm : Object3D.t) :
  type d <> gift ->
  Object3D.up dm = Vector3.mk 0 1 0 ->
  let p := newPosition isFormed time delta d (Vector3_setFromMatrixPosition m) in
  let s := newScale time d in
  exists a b : R,
    a * a + b * b = 1
    /\ Object3D.matrix (Ornaments.updateInstance isFormed time delta d m dm)
       = Matrix4.mk (b * s) 0 (- a * s) 0  0 s 0 0  (a * s) 0 (b * s) 0
           (Vector3.x p) (Vector3.y p) (Vector3.z p) 1.
Proof.
  intros Hg Hup p s.
  destruct (Req_dec (Vector3.x p * Vector3.x p + Vector3.z p * Vector3.z p) 0)
    as [H0|Hoff].
  - exists 0, 1. split; [ring|].
    rewrite updateInstance_matrix_other by assumption. cbv zeta. fold p.
    unfold facing. rewrite Hup, (lookAt_on_axis p H0). fold s.
    apply yaw_quaternion_matrix. ring.
  - pose proof (updateInstance_matrix_facing isFormed time delta d m dm Hg Hup
                  Hoff) as HM.
    pose proof (rho_pos p Hoff) as Hr. pose proof (rho_sqr p Hoff) as Hq.
    cbv zeta in HM. fold p in HM. fold s in HM.
    set (rho := R_sqrt.sqrt _) in *.
    exists (- Vector3.x p / rho), (- Vector3.z p / rho).
    split; [|exact HM].
    transitivity (/ rho * / rho
                  * (Vector3.x p * Vector3.x p + Vector3.z p * Vector3.z p)).
    + unfold Rdiv. ring.
    + rewrite <- Hq. field. lra.
Qed.

(** X18: A ball or a light is always written upright: its matrix is a
    rotation about the vertical axis times its uniform scale, so that its
    own vertical axis stays vertical and no shear or tilt is ever
    introduced. *)
Theorem balls_and_lights_stay_upright (isFormed : bool) (time delta : R)
    (d : InstanceData) (m : Matrix4.t) (dm : Object3D.t) :
  type d <> gift ->
  Object3D.up dm = Vector3.mk 0 1 0 ->
  let M := Object3D.matrix
             (Ornaments.updateInstance isFormed time delta d m dm) in
  let s := newScale time d in
  (Matrix4.te4 M, Matrix4.te5 M, Matrix4.te6 M) = (0, s, 0)
  /\ Matrix4.te1 M = 0 /\ Matrix4.te9 M = 0
  /\ Matrix4.te10 M = Matrix4.te0 M /\ Matrix4.te2 M = - Matrix4.te8 M
  /\ Matrix4.te0 M * Matrix4.te0 M + Matrix4.te8 M * Matrix4.te8 M = s * s
  /\ (Matrix4.te3 M, Matrix4.te7 M, Matrix4.te11 M, Matrix4.te15 M)
     = (0, 0, 0, 1).
Proof.
  intros Hg Hup M s.
  destruct (updateInstance_matrix_yaw isFormed time delta d m dm Hg Hup)
    as [a [b [Hab HM]]].
  unfold M. rewrite HM. simpl. fold s.
  repeat split; try reflexivity; try ring.
  transitivity (s * s * (a * a + b * b)); [ring|rewrite Hab; ring].
Qed.

Lemma balls_and_lights_stay_upright_witness :
  let M := Object3D.matrix
             (Ornaments.updateInstance true 1 (1 / 60) Sample.aBall
                Sample.onTarget Object3D.new) in
  Matrix4.te1 M = 0.
Proof.
  apply (balls_and_lights_stay_upright true 1 (1 / 60) Sample.aBall
           Sample.onTarget Object3D.new).
  - discriminate.
  - reflexivity.
Defined.

Lemma decompose_yaw_scale (a b s px py pz : R) :
  a * a + b * b = 1 -> 0 < s ->
  (Matrix4_decompose
     (Matrix4.mk (b * s) 0 (- a * s) 0  0 s 0 0  (a * s) 0 (b * s) 0
        px py pz 1)).2
  = Vector3.setScalar s.
Proof.
  intros Hab Hs. unfold Matrix4_decompose. cbn [snd].
  assert (Hdet : ~ Matrix4.determinant
                     (Matrix4.mk (b * s) 0 (- a * s) 0  0 s 0 0
                        (a * s) 0 (b * s) 0  px py pz 1) < 0).
  { unfold Matrix4.determinant; simpl.
    match goal with |- ~ ?t < 0 =>
      replace t with (s * s * s * (a * a + b * b)) by ring end.
    rewrite Hab. nra. }
  destruct (decide (_ < 0)) as [Hd|_]; [contradiction|].
  unfold Vector3.length, Vector3.lengthSq, JsMath.sqrt, Vector3.setScalar;
    simpl.
  f_equal.
  - replace (_ + _) with (s * s * (a * a + b * b)) by ring.
    rewrite Hab, Rmult_1_r. apply sqrt_square; lra.
  - replace (_ + _) with (s * s) by ring. apply sqrt_square; lra.
  - replace (_ + _) with (s * s * (a * a + b * b)) by ring.
    rewrite Hab, Rmult_1_r. apply sqrt_square; lra.
Qed.

(** X19: The scale a frame writes is the scale the next frame reads back:
    the instance scale for a ball or a gift, and for a light the instance
    scale times the pulse, which stays between 0.7 and 1.3. *)
Theorem written_scale_is_read_back (isFormed : bool) (time delta : R)
    (d : InstanceData) (m : Matrix4.t) (dm : Object3D.t) :
  0 < scale d ->
  Object3D.up dm = Vector3.mk 0 1 0 ->
  let M := Object3D.matrix
             (Ornaments.updateInstance isFormed time delta d m dm) in
  (Matrix4_decompose M).2 = Vector3.setScalar (newScale time d)
  /\ (type d <> light -> newScale time d = scale d)
  /\ 0.7 * scale d <= newScale time d <= 1.3 * scale d.
Proof.
  intros Hs Hup M.
  pose proof (newScale_pos time d Hs) as Hn.
  split; [|split].
  - destruct (decide (type d = gift)) as [Hg|Hg].
    + unfold M. rewrite updateInstance_matrix_gift by assumption.
      assert (Hns : newScale time d = scale d).
      { unfold newScale. destruct (decide (type d = light)); congruence. }
      rewrite Hns. rewrite decompose_compose;
        [reflexivity|apply setFromEuler_unit|assumption].
    + destruct (updateInstance_matrix_yaw isFormed time delta d m dm Hg Hup)
        as [a [b [Hab HM]]].
      unfold M. rewrite HM. apply decompose_yaw_scale; assumption.
  - intros Hl. unfold newScale. destruct (decide (type d = light));
      [contradiction|reflexivity].
  - unfold newScale. destruct (decide (type d = light)); [|lra].
    pose proof (sin_abs_le (time * 5 + Vector3.y (chaosPos d))). nra.
Qed.

Lemma written_scale_is_read_back_witness :
  (Matrix4_decompose
     (Object3D.matrix
        (Ornaments.updateInstance true 1 (1 / 60) Sample.aGift
           Sample.onTarget Object3D.new))).2
  = Vector3.setScalar (newScale 1 Sample.aGift).
Proof.
  apply (written_scale_is_read_back true 1 (1 / 60) Sample.aGift
           Sample.onTarget Object3D.new).
  - simpl. lra.
  - reflexivity.
Defined.

(** X20: The Euler angles a frame gives a gift are the angles the next frame
    reads back from the matrix, as long as they lie in the range in which
    three.js reports angles: the spin accumulates from frame to frame
    through the matrix alone. *)
Theorem gift_angles_are_read_back (isFormed : bool) (time delta : R)
    (d : InstanceData) (m : Matrix4.t) (dm : Object3D.t) :
  type d = gift ->
  0 < scale d ->
  canonical (spun delta (readRotation m)) ->
  readRotation
    (Object3D.matrix (Ornaments.updateInstance isFormed time delta d m dm))
  = spun delta (readRotation m).
Proof.
  intros Hg Hs Hc. rewrite updateInstance_matrix_gift by assumption.
  apply readRotation_compose; assumption.
Qed.

Lemma canonical_small (x y : R) :
  0 <= x <= 1 -> 0 <= y <= 1 -> canonical (Euler.mk x y 0).
Proof.
  intros Hx Hy. pose proof PI2_1 as Hpi. unfold canonical; simpl.
  repeat split; lra.
Qed.

Lemma gift_angles_are_read_back_witness :
  readRotation
    (Object3D.matrix
       (Ornaments.updateInstance false 0 (1 / 60) Sample.aGift restingGift
          Object3D.new))
  = spun (1 / 60) (readRotation restingGift).
Proof.
  assert (Hr : readRotation restingGift = Euler.zero).
  { unfold restingGift. apply readRotation_compose; [|lra].
    apply canonical_small; lra. }
  apply (gift_angles_are_read_back false 0 (1 / 60) Sample.aGift restingGift
           Object3D.new).
  - reflexivity.
  - simpl. lra.
  - rewrite Hr. unfold spun, Euler.zero; simpl.
    apply canonical_small; lra.
Defined.

(** ** Where an update moves an instance *)

Lemma lerp_self (p : Vector3.t) (a : R) : Vector3.lerp p p a = p.
Proof. destruct p; unfold Vector3.lerp; simpl. f_equal; ring. Qed.

Lemma distanceTo_self (p : Vector3.t) : Vector3.distanceTo p p = 0.
Proof.
  unfold Vector3.distanceTo, Vector3.distanceToSquared, JsMath.sqrt.
  replace (_ + _) with 0 by ring. apply sqrt_0.
Qed.

(** X21: An instance that has arrived stays: at its chaos position in
    scattered mode a frame of any length writes the same position again;
    on its target in formed mode a frame of any length moves it only
    vertically, by the idle offset. *)
Theorem arrived_instances_stay (time delta : R) (d : InstanceData)
    (m : Matrix4.t) (dm : Object3D.t) :
  (Vector3_setFromMatrixPosition m = chaosPos d ->
     Vector3_setFromMatrixPosition
       (Object3D.matrix (Ornaments.updateInstance false time delta d m dm))
     = chaosPos d)
  /\ (Vector3_setFromMatrixPosition m = targetPos d ->
      Vector3_setFromMatrixPosition
        (Object3D.matrix (Ornaments.updateInstance true time delta d m dm))
      = Vector3.mk (Vector3.x (targetPos d))
          (Vector3.y (targetPos d) + bob time d) (Vector3.z (targetPos d))).
Proof.
  split; intros Hp; rewrite updateInstance_matrix_position, Hp;
    unfold newPosition, lerped, dest, bobs; rewrite lerp_self.
  - reflexivity.
  - rewrite distanceTo_self.
    rewrite bool_decide_eq_true_2 by lra. reflexivity.
Qed.

Lemma arrived_instances_stay_witness :
  Vector3_setFromMatrixPosition
    (Object3D.matrix
       (Ornaments.updateInstance true 1 5 Sample.aBall Sample.onTarget
          Object3D.new))
  = Vector3.mk (Vector3.x (targetPos Sample.aBall))
      (Vector3.y (targetPos Sample.aBall) + bob 1 Sample.aBall)
      (Vector3.z (targetPos Sample.aBall)).
Proof.
  apply (arrived_instances_stay 1 5 Sample.aBall Sample.onTarget Object3D.new).
  reflexivity.
Defined.

(** X22: The idle motion never moves an instance sideways and never by more
    than 0.002 per frame vertically: the position written differs from
    the interpolated one in height only, by at most 0.002, and not at all
    in scattered mode or 0.5 or more away from the target. *)
Theorem bobbing_is_vertical_and_small (isFormed : bool) (time delta : R)
    (d : InstanceData) (m : Matrix4.t) (dm : Object3D.t) :
  let q := Vector3.lerp (Vector3_setFromMatrixPosition m)
             (if isFormed then targetPos d else chaosPos d)
             (delta * speed d) in
  let p' := Vector3_setFromMatrixPosition
              (Object3D.matrix
                 (Ornaments.updateInstance isFormed time delta d m dm)) in
  Vector3.x p' = Vector3.x q
  /\ Vector3.z p' = Vector3.z q
  /\ Rabs (Vector3.y p' - Vector3.y q) <= 0.002
  /\ (isFormed = false \/ 0.5 <= Vector3.distanceTo q (targetPos d) ->
      p' = q).
Proof.
  intros q p'. unfold p'. rewrite updateInstance_matrix_position.
  unfold newPosition, lerped, dest. fold q.
  pose proof (sin_abs_le (time * 2 + Vector3.x (chaosPos d))) as Hs.
  destruct (bobs isFormed d q) eqn:Hb; simpl.
  - split; [reflexivity|]. split; [reflexivity|]. split.
    + match goal with |- Rabs ?t <= _ =>
        replace t with (bob time d) by ring end.
      unfold bob. apply Rabs_le. lra.
    + unfold bobs in Hb. apply andb_true_iff in Hb. destruct Hb as [Hf Hd].
      apply bool_decide_eq_true_1 in Hd.
      intros [H|H]; [congruence|lra].
  - split; [reflexivity|]. split; [reflexivity|]. split; [|reflexivity].
    match goal with |- Rabs ?t <= _ => replace t with 0 by ring end.
    rewrite Rabs_R0. lra.
Qed.

(** ** The path of an ornament from mounting on *)

Lemma render_position (ty : OrnamentType) (data : Ornaments.Data)
    (st : Ornaments.State) (f : OrnamentsMount.Render) (k : nat)
    (d : InstanceData) (mesh : InstancedMesh.t) (m : Matrix4.t) :
  OrnamentsMount.mode f = CHAOS ->
  dataOf ty data !! k = Some d ->
  refOf ty st = Some mesh ->
  InstancedMesh.instanceMatrix mesh !! k = Some m ->
  exists (mesh' : InstancedMesh.t) (m' : Matrix4.t),
    refOf ty (OrnamentsMount.render data st f) = Some mesh'
    /\ InstancedMesh.instanceMatrix mesh' !! k = Some m'
    /\ Vector3_setFromMatrixPosition m'
       = Vector3.lerp (Vector3_setFromMatrixPosition m) (chaosPos d)
           (OrnamentsMount.delta f * speed d).
Proof.
  intros Hmode Hd Hr Hm. unfold OrnamentsMount.render.
  rewrite (useFrame_refOf ty _ data _ _ st (Ornaments.dummy st) eq_refl).
  rewrite Hr, Hmode. simpl TreeMode_eqb.
  destruct (updateMesh_lookup false (OrnamentsMount.elapsedTime f)
              (OrnamentsMount.delta f) mesh (dataOf ty data)
              (Ornaments.dummy st) k d m Hd Hm) as [mesh' [dm' [H1 [_ H2]]]].
  exists mesh'. eexists. split; [exact H1|]. split; [exact H2|].
  rewrite updateInstance_matrix_position. reflexivity.
Qed.

Lemma lerp_residual (p c : Vector3.t) (a : R) :
  Vector3.subVectors c (Vector3.lerp p c a)
  = Vector3.multiplyScalar (Vector3.subVectors c p) (1 - a).
Proof.
  unfold Vector3.subVectors, Vector3.multiplyScalar, Vector3.lerp; simpl.
  f_equal; ring.
Qed.

Lemma renders_position (ty : OrnamentType) (data : Ornaments.Data) (k : nat)
    (d : InstanceData) (frames : list OrnamentsMount.Render) :
  Forall (fun f => OrnamentsMount.mode f = CHAOS) frames ->
  dataOf ty data !! k = Some d ->
  forall (st : Ornaments.State) (mesh : InstancedMesh.t) (m : Matrix4.t),
    refOf ty st = Some mesh ->
    InstancedMesh.instanceMatrix mesh !! k = Some m ->
    exists (mesh' : InstancedMesh.t) (m' : Matrix4.t),
      refOf ty (OrnamentsMount.renders data frames st) = Some mesh'
      /\ InstancedMesh.instanceMatrix mesh' !! k = Some m'
      /\ Vector3.subVectors (chaosPos d) (Vector3_setFromMatrixPosition m')
         = Vector3.multiplyScalar
             (Vector3.subVectors (chaosPos d) (Vector3_setFromMatrixPosition m))
             (remaining (speed d) frames).
Proof.
  intros Hf Hd.
  induction frames as [|f frames IH]; intros st mesh m Hr Hm.
  - exists mesh, m. split; [exact Hr|]. split; [exact Hm|].
    unfold remaining; simpl. destruct (Vector3.subVectors _ _).
    unfold Vector3.multiplyScalar; simpl. f_equal; ring.
  - inversion Hf as [|? ? Hmode Hrest]; subst.
    destruct (render_position ty data st f k d mesh m Hmode Hd Hr Hm)
      as [mesh1 [m1 [Hr1 [Hm1 Hp1]]]].
    destruct (IH Hrest (OrnamentsMount.render data st f) mesh1 m1 Hr1 Hm1)
      as [mesh' [m' [Hr' [Hm' Hp']]]].
    exists mesh', m'. split; [exact Hr'|]. split; [exact Hm'|].
    rewrite Hp', Hp1, lerp_residual.
    unfold remaining; simpl. fold (remaining (speed d) frames).
    destruct (Vector3.subVectors _ _).
    unfold Vector3.multiplyScalar; simpl. f_equal; ring.
Qed.

(** X23: From mounting on, in scattered mode, the k-th instance of each mesh
    starts at the origin and after any run of frames, of any lengths,
    stands at its chaos position scaled by 1 - (1 - delta_1 speed) ...
    (1 - delta_n speed): its path depends on nothing but its own chaos
    position and speed and the frame lengths. *)
Theorem scattering_path_from_mount (ty : OrnamentType)
    (data : Ornaments.Data) (k : nat) (d : InstanceData)
    (frames : list OrnamentsMount.Render) :
  Forall (fun f => OrnamentsMount.mode f = CHAOS) frames ->
  dataOf ty data !! k = Some d ->
  exists (mesh : InstancedMesh.t) (m : Matrix4.t),
    refOf ty (OrnamentsMount.renders data frames (OrnamentsMount.mount data))
    = Some mesh
    /\ InstancedMesh.instanceMatrix mesh !! k = Some m
    /\ Vector3_setFromMatrixPosition m
       = Vector3.multiplyScalar (chaosPos d)
           (1 - remaining (speed d) frames).
Proof.
  intros Hf Hd.
  assert (Hk : (k < length (dataOf ty data))%nat)
    by (eapply lookup_lt_Some, Hd).
  destruct (renders_position ty data k d frames Hf Hd
              (OrnamentsMount.mount data)
              (InstancedMesh.new (length (dataOf ty data))) Matrix4.identity)
    as [mesh [m [H1 [H2 H3]]]].
  - destruct ty; reflexivity.
  - simpl. apply lookup_replicate_2. exact Hk.
  - exists mesh, m. split; [exact H1|]. split; [exact H2|].
    destruct (chaosPos d) as [cx cy cz].
    destruct (Vector3_setFromMatrixPosition m) as [px py pz].
    unfold Vector3.subVectors, Vector3.multiplyScalar in *; simpl in *.
    injection H3 as Hx Hy Hz. f_equal; lra.
Qed.

Lemma scattering_path_from_mount_witness :
  exists (mesh : InstancedMesh.t) (m : Matrix4.t),
    refOf ball
      (OrnamentsMount.renders (Ornaments.mkData [Sample.aBall] [] [])
         [OrnamentsMount.mkRender CHAOS 0 (1 / 60);
          OrnamentsMount.mkRender CHAOS (1 / 60) 3]
         (OrnamentsMount.mount (Ornaments.mkData [Sample.aBall] [] [])))
    = Some mesh
    /\ InstancedMesh.instanceMatrix mesh !! 0%nat = Some m
    /\ Vector3_setFromMatrixPosition m
       = Vector3.multiplyScalar (chaosPos Sample.aBall)
           (1 - remaining (speed Sample.aBall)
                  [OrnamentsMount.mkRender CHAOS 0 (1 / 60);
                   OrnamentsMount.mkRender CHAOS (1 / 60) 3]).
Proof.
  apply (scattering_path_from_mount ball
           (Ornaments.mkData [Sample.aBall] [] []) 0 Sample.aBall
           [OrnamentsMount.mkRender CHAOS 0 (1 / 60);
            OrnamentsMount.mkRender CHAOS (1 / 60) 3]).
  - repeat (apply Forall_cons; split; [reflexivity|]). apply Forall_nil. exact I.
  - reflexivity.
Defined.

(** ** The layout effect *)

Section Colouring.

Import OrnamentsMount.

Lemma setColorAt_coloursOf (mesh : InstancedMesh.t) (i : nat) (c : string) :
  coloursOf (InstancedMesh_setColorAt mesh i c) = <[i := c]> (coloursOf mesh)
  /\ InstancedMesh.instanceMatrix (InstancedMesh_setColorAt mesh i c)
     = InstancedMesh.instanceMatrix mesh
  /\ InstancedMesh.instanceMatrix_version (InstancedMesh_setColorAt mesh i c)
     = InstancedMesh.instanceMatrix_version mesh
  /\ is_Some (InstancedMesh.instanceColor (InstancedMesh_setColorAt mesh i c)).
Proof.
  unfold coloursOf, InstancedMesh_setColorAt; simpl.
  repeat split; eauto.
Qed.

(** What the inner loop does when every colour is defined. *)
Lemma setColors_from_spec (data : list InstanceData) :
  coloured data ->
  forall (i : nat) (mesh : InstancedMesh.t),
    (setColors_from i data mesh).2 = Completed
    /\ InstancedMesh.instanceMatrix (setColors_from i data mesh).1
       = InstancedMesh.instanceMatrix mesh
    /\ InstancedMesh.instanceMatrix_version (setColors_from i data mesh).1
       = InstancedMesh.instanceMatrix_version mesh
    /\ (data = [] -> (setColors_from i data mesh).1 = mesh)
    /\ (data <> [] ->
        is_Some (InstancedMesh.instanceColor (setColors_from i data mesh).1))
    /\ length (coloursOf (setColors_from i data mesh).1)
       = length (coloursOf mesh)
    /\ (forall j : nat,
          (j < i)%nat ->
          coloursOf (setColors_from i data mesh).1 !! j = coloursOf mesh !! j)
    /\ (forall (k : nat) (d : InstanceData),
          data !! k = Some d ->
          (i + k < length (coloursOf mesh))%nat ->
          coloursOf (setColors_from i data mesh).1 !! (i + k)%nat = color d).
Proof.
  intros Hc. induction data as [|d rest IH]; intros i mesh.
  - simpl. repeat split; try reflexivity.
    + intros H; contradiction.
    + intros k d H. discriminate.
  - inversion Hc as [|? ? [c Hd] Hrest]; subst.
    simpl. rewrite Hd.
    destruct (setColorAt_coloursOf mesh i c) as [Hcol [Hmat [Hver Hsome]]].
    destruct (IH Hrest (S i) (InstancedMesh_setColorAt mesh i c))
      as [H1 [H2 [H3 [H4 [H5 [H6 [H7 H8]]]]]]].
    split; [exact H1|]. split; [congruence|]. split; [congruence|].
    split; [intros H; discriminate|].
    split.
    { intros _. destruct rest as [|d' rest'].
      - rewrite (H4 eq_refl). exact Hsome.
      - apply H5. discriminate. }
    split; [rewrite H6, Hcol, length_insert; reflexivity|].
    split.
    { intros j Hj. rewrite H7 by lia. rewrite Hcol.
      apply list_lookup_insert_ne. lia. }
    intros k d0 Hk Hlt. destruct k as [|k].
    + injection Hk as <-. rewrite Nat.add_0_r in *.
      rewrite H7 by lia. rewrite Hcol, Hd.
      apply list_lookup_insert_eq. exact Hlt.
    + simpl in Hk. replace (i + S k)%nat with (S i + k)%nat in * by lia.
      apply H8; [exact Hk|]. rewrite Hcol, length_insert. exact Hlt.
Qed.

(** One freshly created mesh: the effect completes exactly when there is
    data, and then every instance carries the colour of its data entry
    and keeps its matrix. *)
Lemma colorMesh_new (data : list InstanceData) :
  coloured data ->
  let r := colorMesh (Some (InstancedMesh.new (length data))) data in
  (r.2 = Completed <-> data <> [])
  /\ exists mesh : InstancedMesh.t,
       r.1 = Some mesh
       /\ InstancedMesh.instanceMatrix mesh
          = replicate (length data) Matrix4.identity
       /\ (data <> [] ->
           exists cs : list string,
             InstancedMesh.instanceColor mesh = Some cs
             /\ Some <$> cs = color <$> data).
Proof.
  intros Hc r. unfold r, colorMesh.
  destruct (setColors_from_spec data Hc 0
              (InstancedMesh.new (length data)))
    as [H1 [H2 [H3 [H4 [H5 [H6 [_ H8]]]]]]].
  destruct (setColors_from 0 data (InstancedMesh.new (length data)))
    as [mesh' c] eqn:E.
  cbn [fst snd] in *. subst c.
  destruct (decide (data = [])) as [Hnil|Hne].
  - rewrite (H4 Hnil). simpl.
    split; [split; [discriminate|intros H; contradiction]|].
    eexists. split; [reflexivity|]. split; [reflexivity|].
    intros H; contradiction.
  - destruct (H5 Hne) as [cs Hcs].
    rewrite Hcs. cbn [fst snd].
    split; [split; [intros _; exact Hne|reflexivity]|].
    exists mesh'. split; [reflexivity|]. split; [exact H2|].
    intros _. exists cs. split; [exact Hcs|].
    assert (Hcol : coloursOf mesh' = cs)
      by (unfold coloursOf; rewrite Hcs; reflexivity).
    rewrite Hcol in *.
    assert (Hlen : length (coloursOf (InstancedMesh.new (length data)))
                   = length data).
    { unfold coloursOf; simpl. rewrite !length_replicate. reflexivity. }
    rewrite Hlen in *.
    apply list_eq. intros k. rewrite !list_lookup_fmap.
    destruct (data !! k) as [d|] eqn:Ek.
    + apply lookup_lt_Some in Ek as Hlt.
      pose proof (H8 k d Ek Hlt) as Hk. simpl in Hk. rewrite Hk.
      assert (Hd : is_Some (color d)).
      { eapply (proj1 (Forall_lookup _ _) Hc); exact Ek. }
      destruct Hd as [c Hd]. simpl. rewrite Hd. reflexivity.
    + apply lookup_ge_None in Ek.
      rewrite (proj2 (lookup_ge_None cs k)) by lia.
      reflexivity.
Qed.

End Colouring.

(** The layout effect on the freshly mounted meshes. *)
Lemma useLayoutEffect_mount (data : Ornaments.Data) :
  coloured (allData data) ->
  let r := OrnamentsMount.useLayoutEffect data (OrnamentsMount.mount data) in
  (r.2 = OrnamentsMount.Completed
   <-> Ornaments.ballsData data <> [] /\ Ornaments.giftsData data <> []
       /\ Ornaments.lightsData data <> [])
  /\ (r.2 = OrnamentsMount.Completed ->
      forall ty : OrnamentType,
      exists (mesh : InstancedMesh.t) (cs : list string),
        refOf ty r.1 = Some mesh
        /\ InstancedMesh.instanceColor mesh = Some cs
        /\ Some <$> cs = color <$> dataOf ty data
        /\ InstancedMesh.instanceMatrix mesh
           = replicate (length (dataOf ty data)) Matrix4.identity).
Proof.
  intros Hc. unfold allData, coloured in Hc. rewrite !Forall_app in Hc.
  destruct Hc as [Hb [Hg Hl]].
  unfold OrnamentsMount.useLayoutEffect, OrnamentsMount.mount.
  cbn [Ornaments.ballsRef Ornaments.giftsRef Ornaments.lightsRef
       Ornaments.dummy].
  destruct (colorMesh_new _ Hb) as [Cb [mb [Eb [Mb Kb]]]].
  destruct (colorMesh_new _ Hg) as [Cg [mg [Eg [Mg Kg]]]].
  destruct (colorMesh_new _ Hl) as [Cl [ml [El [Ml Kl]]]].
  destruct (OrnamentsMount.colorMesh _ (Ornaments.ballsData data)) as [b cb].
  destruct (OrnamentsMount.colorMesh _ (Ornaments.giftsData data)) as [g cg].
  destruct (OrnamentsMount.colorMesh _ (Ornaments.lightsData data)) as [l cl].
  cbn [fst snd] in *. subst b g l.
  destruct cb, cg, cl; cbn [fst snd];
    (split; [intuition congruence|]); try (intros H; discriminate H).
  intros _ ty.
  destruct (Kb (proj1 Cb eq_refl)) as [csb [Ib Fb]].
  destruct (Kg (proj1 Cg eq_refl)) as [csg [Ig Fg]].
  destruct (Kl (proj1 Cl eq_refl)) as [csl [Il Fl]].
  destruct ty; unfold refOf, dataOf; cbn [Ornaments.ballsRef
    Ornaments.giftsRef Ornaments.lightsRef]; eauto 10.
Qed.

(** A mesh without data is left as it was created, and the effect
    throws on it. *)
Lemma colorMesh_new_empty :
  OrnamentsMount.colorMesh (Some (InstancedMesh.new 0)) []
  = (Some (InstancedMesh.new 0), OrnamentsMount.TypeError).
Proof. reflexivity. Qed.

(** X24: After mounting, the layout effect runs to completion exactly when
    none of the three categories is empty.  It colours the meshes in the
    order balls, gifts, lights and throws a TypeError at the first empty
    category (in particular for count = 0), on setting [needsUpdate] on
    the colour attribute that was never created: the meshes before it
    carry the colours of their data, and that mesh and the meshes after
    it are left as they were created, without a colour attribute. *)
Theorem layout_effect_needs_every_category (data : Ornaments.Data) :
  coloured (allData data) ->
  let r := OrnamentsMount.useLayoutEffect data (OrnamentsMount.mount data) in
  (r.2 = OrnamentsMount.Completed
   <-> Ornaments.ballsData data <> [] /\ Ornaments.giftsData data <> []
       /\ Ornaments.lightsData data <> [])
  /\ forall ty : OrnamentType,
       (painted ty data ->
        exists (mesh : InstancedMesh.t) (cs : list string),
          refOf ty r.1 = Some mesh
          /\ InstancedMesh.instanceColor mesh = Some cs
          /\ Some <$> cs = color <$> dataOf ty data)
       /\ (~ painted ty data ->
           refOf ty r.1
           = Some (InstancedMesh.new (length (dataOf ty data)))
           /\ InstancedMesh.instanceColor
                (InstancedMesh.new (length (dataOf ty data))) = None).
Proof.
  intros Hc r. split; [exact (proj1 (useLayoutEffect_mount data Hc))|].
  unfold allData, coloured in Hc. rewrite !Forall_app in Hc.
  destruct Hc as [Hb [Hg Hl]].
  subst r. unfold OrnamentsMount.useLayoutEffect, OrnamentsMount.mount.
  cbn [Ornaments.ballsRef Ornaments.giftsRef Ornaments.lightsRef
       Ornaments.dummy].
  destruct (colorMesh_new _ Hb) as [Cb [mb [Eb [_ Kb]]]].
  destruct (colorMesh_new _ Hg) as [Cg [mg [Eg [_ Kg]]]].
  destruct (colorMesh_new _ Hl) as [Cl [ml [El [_ Kl]]]].
  pose proof colorMesh_new_empty as He.
  unfold painted, dataOf, earlier.
  destruct (Ornaments.ballsData data) as [|b0 bs] eqn:Db.
  { simpl length in *. rewrite He. cbn [fst snd refOf Ornaments.ballsRef
      Ornaments.giftsRef Ornaments.lightsRef].
    intros ty; split.
    - intros [Hall Hne]. destruct ty.
      + contradiction.
      + apply Forall_cons in Hall as [Hx _]. contradiction.
      + apply Forall_cons in Hall as [Hx _]. contradiction.
    - intros _. destruct ty; split; reflexivity. }
  destruct (OrnamentsMount.colorMesh _ (b0 :: bs)) as [b cb].
  cbn [fst snd] in Cb, Eb. subst b.
  rewrite (proj2 Cb ltac:(discriminate)).
  destruct (Kb ltac:(discriminate)) as [csb [Ib Fb]].
  destruct (Ornaments.giftsData data) as [|g0 gs] eqn:Dg.
  { simpl length in *. rewrite He. cbn [fst snd refOf Ornaments.ballsRef
      Ornaments.giftsRef Ornaments.lightsRef].
    intros ty; split.
    - intros [Hall Hne]. destruct ty.
      + eauto.
      + contradiction.
      + apply Forall_cons in Hall as [_ Hall].
        apply Forall_cons in Hall as [Hx _]. contradiction.
    - intros Hn. destruct ty.
      + exfalso. apply Hn. split; [apply Forall_nil; exact I|discriminate].
      + split; reflexivity.
      + split; reflexivity. }
  destruct (OrnamentsMount.colorMesh _ (g0 :: gs)) as [g cg].
  cbn [fst snd] in Cg, Eg. subst g.
  rewrite (proj2 Cg ltac:(discriminate)).
  destruct (Kg ltac:(discriminate)) as [csg [Ig Fg]].
  destruct (Ornaments.lightsData data) as [|l0 ls] eqn:Dl.
  { simpl length in *. rewrite He. cbn [fst snd refOf Ornaments.ballsRef
      Ornaments.giftsRef Ornaments.lightsRef].
    intros ty; split.
    - intros [Hall Hne]. destruct ty.
      + eauto.
      + eauto.
      + contradiction.
    - intros Hn. destruct ty.
      + exfalso. apply Hn. split; [apply Forall_nil; exact I|discriminate].
      + exfalso. apply Hn. split; [|discriminate].
        apply Forall_cons; split; [discriminate|apply Forall_nil; exact I].
      + split; reflexivity. }
  destruct (OrnamentsMount.colorMesh _ (l0 :: ls)) as [l cl].
  cbn [fst snd] in Cl, El. subst l.
  destruct (Kl ltac:(discriminate)) as [csl [Il Fl]].
  cbn [fst snd refOf Ornaments.ballsRef Ornaments.giftsRef
       Ornaments.lightsRef].
  intros ty; split.
  - intros _. destruct ty; eauto.
  - intros Hn. exfalso. apply Hn. destruct ty; (split; [|discriminate]).
    + apply Forall_nil; exact I.
    + apply Forall_cons; split; [discriminate|apply Forall_nil; exact I].
    + apply Forall_cons; split; [discriminate|].
      apply Forall_cons; split; [discriminate|apply Forall_nil; exact I].
Qed.

Lemma layout_effect_needs_every_category_witness :
  painted ball (Ornaments.mkData [Sample.aBall] [] [aLight])
  /\ ~ painted light (Ornaments.mkData [Sample.aBall] [] [aLight])
  /\ (OrnamentsMount.useLayoutEffect
        (Ornaments.mkData [Sample.aBall] [] [aLight])
        (OrnamentsMount.mount
           (Ornaments.mkData [Sample.aBall] [] [aLight]))).2
     <> OrnamentsMount.Completed
  /\ refOf light
       (OrnamentsMount.useLayoutEffect
          (Ornaments.mkData [Sample.aBall] [] [aLight])
          (OrnamentsMount.mount
             (Ornaments.mkData [Sample.aBall] [] [aLight]))).1
     = Some (InstancedMesh.new 1).
Proof.
  assert (Hc : coloured (allData (Ornaments.mkData [Sample.aBall] [] [aLight]))).
  { unfold coloured, allData; simpl.
    repeat (apply Forall_cons; split; [eexists; reflexivity|]).
    apply Forall_nil. exact I. }
  assert (Hp : painted ball (Ornaments.mkData [Sample.aBall] [] [aLight])).
  { split; [apply Forall_nil; exact I|discriminate]. }
  assert (Hn : ~ painted light (Ornaments.mkData [Sample.aBall] [] [aLight])).
  { intros [Hall _]. apply Forall_cons in Hall as [_ Hall].
    apply Forall_cons in Hall as [Hx _]. apply Hx. reflexivity. }
  pose proof (layout_effect_needs_every_category
                (Ornaments.mkData [Sample.aBall] [] [aLight]) Hc) as [Hiff Hty].
  split; [exact Hp|]. split; [exact Hn|]. split.
  - intros Hdone. apply Hiff in Hdone as [_ [Hg _]]. apply Hg. reflexivity.
  - exact (proj1 (proj2 (Hty light) Hn)).
Defined.

(** X25: When the layout effect completes after mounting, no matrix has been
    touched, and from then on, whatever frames run, every instance of
    every mesh carries the colour of its data entry. *)
Theorem layout_effect_colours_every_instance (ty : OrnamentType)
    (data : Ornaments.Data) (frames : list OrnamentsMount.Render) :
  coloured (allData data) ->
  (OrnamentsMount.useLayoutEffect data (OrnamentsMount.mount data)).2
  = OrnamentsMount.Completed ->
  (exists mesh : InstancedMesh.t,
     refOf ty
       (OrnamentsMount.useLayoutEffect data (OrnamentsMount.mount data)).1
     = Some mesh
     /\ InstancedMesh.instanceMatrix mesh
        = replicate (length (dataOf ty data)) Matrix4.identity)
  /\ exists (mesh : InstancedMesh.t) (cs : list string),
       refOf ty
         (OrnamentsMount.renders data frames
            (OrnamentsMount.useLayoutEffect data
               (OrnamentsMount.mount data)).1)
       = Some mesh
       /\ InstancedMesh.instanceColor mesh = Some cs
       /\ Some <$> cs = color <$> dataOf ty data
       /\ length (InstancedMesh.instanceMatrix mesh)
          = length (dataOf ty data).
Proof.
  intros Hc Hdone.
  destruct (proj2 (useLayoutEffect_mount data Hc) Hdone ty)
    as [mesh [cs [Hm [Hcs [Hcol Hmat]]]]].
  split; [exists mesh; auto|].
  destruct (renders_keep ty data frames _ mesh Hm) as [m2 [R2 [L2 [C2 _]]]].
  exists m2, cs. split; [exact R2|]. split; [congruence|].
  split; [exact Hcol|].
  rewrite L2, Hmat, length_replicate. reflexivity.
Qed.

Lemma layout_effect_colours_every_instance_witness :
  exists (mesh : InstancedMesh.t) (cs : list string),
    refOf gift
      (OrnamentsMount.renders
         (Ornaments.mkData [Sample.aBall] [Sample.aGift] [aLight])
         [OrnamentsMount.mkRender FORMED 0 0.016]
         (OrnamentsMount.useLayoutEffect
            (Ornaments.mkData [Sample.aBall] [Sample.aGift] [aLight])
            (OrnamentsMount.mount
               (Ornaments.mkData [Sample.aBall] [Sample.aGift]
                  [aLight]))).1)
    = Some mesh
    /\ InstancedMesh.instanceColor mesh = Some cs
    /\ Some <$> cs = [Some Ornaments.silver]
    /\ length (InstancedMesh.instanceMatrix mesh) = 1%nat.
Proof.
  refine (proj2 (layout_effect_colours_every_instance gift
           (Ornaments.mkData [Sample.aBall] [Sample.aGift] [aLight])
           [OrnamentsMount.mkRender FORMED 0 0.016] _ _)).
  - unfold coloured, allData; simpl.
    repeat (apply Forall_cons; split; [eexists; reflexivity|]).
    apply Forall_nil. exact I.
  - reflexivity.
Defined.

(** * Properties of the specification that rest on whole runs *)

(** ** C5: no NaN from mounting on, for frames of bounded length *)


Lemma sqrt_le_bound (S c : R) :
  0 <= c -> JsMath.sqrt S <= c -> S <= c * c.
Proof.
  intros Hc Hs. destruct (Rle_lt_dec S (c * c)) as [H|H]; [exact H|].
  exfalso. unfold JsMath.sqrt in Hs.
  assert (R_sqrt.sqrt (c * c) < R_sqrt.sqrt S) by (apply sqrt_lt_1_alt; nra).
  rewrite sqrt_square in H0 by lra. lra.
Qed.

Lemma sqrt_lt_bound (S c : R) :
  0 <= c -> JsMath.sqrt S < c -> S < c * c.
Proof.
  intros Hc Hs. destruct (Rlt_le_dec S (c * c)) as [H|H]; [exact H|].
  exfalso. unfold JsMath.sqrt in Hs.
  assert (R_sqrt.sqrt (c * c) <= R_sqrt.sqrt S) by (apply sqrt_le_1_alt; nra).
  rewrite sqrt_square in H0 by lra. lra.
Qed.

Lemma Rabs_le_inv (a b : R) : Rabs a <= b -> - b <= a <= b.
Proof. unfold Rabs. destruct (Rcase_abs a); lra. Qed.

(** The quaternion of a rotation about the vertical axis has norm 1 and
    is extracted without a division by zero. *)
Lemma setFromRotationMatrix_yaw (a b : R) :
  a * a + b * b = 1 ->
  unitq (Quaternion_setFromRotationMatrix (yaw a b))
  /\ Quaternion_setFromRotationMatrix_defined (yaw a b).
Proof.
  intros Hab.
  unfold Quaternion_setFromRotationMatrix_defined,
    Quaternion_setFromRotationMatrix, yaw, unitq. simpl.
  replace 0.5 with (/ 2) by lra. replace 0.25 with (/ 4) by lra.
  destruct (decide (0 < b + 1 + b)) as [Ht|Ht].
  - split; [|lra].
    set (r := JsMath.sqrt (b + 1 + b + 1)).
    assert (Hr : 0 < r) by (apply sqrt_lt_R0; lra).
    assert (Hrr : r * r = b + 1 + b + 1) by (apply sqrt_sqrt; lra).
    simpl.
    assert (Ha : a * a = (1 - b) * (1 + b)) by nra.
    transitivity ((4 * (a * a) + (r * r) * (r * r)) / (4 * (r * r))).
    + field. lra.
    + rewrite Ha, Hrr. field. lra.
  - destruct (decide (1 < b /\ b < b)) as [[_ H]|_]; [lra|].
    assert (Hb : b <= 1) by nra.
    destruct (decide (b < 1)) as [Hb1|Hb1]; [|nra].
    split; [|lra].
    set (r := JsMath.sqrt (1 + 1 - b - b)).
    assert (Hr : 0 < r) by (apply sqrt_lt_R0; lra).
    assert (Hrr : r * r = 1 + 1 - b - b) by (apply sqrt_sqrt; lra).
    simpl.
    assert (Ha : a * a = (1 - b) * (1 + b)) by nra.
    transitivity ((4 * (a * a) + (r * r) * (r * r)) / (4 * (r * r))).
    + field. lra.
    + rewrite Ha, Hrr. field. lra.
Qed.

(** From any position, [lookAt(0, y, 0)] with the default up vector
    builds a rotation about the vertical axis. *)
Lemma lookAt_is_yaw (p : Vector3.t) :
  exists a b : R,
    a * a + b * b = 1
    /\ Matrix4.lookAt Matrix4.identity (Vector3.mk 0 (Vector3.y p) 0) p
         (Vector3.mk 0 1 0)
       = yaw a b.
Proof.
  destruct (Req_dec (Vector3.x p * Vector3.x p + Vector3.z p * Vector3.z p) 0)
    as [H0|Hoff].
  - exists 0, 1. split; [ring|]. apply lookAt_on_axis. exact H0.
  - pose proof (rho_pos p Hoff) as Hr. pose proof (rho_sqr p Hoff) as Hq.
    rewrite (lookAt_axis p Hoff).
    set (rho := R_sqrt.sqrt _) in *.
    exists (- Vector3.x p / rho), (- Vector3.z p / rho).
    split; [|reflexivity].
    transitivity (/ rho * / rho
                  * (Vector3.x p * Vector3.x p + Vector3.z p * Vector3.z p)).
    + unfold Rdiv. ring.
    + rewrite <- Hq. field. lra.
Qed.

Lemma facing_unit (p : Vector3.t) : unitq (facing (Vector3.mk 0 1 0) p).
Proof.
  unfold facing. destruct (lookAt_is_yaw p) as [a [b [Hab ->]]].
  apply setFromRotationMatrix_yaw. exact Hab.
Qed.

Lemma identity_settled : settled Matrix4.identity.
Proof.
  exists (Vector3.mk 0 0 0), Quaternion.identity, 1.
  split.
  - unfold Matrix4.identity, Matrix4.compose, Quaternion.identity,
      Vector3.setScalar; simpl. f_equal; ring.
  - split.
    + unfold within; simpl. rewrite Rabs_R0. lra.
    + split; [unfold unitq; simpl; ring|lra].
Qed.

Lemma q_neg_unit (q : Quaternion.t) : unitq q -> unitq (q_neg q).
Proof. destruct q. unfold unitq, q_neg; simpl. intros H. nra. Qed.

(** The elements of a rotation matrix times a scale of at most 1 are at
    most 1 in absolute value. *)
Lemma settled_entries (m : Matrix4.t) :
  settled m -> Forall (fun v => Rabs v <= 35) (entries m).
Proof.
  intros [[px py pz] [[x y z w] [s [-> [[Hx [Hy Hz]] [Hu Hs]]]]]].
  unfold unitq in Hu. simpl in Hu, Hx, Hy, Hz.
  assert (Hrs : forall r : R, -1 <= r <= 1 -> Rabs (r * s) <= 35).
  { intros r Hr. apply Rabs_le. split; nra. }
  pose proof (Rle_0_sqr (x - y)). pose proof (Rle_0_sqr (x + y)).
  pose proof (Rle_0_sqr (w - z)). pose proof (Rle_0_sqr (w + z)).
  pose proof (Rle_0_sqr (x - z)). pose proof (Rle_0_sqr (x + z)).
  pose proof (Rle_0_sqr (w - y)). pose proof (Rle_0_sqr (w + y)).
  pose proof (Rle_0_sqr (y - z)). pose proof (Rle_0_sqr (y + z)).
  pose proof (Rle_0_sqr (w - x)). pose proof (Rle_0_sqr (w + x)).
  pose proof (Rle_0_sqr x). pose proof (Rle_0_sqr y).
  pose proof (Rle_0_sqr z). pose proof (Rle_0_sqr w).
  unfold Rsqr in *.
  unfold entries, Matrix4.compose, Vector3.setScalar; simpl.
  repeat (apply Forall_cons; split);
    try (apply Forall_nil; exact I);
    try assumption;
    try (apply Hrs; split; nra);
    try (rewrite Rabs_R0; lra);
    try (rewrite Rabs_R1; lra).
Qed.

(** A settled matrix is decomposed without a division by zero, into the
    scale it was composed with and a unit quaternion. *)
Lemma settled_decompose (m : Matrix4.t) :
  settled m ->
  Matrix4_decompose_defined m
  /\ (exists s : R,
        (Matrix4_decompose m).2 = Vector3.setScalar s /\ 0.1 <= s <= 1)
  /\ unitq (Matrix4_decompose m).1.2.
Proof.
  intros [p [q [s [-> [_ [Hu Hs]]]]]].
  assert (Hpos : 0 < s) by lra.
  split; [apply decompose_defined_compose; assumption|].
  rewrite (decompose_compose p q s Hu Hpos). cbn [fst snd].
  split; [exists s; split; [reflexivity|exact Hs]|].
  destruct (setFromRotationMatrix_of_quaternion q Hu) as [H|H];
    cbv zeta in H; rewrite H; [exact Hu|apply q_neg_unit; exact Hu].
Qed.

Lemma lerp_within (c a : R) (p t : Vector3.t) :
  0 <= a <= 1 -> within c p -> within c t -> within c (Vector3.lerp p t a).
Proof.
  intros Ha [Px [Py Pz]] [Tx [Ty Tz]].
  apply Rabs_le_inv in Px, Py, Pz, Tx, Ty, Tz.
  unfold within, Vector3.lerp; simpl.
  repeat split; apply Rabs_le; split; nra.
Qed.

Lemma bob_small (time : R) (d : InstanceData) : Rabs (bob time d) <= 0.002.
Proof.
  unfold bob.
  pose proof (sin_abs_le (time * 2 + Vector3.x (chaosPos d))) as H.
  apply Rabs_le. split; lra.
Qed.

(** The position written stays within 35 of the origin in every
    coordinate, as long as the step factor is between 0 and 1. *)
Lemma newPosition_within (isFormed : bool) (time delta : R)
    (d : InstanceData) (p : Vector3.t) :
  tame d -> 0 <= delta <= 1 / 2 -> within 35 p ->
  within 35 (newPosition isFormed time delta d p).
Proof.
  intros [Hc [Ht [Hsp _]]] Hd Hp.
  assert (Ha : 0 <= delta * speed d <= 1) by nra.
  assert (Hq : within 35 (lerped isFormed delta d p)).
  { unfold lerped. apply lerp_within; [exact Ha|exact Hp|].
    unfold dest. destruct isFormed; [|exact Hc].
    destruct Ht as [Tx [Ty Tz]]. repeat split; lra. }
  unfold newPosition. cbv zeta.
  destruct (bobs isFormed d (lerped isFormed delta d p)) eqn:Hb;
    [|exact Hq].
  unfold bobs in Hb. apply andb_prop in Hb as [_ Hb].
  apply bool_decide_eq_true_1 in Hb.
  unfold Vector3.distanceTo in Hb.
  apply sqrt_lt_bound in Hb; [|lra].
  unfold Vector3.distanceToSquared in Hb. cbv zeta in Hb.
  destruct Hq as [Qx [Qy Qz]]. destruct Ht as [_ [Ty _]].
  pose proof (bob_small time d) as Hbob.
  apply Rabs_le_inv in Ty, Hbob.
  set (q := lerped isFormed delta d p) in *.
  repeat split; cbn [Vector3.x Vector3.y Vector3.z]; [exact Qx| |exact Qz].
  apply Rabs_le.
  assert (Hdy : (Vector3.y q - Vector3.y (targetPos d))
                * (Vector3.y q - Vector3.y (targetPos d)) < 0.25).
  { pose proof (Rle_0_sqr (Vector3.x q - Vector3.x (targetPos d))).
    pose proof (Rle_0_sqr (Vector3.z q - Vector3.z (targetPos d))).
    unfold Rsqr in *. lra. }
  assert (Hy : -0.5 < Vector3.y q - Vector3.y (targetPos d) < 0.5)
    by (split; nra).
  split; lra.
Qed.

(** One update keeps a matrix settled. *)
Lemma updateInstance_settled (isFormed : bool) (time delta : R)
    (d : InstanceData) (m : Matrix4.t) (dm : Object3D.t) :
  tame d -> 0 <= delta <= 1 / 2 ->
  Object3D.up dm = Vector3.mk 0 1 0 ->
  settled m ->
  settled (Object3D.matrix (Ornaments.updateInstance isFormed time delta d m dm)).
Proof.
  intros Ht Hd Hup [p [q [s [-> [Hp _]]]]].
  pose proof (newPosition_within isFormed time delta d p Ht Hd Hp) as Hp'.
  destruct Ht as [_ [_ [_ Hsc]]].
  destruct (decide (type d = gift)) as [Hg|Hg].
  - rewrite updateInstance_matrix_gift by assumption.
    rewrite compose_position.
    eexists _, _, (scale d). split; [reflexivity|].
    split; [exact Hp'|]. split; [apply setFromEuler_unit|].
    specialize (Hsc 0). unfold newScale in Hsc.
    destruct (decide (type d = light)) as [Hl|_]; [congruence|exact Hsc].
  - rewrite updateInstance_matrix_other by assumption. cbv zeta.
    rewrite compose_position, Hup.
    eexists _, _, (newScale time d). split; [reflexivity|].
    split; [exact Hp'|]. split; [apply facing_unit|apply Hsc].
Qed.

(** Whatever matrix a settled matrix is read as, the update on it is
    defined. *)
Lemma settled_update_defined (isFormed : bool) (time delta : R)
    (d : InstanceData) (m : Matrix4.t) (dm : Object3D.t) :
  Object3D.up dm = Vector3.mk 0 1 0 ->
  settled m ->
  updateInstance_defined isFormed time delta d m dm.
Proof.
  intros Hup Hm. split; [apply settled_decompose, Hm|].
  intros _. cbv zeta. rewrite Hup.
  destruct (lookAt_is_yaw
              (newPosition isFormed time delta d
                 (Vector3_setFromMatrixPosition m))) as [a [b [Hab ->]]].
  apply setFromRotationMatrix_yaw. exact Hab.
Qed.

(** Every generated instance is tame. *)
Lemma makeInstance_tame (draws : nat -> R) (k : nat) :
  uniform_draws draws -> tame (Ornaments.makeInstance draws k).1.
Proof.
  intros Hu.
  pose proof (makeInstance_in_range draws Hu k) as Hr.
  pose proof (makeInstance_on_cone_band draws Hu k) as Hb.
  pose proof (makeInstance_dressed draws Hu k) as Hd.
  cbv zeta in Hr.
  set (d := (Ornaments.makeInstance draws k).1) in *.
  destruct Hr as [_ [[_ Hc] [Hy _]]].
  destruct Hb as [Hcone [_ Hrad]].
  destruct Hd as [Hl [Hn [Hsp _]]].
  unfold Ornaments.height in Hy.
  split; [|split; [|split]].
  - apply sqrt_le_bound in Hc; [|lra].
    unfold Vector3.distanceToSquared in Hc. cbv zeta in Hc. simpl in Hc.
    pose proof (Rle_0_sqr (Vector3.x (chaosPos d) - 0)).
    pose proof (Rle_0_sqr (Vector3.y (chaosPos d) - 5)).
    pose proof (Rle_0_sqr (Vector3.z (chaosPos d) - 0)).
    unfold Rsqr in *.
    repeat split; apply Rabs_le; split; nra.
  - unfold radial in Hrad.
    assert (Hlt : JsMath.sqrt
                    (Vector3.x (targetPos d) * Vector3.x (targetPos d)
                     + Vector3.z (targetPos d) * Vector3.z (targetPos d)) < 5)
      by lra.
    apply sqrt_lt_bound in Hlt; [|lra].
    pose proof (Rle_0_sqr (Vector3.x (targetPos d))).
    pose proof (Rle_0_sqr (Vector3.z (targetPos d))).
    unfold Rsqr in *.
    repeat split; apply Rabs_le; split; nra.
  - lra.
  - intros time. unfold newScale.
    destruct (decide (type d = light)) as [Hlight|Hlight].
    + destruct (Hl Hlight) as [-> _].
      pose proof (sin_abs_le (time * 5 + Vector3.y (chaosPos d))) as Hs.
      lra.
    + destruct (Hn Hlight) as [Hsc _]. lra.
Qed.

Lemma generated_tame (N : nat) (draws : nat -> R) (ty : OrnamentType)
    (k : nat) (d : InstanceData) :
  uniform_draws draws ->
  dataOf ty (run (Ornaments.generate N) draws) !! k = Some d ->
  tame d.
Proof.
  intros Hu Hd.
  assert (Hall : Forall tame (allData (run (Ornaments.generate N) draws))).
  { unfold run, Ornaments.generate. apply generate_loop_all.
    - intros j. apply makeInstance_tame, Hu.
    - unfold allData; simpl. constructor. }
  unfold allData in Hall. rewrite !Forall_app in Hall.
  destruct Hall as [Hb [Hg Hl]].
  destruct ty; simpl in Hd;
    [eapply (proj1 (Forall_lookup _ _) Hb)
    |eapply (proj1 (Forall_lookup _ _) Hg)
    |eapply (proj1 (Forall_lookup _ _) Hl)]; exact Hd.
Qed.

(** The scale read back from the matrix an update writes is the scale
    the update set. *)
Lemma updateInstance_scale_read (isFormed : bool) (time delta : R)
    (d : InstanceData) (m : Matrix4.t) (dm : Object3D.t) :
  tame d ->
  Object3D.up dm = Vector3.mk 0 1 0 ->
  (Matrix4_decompose
     (Object3D.matrix (Ornaments.updateInstance isFormed time delta d m dm))).2
  = Vector3.setScalar (newScale time d).
Proof.
  intros [_ [_ [_ Hsc]]] Hup. specialize (Hsc time).
  destruct (decide (type d = gift)) as [Hg|Hg].
  - rewrite updateInstance_matrix_gift by assumption.
    assert (Hs : newScale time d = scale d).
    { unfold newScale.
      destruct (decide (type d = light)); [congruence|reflexivity]. }
    rewrite Hs in *.
    rewrite decompose_compose; [reflexivity|apply setFromEuler_unit|lra].
  - rewrite updateInstance_matrix_other by assumption. cbv zeta.
    rewrite Hup.
    rewrite decompose_compose; [reflexivity|apply facing_unit|lra].
Qed.

(** One frame keeps the matrix of an instance settled, and the scale
    read back from the matrix it writes is the scale it set. *)
Lemma render_settled (ty : OrnamentType) (data : Ornaments.Data)
    (st : Ornaments.State) (f : OrnamentsMount.Render) (k : nat)
    (d : InstanceData) (mesh : InstancedMesh.t) (m : Matrix4.t) :
  brief f -> tame d ->
  dataOf ty data !! k = Some d ->
  Object3D.up (Ornaments.dummy st) = Vector3.mk 0 1 0 ->
  refOf ty st = Some mesh ->
  InstancedMesh.instanceMatrix mesh !! k = Some m ->
  settled m ->
  exists (mesh' : InstancedMesh.t) (m' : Matrix4.t),
    refOf ty (OrnamentsMount.render data st f) = Some mesh'
    /\ InstancedMesh.instanceMatrix mesh' !! k = Some m'
    /\ settled m'
    /\ (Matrix4_decompose m').2
       = Vector3.setScalar (newScale (OrnamentsMount.elapsedTime f) d).
Proof.
  intros Hf Ht Hd Hup Hr Hm Hs. unfold OrnamentsMount.render.
  rewrite (useFrame_refOf ty _ data _ _ st (Ornaments.dummy st) eq_refl).
  rewrite Hr.
  destruct (updateMesh_lookup
              (TreeMode_eqb (OrnamentsMount.mode f) FORMED)
              (OrnamentsMount.elapsedTime f) (OrnamentsMount.delta f)
              mesh (dataOf ty data) (Ornaments.dummy st) k d m Hd Hm)
    as [mesh' [dm' [H1 [Hup' H2]]]].
  exists mesh'. eexists. split; [exact H1|]. split; [exact H2|].
  split.
  - apply updateInstance_settled; try assumption. congruence.
  - apply updateInstance_scale_read; [assumption|congruence].
Qed.

Lemma renders_settled (ty : OrnamentType) (data : Ornaments.Data) (k : nat)
    (d : InstanceData) (frames : list OrnamentsMount.Render) :
  Forall brief frames -> tame d ->
  dataOf ty data !! k = Some d ->
  forall (st : Ornaments.State) (mesh : InstancedMesh.t) (m : Matrix4.t),
    Object3D.up (Ornaments.dummy st) = Vector3.mk 0 1 0 ->
    refOf ty st = Some mesh ->
    InstancedMesh.instanceMatrix mesh !! k = Some m ->
    settled m ->
    exists (mesh' : InstancedMesh.t) (m' : Matrix4.t),
      refOf ty (OrnamentsMount.renders data frames st) = Some mesh'
      /\ InstancedMesh.instanceMatrix mesh' !! k = Some m'
      /\ settled m'.
Proof.
  intros Hf Ht Hd.
  induction frames as [|f frames IH]; intros st mesh m Hup Hr Hm Hs.
  - exists mesh, m. auto.
  - inversion Hf as [|? ? Hb Hrest]; subst.
    destruct (render_settled ty data st f k d mesh m Hb Ht Hd Hup Hr Hm Hs)
      as [mesh1 [m1 [Hr1 [Hm1 [Hs1 _]]]]].
    apply (IH Hrest (OrnamentsMount.render data st f) mesh1 m1);
      try assumption.
    unfold OrnamentsMount.render. rewrite useFrame_up. exact Hup.
Qed.

(** The scratch object keeps its up vector over a run. *)
Lemma renders_up (data : Ornaments.Data)
    (frames : list OrnamentsMount.Render) :
  forall st : Ornaments.State,
    Object3D.up (Ornaments.dummy (OrnamentsMount.renders data frames st))
    = Object3D.up (Ornaments.dummy st).
Proof.
  induction frames as [|f frames IH]; intros st; [reflexivity|].
  simpl. rewrite IH. unfold OrnamentsMount.render. apply useFrame_up.
Qed.

Lemma renders_snoc (data : Ornaments.Data)
    (frames : list OrnamentsMount.Render) (f : OrnamentsMount.Render)
    (st : Ornaments.State) :
  OrnamentsMount.renders data (frames ++ [f]) st
  = OrnamentsMount.render data (OrnamentsMount.renders data frames st) f.
Proof. unfold OrnamentsMount.renders. rewrite fold_left_app. reflexivity. Qed.


(** With a first draw of at most 0.8 the first instance is a ball. *)
Lemma generate_one_ball (draws : nat -> R) :
  draws 0%nat <= 0.8 ->
  dataOf ball (run (Ornaments.generate 1) draws) !! 0%nat
  = Some (Ornaments.makeInstance draws 0%nat).1.
Proof.
  intros H0. unfold run, Ornaments.generate.
  change (Ornaments.generate_loop 1 (Ornaments.mkData [] [] []) draws 0%nat)
    with (let '(d, k') := Ornaments.makeInstance draws 0%nat in
          (Ornaments.push (Ornaments.mkData [] [] []) d, k')).
  pose proof (makeInstance_fields draws 0%nat) as Hf. cbv zeta in Hf.
  destruct Hf as [Hty _].
  destruct (Ornaments.makeInstance draws 0%nat) as [d k'].
  cbn [fst snd] in *. rewrite push_dataOf.
  destruct (classify_cases (draws 0%nat)) as [[_ Hc]|[[Hc _]|[Hc _]]];
    try lra.
  rewrite Hc in Hty. destruct (decide (type d = ball)); [|contradiction].
  reflexivity.
Qed.

